(** * domx: DOM state observer

    A shallow embedding of [src/domx.js] (collect, observe, on and the shared
    MutationObserver) together with the part of the browser host that the
    code drives: the selector engine, the event-listener list of
    [document.body], the animation-frame callback queue and the
    mutation-record filter of a registered MutationObserver.  It also covers
    [apply] with [parseWrite], over the host's property setters, and the
    session bookkeeping of the htmx extension in [src/domx-htmx.js].

    Exceptions are modelled where the code lets them decide what happens
    next: an unknown shortcut in [parseRead] and [parseWrite], the
    SyntaxError of [matches] and [closest] on an invalid selector inside the
    delegated listeners and the mutation handler, and a subscriber that
    throws inside the loop of the shared observer.  [collect] and [apply] are
    modelled for selectors that [querySelectorAll] accepts and for custom
    readers and writers that return. *)

From stdpp Require Import prelude strings gmap.
From Stdlib Require Import String.

Open Scope string_scope.
Open Scope list_scope.
Set Warnings "-register-all".

(** ** JavaScript values that can appear in a snapshot *)

Inductive Value :=
| VNull
| VUndefined
| VStr (s : string)
| VBool (b : bool)
| VArr (vs : list Value)
| VOpaque (name : string).

(** ** Document model *)

(** A node carries the properties the accessors read.  [nodeType] is the DOM
    constant: 1 for an element, 3 for a text node.  [value] and [checked]
    are what [el.value] and [el.checked] evaluate to: a string and a boolean
    on a form control, undefined on a node that has no such property. *)
Record Node := mkNode {
  nodeType : nat;
  tagName : string;
  value : Value;
  checked : Value;
  textContent : string;
  attributes : list (string * string);
  dataset : list (string * string)
}.

(** A node is referred to by its position in the tree: the child indices on
    the way up to the root element, nearest step first.  The root element is
    [[]]; the parent of [i :: p] is [p]. *)
Definition NodeRef := list nat.

(** The document lists its nodes in tree order. *)
Definition Document := list (NodeRef * Node).

Fixpoint nodeAt (doc : Document) (r : NodeRef) : option Node :=
  match doc with
  | [] => None
  | (r', n) :: rest => if decide (r' = r) then Some n else nodeAt rest r
  end.

Fixpoint assoc (k : string) (l : list (string * string)) : option string :=
  match l with
  | [] => None
  | (k', v) :: rest => if String.eqb k' k then Some v else assoc k rest
  end.

(** [el.getAttribute(name)]: the value, or null. *)
Definition getAttribute (el : Node) (name : string) : Value :=
  match assoc name (attributes el) with
  | Some v => VStr v
  | None => VNull
  end.

(** [el.dataset[key]]: the value, or undefined. *)
Definition datasetGet (el : Node) (key : string) : Value :=
  match assoc key (dataset el) with
  | Some v => VStr v
  | None => VUndefined
  end.

(** [node.parentElement]: the root element has none. *)
Definition parentElement (r : NodeRef) : option NodeRef :=
  match r with
  | [] => None
  | _ :: p => Some p
  end.

(** ** Manifest *)

Inductive ReadSpec :=
| RFun (f : Node -> Value)
| RStr (s : string).

(** A manifest entry [{selector, read, watch}]; a missing key is [None]. *)
Record Entry := mkEntry {
  selector : option string;
  read : option ReadSpec;
  watch : option string
}.

(** A manifest, as [Object.entries(manifest)] enumerates it. *)
Definition Manifest := list (string * Entry).

(** JavaScript truthiness of the three kinds of value the code tests. *)
Definition truthyStr (o : option string) : bool :=
  match o with
  | Some s => negb (String.eqb s "")
  | None => false
  end.

Definition truthyRead (o : option ReadSpec) : bool :=
  match o with
  | Some (RFun _) => true
  | Some (RStr s) => negb (String.eqb s "")
  | None => false
  end.

(** A selector passed on to the host: [undefined] is converted to the
    string "undefined". *)
Definition selArg (o : option string) : string :=
  match o with
  | Some s => s
  | None => "undefined"
  end.

Inductive Error :=
| UnknownReadShortcut (s : string).

(** [str.slice(n)] *)
Definition slice (n : nat) (s : string) : string :=
  String.substring n (String.length s - n) s.

(** ** parseRead *)

Definition parseRead (rd : ReadSpec) : Error + (Node -> Value) :=
  match rd with
  | RFun f => inr f
  | RStr s =>
      if String.eqb s "value" then inr (fun el => value el)
      else if String.eqb s "checked" then inr (fun el => checked el)
      else if String.eqb s "text" then inr (fun el => VStr (textContent el))
      else if String.prefix "attr:" s then
        let attr := slice 5 s in
        inr (fun el => getAttribute el attr)
      else if String.prefix "data:" s then
        let key := slice 5 s in
        inr (fun el => datasetGet el key)
      else inl (UnknownReadShortcut s)
  end.

(** The read shortcuts the documentation lists. *)
Definition supportedRead (s : string) : bool :=
  String.eqb s "value" || String.eqb s "checked" || String.eqb s "text"
  || String.prefix "attr:" s || String.prefix "data:" s.

Section Host.

(** The host's selector engine: [matchesSel doc r sel] is what
    [r.matches(sel)] returns in document [doc] for a selector the engine
    accepts. *)
Variable matchesSel : Document -> NodeRef -> string -> bool.

(** [document.body] *)
Variable body : NodeRef.

(** [document.querySelectorAll(sel)]: the matching elements in tree order. *)
Definition querySelectorAll (doc : Document) (sel : string) : list (NodeRef * Node) :=
  List.filter (fun rn => Nat.eqb (nodeType rn.2) 1 && matchesSel doc rn.1 sel) doc.

(** ** collect *)

Definition readElements (extractor : Node -> Value) (elements : list (NodeRef * Node)) : Value :=
  match elements with
  | [] => VNull
  | [el] => extractor el.2
  | _ => VArr (List.map (fun el => extractor el.2) elements)
  end.

(** [state[label] = v] on the object literal [state]: the key "__proto__"
    names the accessor inherited from [Object.prototype], so the assignment
    runs its setter and creates no property. *)
Definition setProperty (label : string) (v : Value) (state : gmap string Value)
  : gmap string Value :=
  if String.eqb label "__proto__" then state else <[label := v]> state.

Fixpoint collectInto (state : gmap string Value) (entries : Manifest) (doc : Document)
  : Error + gmap string Value :=
  match entries with
  | [] => inr state
  | (label, config) :: rest =>
      if negb (truthyStr (selector config)) || negb (truthyRead (read config))
      then collectInto state rest doc
      else
        match read config with
        | None => collectInto state rest doc
        | Some rd =>
            match parseRead rd with
            | inl err => inl err
            | inr extractor =>
                let elements := querySelectorAll doc (selArg (selector config)) in
                collectInto (setProperty label (readElements extractor elements) state)
                  rest doc
            end
        end
  end.

Definition collect (manifest : Manifest) (doc : Document) : Error + gmap string Value :=
  collectInto ∅ manifest doc.

(** ** Trigger selection *)

(** [getWatchEvent]: the event name to listen for, or null. *)
Definition getWatchEvent (rd : option ReadSpec) (watchOverride : option string) : option string :=
  if truthyStr watchOverride then watchOverride
  else
    match rd with
    | Some (RFun _) => None
    | Some (RStr s) =>
        if String.eqb s "value" then Some "input"
        else if String.eqb s "checked" then Some "change"
        else None
    | None => None
    end.

(** ** Host: mutation observers *)

Inductive MutationType := Attributes | CharacterData | ChildList.

Record MutationRecord := mkRecord {
  mr_type : MutationType;
  mr_target : NodeRef
}.

Record MutationObserverInit := mkInit {
  childList : bool;
  subtree : bool;
  attributesOpt : bool;
  characterData : bool
}.

(** A registered observer: the node it was registered on and its options. *)
Record Registered := mkRegistered {
  reg_node : NodeRef;
  reg_options : MutationObserverInit
}.

(** The inclusive ancestors of a node: itself, its parent, and so on. *)
Fixpoint inclusiveAncestors (r : NodeRef) : list NodeRef :=
  r :: match r with
       | [] => []
       | _ :: p => inclusiveAncestors p
       end.

(** The DOM standard's "queue a mutation record": the observer registered
    on [node], an inclusive ancestor of the target, is interested unless
    [node] is not the target and [subtree] is false, or the record's type
    is switched off. *)
Definition interestedAt (reg : Registered) (mr : MutationRecord) (node : NodeRef) : bool :=
  bool_decide (node = reg_node reg)
  && negb
       ((negb (bool_decide (node = mr_target mr)) && negb (subtree (reg_options reg)))
        || match mr_type mr with
           | Attributes => negb (attributesOpt (reg_options reg))
           | CharacterData => negb (characterData (reg_options reg))
           | ChildList => negb (childList (reg_options reg))
           end).

Definition interested (reg : Registered) (mr : MutationRecord) : bool :=
  existsb (interestedAt reg mr) (inclusiveAncestors (mr_target mr)).

(** ** Module and host state *)

(** A subscriber of the shared observer: the [mutationHandler] closure of a
    session, or a raw callback passed to [on]. *)
Inductive Subscriber :=
| MutationHandler (sid : nat)
| RawCallback (cb : nat).

#[global] Instance Subscriber_eq_dec : EqDecision Subscriber.
Proof. solve_decision. Defined.

(** A delegated listener on [document.body]: the [handler] closure created
    for entry number [l_entry] of session [l_session], which captured the
    entry's [selector]. *)
Record Listener := mkListener {
  l_type : string;
  l_session : nat;
  l_entry : nat;
  l_selector : option string
}.

(** The closures pushed on [cleanups]. *)
Inductive Cleanup :=
| RemoveListener (ty : string) (sid idx : nat)
| DeleteSubscriber (sub : Subscriber).

(** The variables one call of [observe] closes over. *)
Record Session := mkSession {
  s_manifest : Manifest;
  s_pending : option nat;
  s_cleanups : list Cleanup
}.

(** What the outside world sees: a session's callback called with a
    snapshot, a flush that failed with an uncaught error, a subscriber of
    the shared observer called with a batch. *)
Inductive Obs :=
| Called (sid : nat) (state : gmap string Value)
| Faulted (sid : nat) (err : Error)
| Notified (sub : Subscriber) (batch : list MutationRecord).

Record World := mkWorld {
  doc : Document;
  recordQueue : list MutationRecord;
  sharedObserver : option Registered;
  observersCreated : nat;
  observerCallbacks : list Subscriber;
  onCallbacks : list nat;
  bodyListeners : list Listener;
  frameCallbacks : list (nat * nat);
  frameId : nat;
  sessions : list Session;
  trace : list Obs
}.

Definition withDoc (d : Document) (w : World) : World :=
  mkWorld d (recordQueue w) (sharedObserver w) (observersCreated w) (observerCallbacks w)
    (onCallbacks w) (bodyListeners w) (frameCallbacks w) (frameId w) (sessions w) (trace w).

Definition withRecordQueue (q : list MutationRecord) (w : World) : World :=
  mkWorld (doc w) q (sharedObserver w) (observersCreated w) (observerCallbacks w)
    (onCallbacks w) (bodyListeners w) (frameCallbacks w) (frameId w) (sessions w) (trace w).

Definition withObserver (o : option Registered) (n : nat) (w : World) : World :=
  mkWorld (doc w) (recordQueue w) o n (observerCallbacks w)
    (onCallbacks w) (bodyListeners w) (frameCallbacks w) (frameId w) (sessions w) (trace w).

Definition withObserverCallbacks (cs : list Subscriber) (w : World) : World :=
  mkWorld (doc w) (recordQueue w) (sharedObserver w) (observersCreated w) cs
    (onCallbacks w) (bodyListeners w) (frameCallbacks w) (frameId w) (sessions w) (trace w).

Definition withOnCallbacks (cs : list nat) (w : World) : World :=
  mkWorld (doc w) (recordQueue w) (sharedObserver w) (observersCreated w) (observerCallbacks w)
    cs (bodyListeners w) (frameCallbacks w) (frameId w) (sessions w) (trace w).

Definition withBodyListeners (ls : list Listener) (w : World) : World :=
  mkWorld (doc w) (recordQueue w) (sharedObserver w) (observersCreated w) (observerCallbacks w)
    (onCallbacks w) ls (frameCallbacks w) (frameId w) (sessions w) (trace w).

Definition withFrames (fs : list (nat * nat)) (n : nat) (w : World) : World :=
  mkWorld (doc w) (recordQueue w) (sharedObserver w) (observersCreated w) (observerCallbacks w)
    (onCallbacks w) (bodyListeners w) fs n (sessions w) (trace w).

Definition withSessions (ss : list Session) (w : World) : World :=
  mkWorld (doc w) (recordQueue w) (sharedObserver w) (observersCreated w) (observerCallbacks w)
    (onCallbacks w) (bodyListeners w) (frameCallbacks w) (frameId w) ss (trace w).

Definition logObs (o : Obs) (w : World) : World :=
  mkWorld (doc w) (recordQueue w) (sharedObserver w) (observersCreated w) (observerCallbacks w)
    (onCallbacks w) (bodyListeners w) (frameCallbacks w) (frameId w) (sessions w) (o :: trace w).

Definition setPending (p : option nat) (s : Session) : Session :=
  mkSession (s_manifest s) p (s_cleanups s).

(** A JavaScript [Set] keeps insertion order and holds a value once. *)
Definition setAdd {A} `{EqDecision A} (x : A) (l : list A) : list A :=
  if bool_decide (x ∈ l) then l else l ++ [x].

Definition setDelete {A} `{EqDecision A} (x : A) (l : list A) : list A :=
  List.filter (fun y => negb (bool_decide (y = x))) l.

(** The world before the module has been used, on document [d]. *)
Definition initial (d : Document) : World :=
  mkWorld d [] None 0 [] [] [] [] 0 [] [].

(** ** The batching scheduler of a session *)

(** [if (pending)]: a request identifier is a number, falsy when zero. *)
Definition truthyHandle (p : option nat) : bool :=
  match p with
  | Some (S _) => true
  | _ => false
  end.

(** [requestAnimationFrame]: the host increments its callback identifier
    and queues the callback under the new value. *)
Definition requestAnimationFrame (sid : nat) (w : World) : nat * World :=
  let handle := S (frameId w) in
  (handle, withFrames (frameCallbacks w ++ [(handle, sid)]) handle w).

Definition cancelAnimationFrame (handle : nat) (w : World) : World :=
  withFrames (List.filter (fun f => negb (Nat.eqb f.1 handle)) (frameCallbacks w)) (frameId w) w.

(** [scheduleCallback] of session [sid] *)
Definition scheduleCallback (sid : nat) (w : World) : World :=
  match sessions w !! sid with
  | None => w
  | Some s =>
      if truthyHandle (s_pending s) then w
      else
        let (handle, w1) := requestAnimationFrame sid w in
        withSessions (<[sid := setPending (Some handle) s]> (sessions w1)) w1
  end.

(** The frame callback of session [sid]:
    [pending = null; callback(collect(manifest))].  An error thrown by
    [collect] leaves the callback uncalled and reaches the host. *)
Definition flush (sid : nat) (w : World) : World :=
  match sessions w !! sid with
  | None => w
  | Some s =>
      let w1 := withSessions (<[sid := setPending None s]> (sessions w)) w in
      match collect (s_manifest s) (doc w1) with
      | inr state => logObs (Called sid state) w1
      | inl err => logObs (Faulted sid err) w1
      end
  end.

(** The host runs the animation frame callbacks queued so far. *)
Definition runFrame (w : World) : World :=
  fold_left (fun w1 f => flush f.2 w1) (frameCallbacks w) (withFrames [] (frameId w) w).

(** ** Delegated listeners *)

Definition isElement (d : Document) (r : NodeRef) : bool :=
  match nodeAt d r with
  | Some n => Nat.eqb (nodeType n) 1
  | None => false
  end.

(** [el.matches(sel)] and [el.closest(sel)] throw a SyntaxError when [sel]
    is not a valid selector, the empty string for one. *)
Variable validSelector : string -> bool.

(** [handler]: [if (e.target.matches(selector)) scheduleCallback()].  A
    target that is not an element has no [matches], and [matches] rejects
    an invalid selector; the listener then throws and schedules nothing.
    The host reports the exception and goes on with the next listener. *)
Definition handleEvent (target : NodeRef) (w : World) (l : Listener) : World :=
  if isElement (doc w) target
     && validSelector (selArg (l_selector l))
     && matchesSel (doc w) target (selArg (l_selector l))
  then scheduleCallback (l_session l) w
  else w.

(** An event of type [ty] fired at [target] and bubbling: the listeners of
    [document.body] run when the body is on the event's path. *)
Definition dispatchEvent (ty : string) (target : NodeRef) (w : World) : World :=
  if bool_decide (body ∈ inclusiveAncestors target)
  then fold_left (handleEvent target)
         (List.filter (fun l => String.eqb (l_type l) ty) (bodyListeners w)) w
  else w.

Definition removeEventListener (ty : string) (sid idx : nat) (w : World) : World :=
  withBodyListeners
    (List.filter
       (fun l => negb (String.eqb (l_type l) ty && Nat.eqb (l_session l) sid
                       && Nat.eqb (l_entry l) idx))
       (bodyListeners w)) w.

(** ** The mutation handler of a session *)

Fixpoint watchedSelectors (m : Manifest) : list (option string) :=
  match m with
  | [] => []
  | (label, config) :: rest =>
      let eventType := getWatchEvent (read config) (watch config) in
      if negb (truthyStr eventType)
      then selector config :: watchedSelectors rest
      else watchedSelectors rest
  end.

(** [el.closest(sel)]: the nearest inclusive ancestor matching [sel]. *)
Fixpoint closest (d : Document) (r : NodeRef) (sel : string) : option NodeRef :=
  if matchesSel d r sel then Some r
  else
    match r with
    | [] => None
    | _ :: p => closest d p sel
    end.

(** [target.matches?.(selector) || target.parentElement?.closest?.(selector)] *)
Definition relevantTo (d : Document) (target : NodeRef) (sel : option string) : bool :=
  matchesSel d target (selArg sel)
  || match parentElement target with
     | Some p => bool_decide (is_Some (closest d p (selArg sel)))
     | None => false
     end.

(** How the two nested loops of [mutationHandler] end: at
    [scheduleCallback(); return], by running out of records, or in the
    SyntaxError of [matches] on the first invalid selector they test. *)
Inductive ScanResult := Relevant | Irrelevant | SyntaxError.

(** [for (const selector of watchedSelectors)], for one element target. *)
Fixpoint scanSelectors (d : Document) (target : NodeRef) (watched : list (option string))
  : ScanResult :=
  match watched with
  | [] => Irrelevant
  | sel :: rest =>
      if negb (validSelector (selArg sel)) then SyntaxError
      else if relevantTo d target sel then Relevant
      else scanSelectors d target rest
  end.

(** [for (const mutation of mutations)] *)
Fixpoint scanMutations (d : Document) (watched : list (option string))
    (mutations : list MutationRecord) : ScanResult :=
  match mutations with
  | [] => Irrelevant
  | mutation :: rest =>
      let target := mr_target mutation in
      if negb (isElement d target) then scanMutations d watched rest
      else
        match scanSelectors d target watched with
        | Irrelevant => scanMutations d watched rest
        | result => result
        end
  end.

(** [mutationHandler] of session [sid]: the world a call leaves behind.  A
    call that throws has not reached [scheduleCallback()]. *)
Definition mutationHandler (sid : nat) (mutations : list MutationRecord) (w : World) : World :=
  match sessions w !! sid with
  | None => w
  | Some s =>
      match scanMutations (doc w) (watchedSelectors (s_manifest s)) mutations with
      | Relevant => scheduleCallback sid w
      | _ => w
      end
  end.

(** Whether that call ends in an exception, which then leaves the handler
    and reaches its caller. *)
Definition mutationHandlerThrows (sid : nat) (mutations : list MutationRecord) (w : World)
  : bool :=
  match sessions w !! sid with
  | None => false
  | Some s =>
      match scanMutations (doc w) (watchedSelectors (s_manifest s)) mutations with
      | SyntaxError => true
      | _ => false
      end
  end.

(** ** The shared observer *)

Definition observerInit : MutationObserverInit :=
  {| childList := true; subtree := false; attributesOpt := true; characterData := true |}.

Definition ensureObserver (w : World) : World :=
  match sharedObserver w with
  | Some _ => w
  | None => withObserver (Some (mkRegistered body observerInit)) (S (observersCreated w)) w
  end.

(** The batches subscriber [sub] has been called with, newest first. *)
Fixpoint notificationsOf (sub : Subscriber) (t : list Obs) : list (list MutationRecord) :=
  match t with
  | [] => []
  | Notified sub' batch :: rest =>
      if bool_decide (sub' = sub) then batch :: notificationsOf sub rest
      else notificationsOf sub rest
  | _ :: rest => notificationsOf sub rest
  end.

(** Whether the raw callback [cb], passed to [on], throws at its call
    number [n], counting from 0, which is made with a batch: what a callback
    does may depend on how often it has been called. *)
Variable rawThrows : nat -> nat -> list MutationRecord -> bool.

(** [callback(mutations)] for one subscriber: the world the call leaves
    behind ... *)
Definition invokeSubscriber (batch : list MutationRecord) (w : World) (sub : Subscriber) : World :=
  let w1 := logObs (Notified sub batch) w in
  match sub with
  | MutationHandler sid => mutationHandler sid batch w1
  | RawCallback _ => w1
  end.

(** ... and whether the call throws. *)
Definition subscriberThrows (batch : list MutationRecord) (w : World) (sub : Subscriber)
  : bool :=
  match sub with
  | MutationHandler sid => mutationHandlerThrows sid batch w
  | RawCallback cb =>
      rawThrows cb (List.length (notificationsOf (RawCallback cb) (trace w))) batch
  end.

(** [for (const callback of observerCallbacks) callback(mutations)]: there
    is no try/catch, so the loop ends at the first subscriber that throws. *)
Fixpoint callSubscribers (batch : list MutationRecord) (subs : list Subscriber) (w : World)
  : World :=
  match subs with
  | [] => w
  | sub :: rest =>
      let w1 := invokeSubscriber batch w sub in
      if subscriberThrows batch w sub then w1
      else callSubscribers batch rest w1
  end.

(** The callback given to [new MutationObserver]. *)
Definition observerCallback (batch : list MutationRecord) (w : World) : World :=
  callSubscribers batch (observerCallbacks w) w.

(** The tree changes to [d]; the host queues the records the registered
    observer is interested in. *)
Definition domChange (d : Document) (recs : list MutationRecord) (w : World) : World :=
  let w1 := withDoc d w in
  match sharedObserver w1 with
  | None => w1
  | Some reg => withRecordQueue (recordQueue w1 ++ List.filter (interested reg) recs) w1
  end.

(** The host's notify step: a non-empty record queue is handed over. *)
Definition notify (w : World) : World :=
  match recordQueue w with
  | [] => w
  | batch => observerCallback batch (withRecordQueue [] w)
  end.

(** ** observe, its cancel function, on and its unsubscribe function *)

Fixpoint entryListeners (sid idx : nat) (m : Manifest) : list Listener :=
  match m with
  | [] => []
  | (label, config) :: rest =>
      let eventType := getWatchEvent (read config) (watch config) in
      (if truthyStr eventType
       then [mkListener (selArg eventType) sid idx (selector config)]
       else [])
      ++ entryListeners sid (S idx) rest
  end.

Definition observe (manifest : Manifest) (w : World) : World :=
  let sid := List.length (sessions w) in
  let listeners := entryListeners sid 0 manifest in
  let w1 := withBodyListeners (bodyListeners w ++ listeners) w in
  let w2 := ensureObserver w1 in
  let w3 := withObserverCallbacks (setAdd (MutationHandler sid) (observerCallbacks w2)) w2 in
  let cleanups :=
    List.map (fun l => RemoveListener (l_type l) sid (l_entry l)) listeners
    ++ [DeleteSubscriber (MutationHandler sid)] in
  withSessions (sessions w3 ++ [mkSession manifest None cleanups]) w3.

Definition runCleanup (w : World) (c : Cleanup) : World :=
  match c with
  | RemoveListener ty sid idx => removeEventListener ty sid idx w
  | DeleteSubscriber sub => withObserverCallbacks (setDelete sub (observerCallbacks w)) w
  end.

(** The function [observe] returns, for session [sid]. *)
Definition cancel (sid : nat) (w : World) : World :=
  match sessions w !! sid with
  | None => w
  | Some s =>
      let w1 :=
        match s_pending s with
        | Some (S h) =>
            let w0 := cancelAnimationFrame (S h) w in
            withSessions (<[sid := setPending None s]> (sessions w0)) w0
        | _ => w
        end in
      fold_left runCleanup (s_cleanups s) w1
  end.

Definition on (cb : nat) (w : World) : World :=
  let w1 := ensureObserver w in
  let w2 := withOnCallbacks (setAdd cb (onCallbacks w1)) w1 in
  withObserverCallbacks (setAdd (RawCallback cb) (observerCallbacks w2)) w2.

(** The function [on] returns, for callback [cb]. *)
Definition off (cb : nat) (w : World) : World :=
  let w1 := withOnCallbacks (setDelete cb (onCallbacks w)) w in
  withObserverCallbacks (setDelete (RawCallback cb) (observerCallbacks w1)) w1.

(** ** What can happen *)

Inductive Action :=
| DomChange (d : Document) (recs : list MutationRecord)
| Notify
| Dispatch (ty : string) (target : NodeRef)
| Frame
| Observe (m : Manifest)
| Cancel (sid : nat)
| On (cb : nat)
| Off (cb : nat).

Definition step (w : World) (a : Action) : World :=
  match a with
  | DomChange d recs => domChange d recs w
  | Notify => notify w
  | Dispatch ty target => dispatchEvent ty target w
  | Frame => runFrame w
  | Observe m => observe m w
  | Cancel sid => cancel sid w
  | On cb => on cb w
  | Off cb => off cb w
  end.

Definition run (w : World) (acts : list Action) : World := fold_left step acts w.

(** The worlds the module can be in, starting on any document. *)
Definition reachable (w : World) : Prop :=
  exists d acts, w = run (initial d) acts.

(** The snapshots session [sid]'s callback has been called with, newest
    first. *)
Fixpoint callsOf (sid : nat) (t : list Obs) : list (gmap string Value) :=
  match t with
  | [] => []
  | Called sid' state :: rest =>
      if Nat.eqb sid' sid then state :: callsOf sid rest else callsOf sid rest
  | _ :: rest => callsOf sid rest
  end.

End Host.

(** ** parseWrite and apply *)

(** A write directive: a custom function [(el, value) => ...], which may
    change the document in any way, or a shortcut string. *)
Inductive WriteSpec :=
| WFun (f : Document -> NodeRef -> Value -> Document)
| WStr (s : string).

(** The two keys of a manifest entry that [apply] reads. *)
Record WriteEntry := mkWriteEntry {
  w_selector : option string;
  w_write : option WriteSpec
}.

Definition WriteManifest := list (string * WriteEntry).

Inductive WriteError :=
| UnknownWriteShortcut (s : string).

(** The host's property setters, each taking the document, the element and
    the assigned value to the document after the assignment:
    [el.value = v], [el.checked = v], [el.textContent = v],
    [el.setAttribute(name, v)] and [el.dataset[key] = v]. *)
Record Setters := mkSetters {
  setValue : Document -> NodeRef -> Value -> Document;
  setChecked : Document -> NodeRef -> Value -> Document;
  setTextContent : Document -> NodeRef -> Value -> Document;
  setAttribute : string -> Document -> NodeRef -> Value -> Document;
  setDataset : string -> Document -> NodeRef -> Value -> Document
}.

Definition truthyWrite (o : option WriteSpec) : bool :=
  match o with
  | Some (WFun _) => true
  | Some (WStr s) => negb (String.eqb s "")
  | None => false
  end.

Arguments truthyWrite : simpl never.

Section Apply.

Variable matchesSel : Document -> NodeRef -> string -> bool.
Variable host : Setters.

(** The properties the state object inherits through its prototype chain:
    those of [Object.prototype] for an object literal, none for an object
    without prototype.  The state itself is the map of its own properties. *)
Variable inherited : string -> option Value.

(** [state[label]], which is defined exactly when [label in state]. *)
Definition getProperty (state : gmap string Value) (label : string) : option Value :=
  match state !! label with
  | Some v => Some v
  | None => inherited label
  end.

Definition parseWrite (wr : WriteSpec)
  : WriteError + (Document -> NodeRef -> Value -> Document) :=
  match wr with
  | WFun f => inr f
  | WStr s =>
      if String.eqb s "value" then inr (setValue host)
      else if String.eqb s "checked" then inr (setChecked host)
      else if String.eqb s "text" then inr (setTextContent host)
      else if String.prefix "attr:" s then
        let attr := slice 5 s in
        inr (setAttribute host attr)
      else if String.prefix "data:" s then
        let key := slice 5 s in
        inr (setDataset host key)
      else inl (UnknownWriteShortcut s)
  end.

(** [for (const el of elements) writer(el, value)], over the elements the
    selector matched before the first write. *)
Definition writeAll (writer : Document -> NodeRef -> Value -> Document)
    (elements : list (NodeRef * Node)) (v : Value) (d : Document) : Document :=
  fold_left (fun d' el => writer d' el.1 v) elements d.

(** [apply(manifest, state)]: the document it leaves, and the error it
    threw, if any. *)
Fixpoint apply (manifest : WriteManifest) (state : gmap string Value) (d : Document)
  : Document * option WriteError :=
  match manifest with
  | [] => (d, None)
  | (label, config) :: rest =>
      match getProperty state label with
      | None => apply rest state d
      | Some v =>
          match w_write config with
          | None => apply rest state d
          | Some wr =>
              if negb (truthyWrite (Some wr)) then apply rest state d
              else
                match parseWrite wr with
                | inl err => (d, Some err)
                | inr writer =>
                    let elements :=
                      querySelectorAll matchesSel d (selArg (w_selector config)) in
                    apply rest state (writeAll writer elements v d)
                end
          end
      end
  end.

(** An entry [apply] acts on: its label is [in] the state and its write
    directive is truthy. *)
Definition activeWrite (state : gmap string Value) (lc : string * WriteEntry) : bool :=
  bool_decide (is_Some (getProperty state lc.1)) && truthyWrite (w_write lc.2).

End Apply.

(** ** The htmx extension *)

(** [r.getAttribute(name)] for the element at [r]. *)
Definition attributeOf (d : Document) (r : NodeRef) (name : string) : Value :=
  match nodeAt d r with
  | Some n => getAttribute n name
  | None => VNull
  end.

(** [v === s] for a string [s] *)
Definition isStr (v : Value) (s : string) : bool :=
  match v with
  | VStr s' => String.eqb s' s
  | _ => false
  end.

(** [isCacheEnabled]: the walk from [el] up through [parentElement]. *)
Fixpoint isCacheEnabled (d : Document) (el : NodeRef) : bool :=
  let attr := attributeOf d el "dx-cache" in
  if isStr attr "true" then true
  else if isStr attr "false" then false
  else
    match el with
    | [] => false
    | _ :: parent => isCacheEnabled d parent
    end.

(** The extension's state: the module's world and [activeObservers], which
    maps an element to the cancel function of the session observed for it,
    named by the session's number. *)
Record Extension := mkExtension {
  ext_world : World;
  activeObservers : gmap NodeRef nat
}.

Inductive ExtEvent :=
| BeforeProcessNode (el : NodeRef)
| BeforeCleanupElement (el : NodeRef)
| HostAction (a : Action).

Section Htmx.

Variable matchesSel : Document -> NodeRef -> string -> bool.
Variable body : NodeRef.
Variable validSelector : string -> bool.
Variable rawThrows : nat -> nat -> list MutationRecord -> bool.

(** [JSON.parse] on an attribute value: [None] when it throws, else the
    parsed manifest, [Some None] when the text parses to a falsy value. *)
Variable jsonParse : string -> option (option Manifest).

(** [window[name]] when it is truthy. *)
Variable windowGet : string -> option Manifest.

Definition parseManifest (value : string) : option Manifest :=
  if String.eqb value "" then None
  else
    match jsonParse value with
    | Some parsed => parsed
    | None => windowGet value
    end.

Fixpoint findManifest (d : Document) (el : NodeRef) : option Manifest :=
  let up :=
    match el with
    | [] => None
    | _ :: parent => findManifest d parent
    end in
  match attributeOf d el "dx-manifest" with
  | VStr attr => if negb (String.eqb attr "") then parseManifest attr else up
  | _ => up
  end.

(** [onEvent("htmx:beforeProcessNode", evt)] for element [el].  The
    callback given to [observe] fires "dx:change" on [el]; a [Called] entry
    of the trace stands for it. *)
Definition beforeProcessNode (el : NodeRef) (x : Extension) : Extension :=
  match findManifest (doc (ext_world x)) el with
  | Some manifest =>
      if bool_decide (is_Some (activeObservers x !! el)) then x
      else
        mkExtension (observe body manifest (ext_world x))
          (<[el := List.length (sessions (ext_world x))]> (activeObservers x))
  | None => x
  end.

(** [onEvent("htmx:beforeCleanupElement", evt)] for element [el]. *)
Definition beforeCleanupElement (el : NodeRef) (x : Extension) : Extension :=
  match activeObservers x !! el with
  | Some sid => mkExtension (cancel sid (ext_world x)) (delete el (activeObservers x))
  | None => x
  end.

Definition extStep (x : Extension) (e : ExtEvent) : Extension :=
  match e with
  | BeforeProcessNode el => beforeProcessNode el x
  | BeforeCleanupElement el => beforeCleanupElement el x
  | HostAction a =>
      mkExtension (step matchesSel body validSelector rawThrows (ext_world x) a)
        (activeObservers x)
  end.

Definition extRun (x : Extension) (evs : list ExtEvent) : Extension :=
  fold_left extStep evs x.

Definition extReachable (x : Extension) : Prop :=
  exists d evs, x = extRun (mkExtension (initial d) ∅) evs.

End Htmx.

(** An inclusive ancestor that settles whether caching is on. *)
Definition cacheSetting (d : Document) (r : NodeRef) : bool :=
  isStr (attributeOf d r "dx-cache") "true" || isStr (attributeOf d r "dx-cache") "false".

(** The non-empty [dx-manifest] attribute of an element, if it has one. *)
Definition manifestAttr (d : Document) (r : NodeRef) : option string :=
  match attributeOf d r "dx-manifest" with
  | VStr attr => if negb (String.eqb attr "") then Some attr else None
  | _ => None
  end.

(** ** A small host, for running the code on concrete pages *)

(** A selector engine for three forms of simple selector: [#id],
    [[attr]] and a tag name. *)
Definition simpleMatches (d : Document) (r : NodeRef) (sel : string) : bool :=
  match nodeAt d r with
  | None => false
  | Some n =>
      Nat.eqb (nodeType n) 1
      && (if String.prefix "#" sel
          then bool_decide (assoc "id" (attributes n) = Some (slice 1 sel))
          else if String.prefix "[" sel
          then bool_decide
                 (is_Some (assoc (String.substring 1 (String.length sel - 2) sel) (attributes n)))
          else String.eqb sel (tagName n))
  end.

(** The selectors this engine accepts: [#id] with a name, [[attr]] with a
    name and the closing bracket, and a tag name.  The empty string is no
    selector. *)
Definition simpleValid (sel : string) : bool :=
  if String.prefix "#" sel then Nat.ltb 1 (String.length sel)
  else if String.prefix "[" sel
  then Nat.ltb 2 (String.length sel)
       && String.eqb (String.substring (String.length sel - 1) 1 sel) "]"
  else negb (String.eqb sel "").

(** Raw callbacks that never throw. *)
Definition quietCallbacks (cb n : nat) (batch : list MutationRecord) : bool := false.

(** The raw callback 7 throws whenever it is called, the others never. *)
Definition sevenThrows (cb n : nat) (batch : list MutationRecord) : bool := Nat.eqb cb 7.

(** What an object literal inherits from [Object.prototype]. *)
Definition objectPrototype (key : string) : option Value :=
  if bool_decide
       (key ∈ ["constructor"; "hasOwnProperty"; "isPrototypeOf"; "propertyIsEnumerable";
               "toLocaleString"; "toString"; "valueOf"; "__proto__"; "__defineGetter__";
               "__defineSetter__"; "__lookupGetter__"; "__lookupSetter__"])
  then Some (VOpaque key)
  else None.

(** An element that is no form control has neither [value] nor [checked]. *)
Definition element (tag : string) (attrs : list (string * string)) (text : string) : Node :=
  mkNode 1 tag VUndefined VUndefined text attrs [].

(** A text input holding [val]. *)
Definition input (attrs : list (string * string)) (val : string) : Node :=
  mkNode 1 "input" (VStr val) (VBool false) "" attrs [].

Definition textNode (data : string) : Node :=
  mkNode 3 "#text" VUndefined VUndefined data [] [].

Definition bodyRef : NodeRef := [1].

(** html > (head, body > (span#label > "Initial", input#a, input#b)) *)
Definition page : Document :=
  [ ([], element "html" [] "Initial");
    ([0], element "head" [] "");
    ([1], element "body" [("class", "app")] "Initial");
    ([0; 1], element "span" [("id", "label")] "Initial");
    ([0; 0; 1], textNode "Initial");
    ([1; 1], input [("id", "a")] "1");
    ([2; 1], input [("id", "b")] "2") ].

(** The same page after both inputs were typed into. *)
Definition pageTyped : Document :=
  [ ([], element "html" [] "Initial");
    ([0], element "head" [] "");
    ([1], element "body" [("class", "app")] "Initial");
    ([0; 1], element "span" [("id", "label")] "Initial");
    ([0; 0; 1], textNode "Initial");
    ([1; 1], input [("id", "a")] "10");
    ([2; 1], input [("id", "b")] "20") ].


Definition valueManifest : Manifest :=
  [ ("a", mkEntry (Some "#a") (Some (RStr "value")) None);
    ("b", mkEntry (Some "#b") (Some (RStr "value")) None) ].

Definition textManifest : Manifest :=
  [ ("labelText", mkEntry (Some "#label") (Some (RStr "text")) None) ].


(** The same, after an entry whose selector is the empty string: [collect]
    skips that entry, the mutation handler tests its selector first. *)
Definition emptySelectorManifest : Manifest :=
  [ ("note", mkEntry (Some "") (Some (RStr "text")) None);
    ("theme", mkEntry (Some "body") (Some (RStr "attr:class")) None) ].

(** Every entry reads through a custom function and has no [watch]. *)
Definition customManifest : Manifest :=
  [ ("theme", mkEntry (Some "body") (Some (RFun (fun el => getAttribute el "class"))) None) ].

Definition bogusManifest : Manifest :=
  [ ("a", mkEntry (Some "#a") (Some (RStr "value")) None);
    ("b", mkEntry (Some "#b") (Some (RStr "bogus")) None) ].


(** The same selectors, the first under the label "__proto__", as a
    manifest read with [JSON.parse] can have it. *)
Definition protoManifest : Manifest :=
  [ ("__proto__", mkEntry (Some "#nonexistent") (Some (RStr "text")) None);
    ("inputs", mkEntry (Some "input") (Some (RStr "value")) None) ].

(** Entries whose read directive is no listed shortcut, which [collect]
    skips: an empty directive, and a directive without a selector. *)
Definition skippedManifest : Manifest :=
  [ ("a", mkEntry (Some "#a") (Some (RStr "")) None);
    ("b", mkEntry None (Some (RStr "bogus")) None) ].


(** Two sessions and a raw subscriber, with one record for the body queued. *)
Definition busyWorld : World :=
  run simpleMatches bodyRef simpleValid quietCallbacks (initial page)
    [Observe valueManifest; Observe textManifest; On 7; On 7;
     DomChange page [mkRecord Attributes bodyRef; mkRecord ChildList [0; 1]]].





(** One session on [emptySelectorManifest] and a raw subscriber after it. *)
Definition emptySelectorWorld : World :=
  run simpleMatches bodyRef simpleValid quietCallbacks (initial page)
    [Observe emptySelectorManifest; On 7].


Definition customSnapshot : gmap string Value := <["theme" := VStr "app"]> ∅.

(** One session on [valueManifest], and the same with a second session on
    [textManifest] after both inputs were typed into. *)
Definition valueWorld : World :=
  run simpleMatches bodyRef simpleValid quietCallbacks (initial page) [Observe valueManifest].

Definition valueSession : Session :=
  mkSession valueManifest None
    [RemoveListener "input" 0 0; RemoveListener "input" 0 1;
     DeleteSubscriber (MutationHandler 0)].

Definition twoSessions : World :=
  run simpleMatches bodyRef simpleValid quietCallbacks (initial page)
    [Observe valueManifest; Observe textManifest; DomChange pageTyped []].


(** Both inputs are typed into within one frame. *)
Definition typingWindow : list Action :=
  [DomChange pageTyped []; Dispatch "input" [1; 1]; Dispatch "input" [2; 1]].

Definition typedSnapshot : gmap string Value :=
  <["b" := VStr "20"]> (<["a" := VStr "10"]> ∅).

Definition bogusWorld : World :=
  run simpleMatches bodyRef simpleValid quietCallbacks (initial page) [Observe bogusManifest].

Definition bogusSession : Session :=
  mkSession bogusManifest None
    [RemoveListener "input" 0 0; DeleteSubscriber (MutationHandler 0)].

(** A session with a flush scheduled and a mutation record queued. *)
Definition inFlightWorld : World :=
  run simpleMatches bodyRef simpleValid quietCallbacks (initial page)
    [Observe valueManifest; DomChange pageTyped [mkRecord Attributes bodyRef];
     Dispatch "input" [1; 1]].

(** [String(v)]: an array is the texts of its elements joined by commas,
    null and undefined elements giving the empty text. *)
Fixpoint valueText (v : Value) : string :=
  match v with
  | VStr s => s
  | VBool true => "true"
  | VBool false => "false"
  | VNull => "null"
  | VUndefined => "undefined"
  | VArr vs =>
      (fix join (l : list Value) : string :=
         match l with
         | [] => ""
         | x :: rest =>
             let head := match x with
                         | VNull | VUndefined => ""
                         | _ => valueText x
                         end in
             match rest with
             | [] => head
             | _ :: _ => String.append head (String.append "," (join rest))
             end
         end) vs
  | VOpaque name => name
  end.

(** The text a property that treats null as the empty string is set to. *)
Definition nullableText (v : Value) : string :=
  match v with
  | VNull => ""
  | _ => valueText v
  end.

Definition truthyValue (v : Value) : bool :=
  match v with
  | VNull | VUndefined | VBool false => false
  | VStr s => negb (String.eqb s "")
  | _ => true
  end.

Definition isControl (n : Node) : bool := String.eqb (tagName n) "input".

Definition updateNode (f : Node -> Node) (d : Document) (r : NodeRef) : Document :=
  List.map (fun rn => if bool_decide (rn.1 = r) then (rn.1, f rn.2) else rn) d.

(** Setters for the small host.  A form control converts what is assigned
    to [value] and [checked]; on another element the assignment creates a
    property holding the value as it is. *)
Definition simpleSetters : Setters :=
  mkSetters
    (fun d r v =>
       updateNode (fun n => mkNode (nodeType n) (tagName n)
                              (if isControl n then VStr (nullableText v) else v)
                              (checked n) (textContent n) (attributes n) (dataset n)) d r)
    (fun d r v =>
       updateNode (fun n => mkNode (nodeType n) (tagName n) (value n)
                              (if isControl n then VBool (truthyValue v) else v)
                              (textContent n) (attributes n) (dataset n)) d r)
    (fun d r v =>
       updateNode (fun n => mkNode (nodeType n) (tagName n) (value n) (checked n)
                              (match v with
                               | VNull | VUndefined => ""
                               | _ => valueText v
                               end)
                              (attributes n) (dataset n)) d r)
    (fun name d r v =>
       updateNode (fun n => mkNode (nodeType n) (tagName n) (value n) (checked n)
                              (textContent n) ((name, valueText v) :: attributes n)
                              (dataset n)) d r)
    (fun key d r v =>
       updateNode (fun n => mkNode (nodeType n) (tagName n) (value n) (checked n)
                              (textContent n) (attributes n)
                              ((key, valueText v) :: dataset n)) d r).

(** Writes to both inputs, then an entry with an unknown shortcut, then one
    more write. *)
Definition writeManifest : WriteManifest :=
  [ ("a", mkWriteEntry (Some "#a") (Some (WStr "value")));
    ("b", mkWriteEntry (Some "#b") (Some (WStr "value"))) ].

Definition brokenWriteManifest : WriteManifest :=
  [ ("a", mkWriteEntry (Some "#a") (Some (WStr "value")));
    ("x", mkWriteEntry (Some "#label") (Some (WStr "html")));
    ("b", mkWriteEntry (Some "#b") (Some (WStr "value"))) ].

(** An entry labelled with a name every object literal inherits. *)
Definition inheritedWriteManifest : WriteManifest :=
  [ ("toString", mkWriteEntry (Some "#a") (Some (WStr "value"))) ].

Definition typedState : gmap string Value :=
  <["x" := VStr "X"]> (<["b" := VStr "20"]> (<["a" := VStr "10"]> ∅)).

(** The page after "10" was written to the first input only. *)
Definition pageFirstTyped : Document :=
  [ ([], element "html" [] "Initial");
    ([0], element "head" [] "");
    ([1], element "body" [("class", "app")] "Initial");
    ([0; 1], element "span" [("id", "label")] "Initial");
    ([0; 0; 1], textNode "Initial");
    ([1; 1], input [("id", "a")] "10");
    ([2; 1], input [("id", "b")] "2") ].

(** A page for the extension: the body names a manifest kept in a window
    variable and switches caching on, the form switches it off again. *)
Definition extPage : Document :=
  [ ([], element "html" [] "");
    ([0], element "head" [] "");
    ([1], element "body" [("dx-manifest", "valueManifest"); ("dx-cache", "true")] "");
    ([0; 1], element "form" [("dx-cache", "false")] "");
    ([0; 0; 1], input [("id", "a")] "1");
    ([1; 1], input [("id", "b")] "2") ].

Definition noJson (text : string) : option (option Manifest) := None.

Definition windowVars (name : string) : option Manifest :=
  if String.eqb name "valueManifest" then Some valueManifest else None.

(** The extension after htmx processed the first input. *)
Definition extProcessed : Extension :=
  extRun simpleMatches bodyRef simpleValid quietCallbacks noJson windowVars
    (mkExtension (initial extPage) ∅) [BeforeProcessNode [0; 0; 1]].

(** What [valueManifest] reads off the untouched page. *)
Definition pageSnapshot : gmap string Value :=
  <["b" := VStr "2"]> (<["a" := VStr "1"]> ∅).

(** One raw subscriber, subscribed twice. *)
Definition subscribedWorld : World :=
  run simpleMatches bodyRef simpleValid quietCallbacks (initial page) [On 7; On 7].

(** The inputs are reset within one frame. *)
Definition resetWindow : list Action :=
  [DomChange page []; Dispatch "input" [1; 1]].

(** Activity that concerns no entry of [valueManifest]. *)
Definition idleWindow : list Action :=
  [DomChange pageTyped [mkRecord Attributes bodyRef]; Notify;
   Dispatch "change" [1; 1]; Dispatch "input" [0; 1]].

(** An entry that reads "value" but watches "change". *)
Definition watchManifest : Manifest :=
  [ ("a", mkEntry (Some "#a") (Some (RStr "value")) (Some "change")) ].

(** ** Notions used to state the properties *)

(** What a run of the cleanups keeps. *)
Definition keepsListener (l : Listener) (c : Cleanup) : bool :=
  match c with
  | RemoveListener ty sid idx =>
      negb (String.eqb (l_type l) ty && Nat.eqb (l_session l) sid && Nat.eqb (l_entry l) idx)
  | DeleteSubscriber _ => true
  end.

Definition keepsSubscriber (x : Subscriber) (c : Cleanup) : bool :=
  match c with
  | RemoveListener _ _ _ => true
  | DeleteSubscriber sub => negb (bool_decide (x = sub))
  end.

(** The part of the world that scheduling and flushing leave alone. *)
Definition moduleView (w : World) :=
  (doc w, recordQueue w, sharedObserver w, observersCreated w,
   observerCallbacks w, onCallbacks w, bodyListeners w).

(** Every record of a notification has [target] as its target. *)
Definition notifiesOnly (target : NodeRef) (o : Obs) : Prop :=
  match o with
  | Notified _ batch => Forall (fun mr => mr_target mr = target) batch
  | _ => True
  end.

(** The state of the shared observer: not created yet, or created once on
    the body with the options of [ensureObserver]. *)
Definition ObserverInv (body : NodeRef) (w : World) : Prop :=
  ((sharedObserver w = None /\ observersCreated w = 0 /\ recordQueue w = [])
   \/ (sharedObserver w = Some (mkRegistered body observerInit) /\ observersCreated w = 1))
  /\ NoDup (observerCallbacks w)
  /\ Forall (fun mr => mr_target mr = body) (recordQueue w)
  /\ Forall (notifiesOnly body) (trace w).


(** Every entry reads through a custom function and has no watch override. *)
Definition customOnly (m : Manifest) : bool :=
  forallb
    (fun lc => match read lc.2 with
               | Some (RFun _) => negb (truthyStr (watch lc.2))
               | _ => false
               end) m.

(** The manifest and cleanups of every session: what never changes once
    [observe] has returned. *)
Definition sessionStatic (w : World) : list (Manifest * list Cleanup) :=
  List.map (fun s => (s_manifest s, s_cleanups s)) (sessions w).

(** The queued frame callbacks of session [sid]. *)
Definition entriesOf (sid : nat) (fs : list (nat * nat)) : list (nat * nat) :=
  List.filter (fun f => Nat.eqb f.2 sid) fs.

(** The scheduler's invariant: the frame callback a session has queued is
    the one its [pending] names, no [pending] is zero, and request
    identifiers are not reused. *)
Definition FrameInv (w : World) : Prop :=
  (forall sid s, sessions w !! sid = Some s ->
     (s_pending s <> Some 0)
     /\ (entriesOf sid (frameCallbacks w)
         = match s_pending s with
           | Some h => [(h, sid)]
           | None => []
           end))
  /\ (forall f, f ∈ frameCallbacks w ->
        f.1 <= frameId w /\ f.2 < List.length (sessions w))
  /\ (forall h a b, (h, a) ∈ frameCallbacks w -> (h, b) ∈ frameCallbacks w -> a = b).

Definition cleanupOf (sid : nat) (c : Cleanup) : Prop :=
  match c with
  | RemoveListener _ sid' _ => sid' = sid
  | DeleteSubscriber sub => sub = MutationHandler sid
  end.

(** The registrations' invariant: every listener on the body is undone by a
    cleanup of its session, and the cleanups of a session undo that
    session's registrations only. *)
Definition RegInv (w : World) : Prop :=
  (forall l, l ∈ bodyListeners w ->
     exists mc, sessionStatic w !! l_session l = Some mc
                /\ RemoveListener (l_type l) (l_session l) (l_entry l) ∈ mc.2)
  /\ (forall sid mc, sessionStatic w !! sid = Some mc ->
        DeleteSubscriber (MutationHandler sid) ∈ mc.2 /\ Forall (cleanupOf sid) mc.2).

(** Session [sid] has no registration left anywhere. *)
Definition Dead (sid : nat) (w : World) : Prop :=
  sid < List.length (sessions w)
  /\ (forall l, l ∈ bodyListeners w -> l_session l <> sid)
  /\ (MutationHandler sid ∉ observerCallbacks w)
  /\ (forall f, f ∈ frameCallbacks w -> f.2 <> sid).

(** An action inside a coalescing window of session [sid]: not a frame
    boundary, and not the session's own cancel. *)
Definition quietFor (sid : nat) (a : Action) : Prop :=
  match a with
  | Frame => False
  | Cancel sid' => sid' <> sid
  | _ => True
  end.

(** The frame part of [Dead], with what the session's callback has seen. *)
Definition silent (sid : nat) (w0 w : World) : Prop :=
  sid < List.length (sessions w)
  /\ (forall f, f ∈ frameCallbacks w -> f.2 <> sid)
  /\ callsOf sid (trace w) = callsOf sid (trace w0).

(** Whether session [sid] has a flush pending. *)
Definition pendingOf (sid : nat) (w : World) : bool :=
  match sessions w !! sid with
  | Some s => truthyHandle (s_pending s)
  | None => false
  end.

(** The loop over the subscribers gets as far as calling [sub]: no
    subscriber before it throws, [throws] telling of each subscriber whether
    its call does. *)
Fixpoint reaches (throws : Subscriber -> bool) (sub : Subscriber) (subs : list Subscriber)
  : bool :=
  match subs with
  | [] => false
  | x :: rest =>
      if bool_decide (x = sub) then true
      else negb (throws x) && reaches throws sub rest
  end.

Definition isRelevant (r : ScanResult) : bool :=
  match r with
  | Relevant => true
  | _ => false
  end.

(** Every selector [collect] hands to [querySelectorAll] is one the selector
    engine accepts, so that [querySelectorAll] throws no SyntaxError. *)
Definition queriesValid (validSelector : string -> bool) (m : Manifest) : bool :=
  forallb
    (fun lc => negb (truthyStr (selector lc.2) && truthyRead (read lc.2))
               || validSelector (selArg (selector lc.2))) m.

Section Triggers.

Variable matchesSel : Document -> NodeRef -> string -> bool.
Variable body : NodeRef.
Variable validSelector : string -> bool.
Variable rawThrows : nat -> nat -> list MutationRecord -> bool.

(** A delegated listener of session [sid] for events of type [ty] whose
    test [e.target.matches(selector)] passes. *)
Definition listenerFires (sid : nat) (d : Document) (ty : string) (target : NodeRef)
    (l : Listener) : bool :=
  Nat.eqb (l_session l) sid && String.eqb (l_type l) ty
  && isElement d target && validSelector (selArg (l_selector l))
  && matchesSel d target (selArg (l_selector l)).

(** Action [a], happening in world [w], fires a trigger of session [sid],
    that is, makes the session call [scheduleCallback()]: an event reaches
    one of its delegated listeners and the target matches the listener's
    selector, or the loop of the shared observer reaches its mutation
    handler and the handler finds the batch relevant. *)
Definition firesTrigger (sid : nat) (w : World) (a : Action) : bool :=
  match a with
  | Dispatch ty target =>
      bool_decide (body ∈ inclusiveAncestors target)
      && existsb (listenerFires sid (doc w) ty target) (bodyListeners w)
  | Notify =>
      match recordQueue w, sessions w !! sid with
      | _ :: _, Some s =>
          reaches (subscriberThrows matchesSel validSelector rawThrows (recordQueue w) w)
            (MutationHandler sid) (observerCallbacks w)
          && isRelevant
               (scanMutations matchesSel validSelector (doc w)
                  (watchedSelectors (s_manifest s)) (recordQueue w))
      | _, _ => false
      end
  | _ => false
  end.

(** The number of trigger firings of session [sid] in a run of actions. *)
Fixpoint firingsIn (sid : nat) (w : World) (acts : list Action) : nat :=
  match acts with
  | [] => 0
  | a :: rest =>
      (if firesTrigger sid w a then 1 else 0)
      + firingsIn sid (step matchesSel body validSelector rawThrows w a) rest
  end.

End Triggers.

(** * Properties *)

Section Snapshot.

Variable matchesSel : Document -> NodeRef -> string -> bool.

Local Abbreviation querySelectorAll := (querySelectorAll matchesSel).
Local Abbreviation collectInto := (collectInto matchesSel).
Local Abbreviation collect := (collect matchesSel).

Lemma parseRead_unsupported (s : string) :
  supportedRead s = false -> parseRead (RStr s) = inl (UnknownReadShortcut s).
Proof.
  unfold supportedRead, parseRead. intros H.
  repeat (apply orb_false_elim in H; destruct H as [H ?]).
  by repeat match goal with E : _ = false |- _ => rewrite E; clear E end.
Qed.

Lemma parseRead_error (rd : ReadSpec) (err : Error) :
  parseRead rd = inl err ->
  exists s, rd = RStr s /\ err = UnknownReadShortcut s /\ supportedRead s = false.
Proof.
  destruct rd as [f | s]; [done |].
  unfold parseRead.
  destruct (String.eqb s "value") eqn:E1; [done |].
  destruct (String.eqb s "checked") eqn:E2; [done |].
  destruct (String.eqb s "text") eqn:E3; [done |].
  destruct (String.prefix "attr:" s) eqn:E4; [done |].
  destruct (String.prefix "data:" s) eqn:E5; [done |].
  intros [= <-]. exists s. unfold supportedRead.
  by rewrite E1, E2, E3, E4, E5.
Qed.

Lemma setProperty_lookup_ne (l label : string) (v : Value) (st : gmap string Value) :
  l <> label -> setProperty l v st !! label = st !! label.
Proof.
  intros Hne. unfold setProperty. destruct (String.eqb l "__proto__"); [done |].
  by rewrite lookup_insert_ne.
Qed.

Lemma setProperty_lookup_eq (label : string) (v : Value) (st : gmap string Value) :
  label <> "__proto__" -> setProperty label v st !! label = Some v.
Proof.
  intros Hne. unfold setProperty. apply String.eqb_neq in Hne. rewrite Hne.
  by rewrite lookup_insert_eq.
Qed.


(** Entries under other labels leave a label of the state alone. *)
Lemma collectInto_other (m : Manifest) (d : Document) (st st' : gmap string Value)
    (label : string) :
  label ∉ m.*1 -> collectInto st m d = inr st' -> st' !! label = st !! label.
Proof.
  revert st. induction m as [| [l c] m IH]; intros st Hnot; simpl.
  - by intros [= <-].
  - rewrite fmap_cons in Hnot. simpl in Hnot. apply not_elem_of_cons in Hnot as [Hne Hnot].
    destruct (negb (truthyStr (selector c)) || negb (truthyRead (read c))); [by apply IH |].
    destruct (read c) as [rd |]; [| by apply IH].
    destruct (parseRead rd) as [err | ex]; [done |].
    intros H. rewrite (IH _ Hnot H). by apply setProperty_lookup_ne.
Qed.


(** What a successful [collect] stores under the label of an entry that has
    a selector and a read directive. *)
Lemma collectInto_entry (m : Manifest) (d : Document) (st st' : gmap string Value)
    (label : string) (config : Entry) (rd : ReadSpec) :
  NoDup m.*1 ->
  (label, config) ∈ m -> label <> "__proto__" ->
  truthyStr (selector config) = true ->
  read config = Some rd -> truthyRead (Some rd) = true ->
  collectInto st m d = inr st' ->
  exists extractor,
    parseRead rd = inr extractor
    /\ st' !! label
       = Some (readElements extractor (querySelectorAll d (selArg (selector config)))).
Proof.
  revert st. induction m as [| [l c] m IH]; intros st Hnd Hin Hproto Hsel Hrd Htr; simpl.
  - by apply elem_of_nil in Hin.
  - rewrite fmap_cons in Hnd. simpl in Hnd. apply NoDup_cons in Hnd as [Hfresh Hnd].
    apply elem_of_cons in Hin as [[= <- <-] | Hin].
    + rewrite Hsel, Hrd, Htr. simpl.
      destruct (parseRead rd) as [err | ex]; [done |].
      intros H. exists ex. split; [done |].
      rewrite (collectInto_other _ _ _ _ _ Hfresh H). by apply setProperty_lookup_eq.
    + destruct (negb (truthyStr (selector c)) || negb (truthyRead (read c)));
        [by apply IH |].
      destruct (read c) as [rd' |]; [| by apply IH].
      destruct (parseRead rd') as [err | ex]; [done |].
      by apply IH.
Qed.

(** [collect] returns a snapshot when every read directive it resolves is
    supported. *)
Lemma collectInto_total (m : Manifest) (d : Document) (st : gmap string Value) :
  (forall label config s,
      (label, config) ∈ m -> read config = Some (RStr s) -> supportedRead s = true) ->
  exists st', collectInto st m d = inr st'.
Proof.
  revert st. induction m as [| [l c] m IH]; intros st Hall; simpl; [by eexists |].
  assert (Hrest : forall label config s,
             (label, config) ∈ m -> read config = Some (RStr s) -> supportedRead s = true).
  { intros label config s Hin. apply (Hall label config s). by right. }
  destruct (negb (truthyStr (selector c)) || negb (truthyRead (read c))); [by apply IH |].
  destruct (read c) as [rd |] eqn:Hrd; [| by apply IH].
  destruct (parseRead rd) as [err | ex] eqn:Hp; [| by apply IH].
  apply parseRead_error in Hp as (s & -> & _ & Hs).
  rewrite (Hall l c s) in Hs; [done | by left | done].
Qed.

(** The first unsupported shortcut that [collect] resolves is thrown. *)
Lemma collectInto_throws (m : Manifest) (d : Document) (st : gmap string Value)
    (label : string) (config : Entry) (s : string) :
  (label, config) ∈ m ->
  truthyStr (selector config) = true ->
  read config = Some (RStr s) -> s <> "" -> supportedRead s = false ->
  exists s', collectInto st m d = inl (UnknownReadShortcut s') /\ supportedRead s' = false.
Proof.
  revert st. induction m as [| [l c] m IH]; intros st Hin Hsel Hrd Hne Hs; simpl.
  - by apply elem_of_nil in Hin.
  - apply elem_of_cons in Hin as [[= <- <-] | Hin].
    + rewrite Hsel, Hrd. simpl.
      apply String.eqb_neq in Hne. rewrite Hne. simpl.
      pose proof (parseRead_unsupported s Hs) as Hp. simpl in Hp. rewrite Hp.
      by exists s.
    + destruct (negb (truthyStr (selector c)) || negb (truthyRead (read c)));
        [by apply IH |].
      destruct (read c) as [rd' |]; [| by apply IH].
      destruct (parseRead rd') as [err | ex] eqn:Hp; [| by apply IH].
      apply parseRead_error in Hp as (s' & _ & -> & Hs'). by exists s'.
Qed.


(** C8, as amended: an entry with a non-empty selector whose read directive
    is a non-empty string outside the listed shortcuts makes [collect] throw
    an unknown-shortcut error, and the flush of a session on such a manifest
    lets the error through without calling the callback. *)
Theorem collect_unknown_shortcut_throws (m : Manifest) (d : Document)
    (label : string) (config : Entry) (s : string) :
  (label, config) ∈ m ->
  truthyStr (selector config) = true ->
  read config = Some (RStr s) -> s <> "" -> supportedRead s = false ->
  exists s',
    supportedRead s' = false
    /\ collect m d = inl (UnknownReadShortcut s')
    /\ forall (w : World) (sid : nat) (ses : Session),
         sessions w !! sid = Some ses -> s_manifest ses = m -> doc w = d ->
         trace (flush matchesSel sid w) = Faulted sid (UnknownReadShortcut s') :: trace w.
Proof.
  intros Hin Hsel Hrd Hne Hs.
  destruct (collectInto_throws m d ∅ label config s Hin Hsel Hrd Hne Hs) as (s' & Hc & Hs').
  exists s'. split; [done |]. split; [done |].
  intros w sid ses Hses <- <-. unfold flush. rewrite Hses. simpl.
  unfold collect in Hc. unfold collect. by rewrite Hc.
Qed.

End Snapshot.



(** C8 as stated fails: a read directive that is the empty string, or one
    on an entry without a selector, is none of the listed shortcuts, and
    [collect] returns a snapshot without throwing. *)
Lemma collect_unknown_shortcut_counterexample :
  supportedRead "" = false /\ supportedRead "bogus" = false
  /\ collect simpleMatches skippedManifest page = inr ∅.
Proof. repeat split; vm_compute; reflexivity. Qed.

Lemma collect_unknown_shortcut_throws_witness :
  exists s',
    supportedRead s' = false
    /\ collect simpleMatches bogusManifest page = inl (UnknownReadShortcut s')
    /\ forall (w : World) (sid : nat) (ses : Session),
         sessions w !! sid = Some ses -> s_manifest ses = bogusManifest -> doc w = page ->
         trace (flush simpleMatches sid w) = Faulted sid (UnknownReadShortcut s') :: trace w.
Proof.
  refine (collect_unknown_shortcut_throws simpleMatches bogusManifest page "b"
            (mkEntry (Some "#b") (Some (RStr "bogus")) None) "bogus" _ eq_refl eq_refl _ eq_refl).
  - right. left.
  - discriminate.
Defined.

(** * The observation core *)

Lemma World_eq (w w' : World) :
  doc w = doc w' -> recordQueue w = recordQueue w' ->
  sharedObserver w = sharedObserver w' -> observersCreated w = observersCreated w' ->
  observerCallbacks w = observerCallbacks w' -> onCallbacks w = onCallbacks w' ->
  bodyListeners w = bodyListeners w' -> frameCallbacks w = frameCallbacks w' ->
  frameId w = frameId w' -> sessions w = sessions w' -> trace w = trace w' ->
  w = w'.
Proof. destruct w, w'; simpl; intros; by subst. Qed.

Lemma filter_idem {A} (f : A -> bool) (l : list A) :
  List.filter f (List.filter f l) = List.filter f l.
Proof.
  induction l as [| x l IH]; simpl; [done |].
  destruct (f x) eqn:E; simpl; [by rewrite E, IH | done].
Qed.

(** ** Running the cleanups *)

Lemma runCleanups_listeners (cs : list Cleanup) (w : World) :
  bodyListeners (fold_left runCleanup cs w)
  = List.filter (fun l => forallb (keepsListener l) cs) (bodyListeners w).
Proof.
  revert w. induction cs as [| c cs IH]; intros w; simpl.
  - induction (bodyListeners w) as [| x l IHl]; simpl; [done | by rewrite <- IHl].
  - rewrite IH. destruct c as [ty sid idx | sub]; simpl.
    + induction (bodyListeners w) as [| x l IHl]; simpl; [done |].
      destruct (negb _); simpl; by rewrite IHl.
    + done.
Qed.

Lemma runCleanups_subscribers (cs : list Cleanup) (w : World) :
  observerCallbacks (fold_left runCleanup cs w)
  = List.filter (fun x => forallb (keepsSubscriber x) cs) (observerCallbacks w).
Proof.
  revert w. induction cs as [| c cs IH]; intros w; simpl.
  - induction (observerCallbacks w) as [| x l IHl]; simpl; [done | by rewrite <- IHl].
  - rewrite IH. destruct c as [ty sid idx | sub]; simpl; [done |].
    unfold setDelete.
    induction (observerCallbacks w) as [| x l IHl]; simpl; [done |].
    destruct (negb _); simpl; by rewrite IHl.
Qed.

Lemma runCleanups_rest (cs : list Cleanup) (w : World) :
  let w' := fold_left runCleanup cs w in
  doc w' = doc w /\ recordQueue w' = recordQueue w
  /\ sharedObserver w' = sharedObserver w /\ observersCreated w' = observersCreated w
  /\ onCallbacks w' = onCallbacks w /\ frameCallbacks w' = frameCallbacks w
  /\ frameId w' = frameId w /\ sessions w' = sessions w /\ trace w' = trace w.
Proof.
  revert w. induction cs as [| c cs IH]; intros w; simpl; [done |].
  destruct (IH (runCleanup w c)) as (-> & -> & -> & -> & -> & -> & -> & -> & ->).
  by destruct c.
Qed.

Lemma runCleanups_idem (cs : list Cleanup) (w : World) :
  fold_left runCleanup cs (fold_left runCleanup cs w) = fold_left runCleanup cs w.
Proof.
  destruct (runCleanups_rest cs (fold_left runCleanup cs w))
    as (? & ? & ? & ? & ? & ? & ? & ? & ?).
  apply World_eq; try done.
  - rewrite runCleanups_subscribers. rewrite (runCleanups_subscribers cs w).
    apply filter_idem.
  - rewrite runCleanups_listeners. rewrite (runCleanups_listeners cs w).
    apply filter_idem.
Qed.

(** C5: calling the cancel function of a session a second time changes
    nothing: the world after two calls is the world after one.  The function
    is total, whether or not a trigger ever fired or a flush is pending. *)
Theorem cancel_idempotent (sid : nat) (w : World) :
  cancel sid (cancel sid w) = cancel sid w.
Proof.
  destruct (sessions w !! sid) as [s |] eqn:Hs.
  2: { unfold cancel. by rewrite Hs, Hs. }
  set (w1 := match s_pending s with
             | Some (S h) =>
                 let w0 := cancelAnimationFrame (S h) w in
                 withSessions (<[sid := setPending None s]> (sessions w0)) w0
             | _ => w
             end).
  assert (E : cancel sid w = fold_left runCleanup (s_cleanups s) w1).
  { unfold cancel. by rewrite Hs. }
  assert (Hw1 : exists s1, sessions w1 !! sid = Some s1
                           /\ truthyHandle (s_pending s1) = false
                           /\ s_cleanups s1 = s_cleanups s).
  { subst w1. destruct (s_pending s) as [[| h] |] eqn:Hp.
    - exists s. by rewrite Hp.
    - exists (setPending None s). simpl. split; [| done].
      apply list_lookup_insert_eq. by eapply lookup_lt_Some.
    - exists s. by rewrite Hp. }
  destruct Hw1 as (s1 & Hs1 & Hp1 & Hc1).
  rewrite E. unfold cancel.
  destruct (runCleanups_rest (s_cleanups s) w1) as (_ & _ & _ & _ & _ & _ & _ & -> & _).
  rewrite Hs1, Hc1.
  destruct (s_pending s1) as [[| h] |]; try done; apply runCleanups_idem.
Qed.

(** ** Scheduling and flushing leave the module's registrations alone *)

Lemma fold_left_preserves {A B} (P : A -> Prop) (f : A -> B -> A) (l : list B) (a : A) :
  P a -> (forall x b, P x -> P (f x b)) -> P (fold_left f l a).
Proof. revert a. induction l as [| b l IH]; simpl; auto. Qed.

Lemma scheduleCallback_view (sid : nat) (w : World) :
  moduleView (scheduleCallback sid w) = moduleView w
  /\ trace (scheduleCallback sid w) = trace w.
Proof.
  unfold scheduleCallback. destruct (sessions w !! sid); [| done].
  by destruct (truthyHandle _).
Qed.

(** ** The scheduler's invariant *)

Lemma entriesOf_app (sid : nat) (fs gs : list (nat * nat)) :
  entriesOf sid (fs ++ gs) = entriesOf sid fs ++ entriesOf sid gs.
Proof. apply List.filter_app. Qed.

Lemma entriesOf_elem (sid : nat) (fs : list (nat * nat)) (f : nat * nat) :
  f ∈ entriesOf sid fs <-> f ∈ fs /\ f.2 = sid.
Proof.
  unfold entriesOf. rewrite !list_elem_of_In, filter_In. by rewrite Nat.eqb_eq.
Qed.

Lemma entriesOf_none (sid : nat) (fs : list (nat * nat)) :
  (forall f, f ∈ fs -> f.2 <> sid) -> entriesOf sid fs = [].
Proof.
  intros H. destruct (entriesOf sid fs) as [| f l] eqn:E; [done |].
  assert (Hf : f ∈ entriesOf sid fs) by (rewrite E; by left).
  apply entriesOf_elem in Hf as [Hf1 Hf2]. by apply H in Hf1.
Qed.

Lemma sessionStatic_lookup (w : World) (sid : nat) :
  sessionStatic w !! sid = (fun s => (s_manifest s, s_cleanups s)) <$> sessions w !! sid.
Proof. unfold sessionStatic. apply list_lookup_fmap. Qed.

Lemma sessionStatic_setPending (w w' : World) (sid : nat) (s : Session) (p : option nat) :
  sessions w !! sid = Some s ->
  sessions w' = <[sid := setPending p s]> (sessions w) ->
  sessionStatic w' = sessionStatic w.
Proof.
  intros Hs E. unfold sessionStatic. rewrite E.
  change List.map with (@fmap list _) at 1 2.
  rewrite list_fmap_insert. simpl.
  apply list_insert_id. by rewrite list_lookup_fmap, Hs.
Qed.

Lemma scheduleCallback_static (sid : nat) (w : World) :
  sessionStatic (scheduleCallback sid w) = sessionStatic w.
Proof.
  unfold scheduleCallback. destruct (sessions w !! sid) as [s |] eqn:Hs; [| done].
  destruct (truthyHandle _); [done |].
  by eapply sessionStatic_setPending.
Qed.

Lemma scheduleCallback_FrameInv (sid : nat) (w : World) :
  FrameInv w -> FrameInv (scheduleCallback sid w).
Proof.
  intros (F1 & F3 & F4). unfold scheduleCallback.
  destruct (sessions w !! sid) as [s |] eqn:Hs; [| done].
  destruct (F1 sid s Hs) as [Hnz Hent].
  destruct (s_pending s) as [[| h] |] eqn:Hp; simpl; [done | done |].
  assert (Hlt : sid < List.length (sessions w)) by (by eapply lookup_lt_Some).
  split; [| split]; simpl.
  - intros sid' s' H. destruct (decide (sid' = sid)) as [-> | Hne].
    + rewrite list_lookup_insert_eq in H by done. injection H as <-. simpl.
      split; [done |]. rewrite entriesOf_app, Hent. simpl. by rewrite Nat.eqb_refl.
    + rewrite list_lookup_insert_ne in H by done.
      split; [by apply (F1 sid' s') |].
      rewrite entriesOf_app. simpl.
      destruct (Nat.eqb_spec sid sid') as [-> | _]; [done |].
      rewrite app_nil_r. by apply (F1 sid' s').
  - intros f H. rewrite length_insert.
    apply elem_of_app in H as [H | H].
    + apply F3 in H. lia.
    + apply list_elem_of_singleton in H. subst. simpl. lia.
  - intros h' a b Ha Hb.
    apply elem_of_app in Ha as [Ha | Ha]; apply elem_of_app in Hb as [Hb | Hb].
    + by eapply F4.
    + apply list_elem_of_singleton in Hb. injection Hb as -> ->.
      apply F3 in Ha. simpl in Ha. lia.
    + apply list_elem_of_singleton in Ha. injection Ha as -> ->.
      apply F3 in Hb. simpl in Hb. lia.
    + apply list_elem_of_singleton in Ha. apply list_elem_of_singleton in Hb. congruence.
Qed.

Lemma fold_left_preserves_elem {A B} (P : A -> Prop) (f : A -> B -> A) (l : list B) (a : A) :
  P a -> (forall x b, b ∈ l -> P x -> P (f x b)) -> P (fold_left f l a).
Proof.
  revert a. induction l as [| b l IH]; simpl; [auto |].
  intros a Ha Hf. apply IH.
  - apply Hf; [by left | done].
  - intros x b' Hb'. apply Hf. by right.
Qed.

Lemma scheduleCallback_frames (sid : nat) (w : World) :
  List.length (sessions (scheduleCallback sid w)) = List.length (sessions w)
  /\ forall f, f ∈ frameCallbacks (scheduleCallback sid w) ->
               f ∈ frameCallbacks w \/ f.2 = sid.
Proof.
  unfold scheduleCallback. destruct (sessions w !! sid) as [s |]; [| by auto].
  destruct (truthyHandle _); [by auto |]. simpl. rewrite length_insert. split; [done |].
  intros f Hf. apply elem_of_app in Hf as [Hf | Hf]; [by left | right].
  apply list_elem_of_singleton in Hf. by subst.
Qed.

Lemma setAdd_elem {A} `{EqDecision A} (x y : A) (l : list A) :
  y ∈ setAdd x l <-> y ∈ l \/ y = x.
Proof.
  unfold setAdd. destruct (bool_decide (x ∈ l)) eqn:E.
  - apply bool_decide_eq_true in E. split; [by left |]. by intros [? | ->].
  - rewrite elem_of_app, list_elem_of_singleton. done.
Qed.

Lemma filter_elem {A} (f : A -> bool) (l : list A) (x : A) :
  x ∈ List.filter f l <-> x ∈ l /\ f x = true.
Proof. by rewrite !list_elem_of_In, filter_In. Qed.

(** ** Pending flushes *)

Lemma scheduleCallback_sets_pending (sid : nat) (w : World) :
  is_Some (sessions w !! sid) -> pendingOf sid (scheduleCallback sid w) = true.
Proof.
  intros [s Hs]. unfold pendingOf, scheduleCallback. rewrite Hs.
  destruct (truthyHandle (s_pending s)) eqn:Hp; [by rewrite Hs |]. simpl.
  rewrite list_lookup_insert_eq; [done | by eapply lookup_lt_Some].
Qed.

Lemma scheduleCallback_lookup_ne (sid sid' : nat) (w : World) :
  sid' <> sid -> sessions (scheduleCallback sid' w) !! sid = sessions w !! sid.
Proof.
  intros Hne. unfold scheduleCallback. destruct (sessions w !! sid') as [s |]; [| done].
  destruct (truthyHandle _); [done |]. simpl. by rewrite list_lookup_insert_ne.
Qed.

Lemma scheduleCallback_keeps_pending (sid sid' : nat) (w : World) :
  pendingOf sid w = true -> pendingOf sid (scheduleCallback sid' w) = true.
Proof.
  intros Hp. destruct (decide (sid' = sid)) as [-> | Hne].
  - apply scheduleCallback_sets_pending. unfold pendingOf in Hp.
    by destruct (sessions w !! sid).
  - unfold pendingOf. by rewrite scheduleCallback_lookup_ne.
Qed.

Lemma fold_sets_pending {B} (Good : World -> Prop) (f : World -> B -> World)
    (sid : nat) (ls : list B) (b0 : B) (w : World) :
  (forall x b, Good x -> Good (f x b)) ->
  (forall x b, pendingOf sid x = true -> pendingOf sid (f x b) = true) ->
  (forall x, Good x -> pendingOf sid (f x b0) = true) ->
  b0 ∈ ls -> Good w -> pendingOf sid (fold_left f ls w) = true.
Proof.
  intros Hgood Hkeep Hset. revert w.
  induction ls as [| b ls IH]; intros w Hin Hw; simpl.
  - by apply elem_of_nil in Hin.
  - apply elem_of_cons in Hin as [<- | Hin].
    + apply (fold_left_preserves (fun x => pendingOf sid x = true)); [by apply Hset | done].
    + apply IH; [done | by apply Hgood].
Qed.

Lemma repeat_app_cons {A} (x : A) (n : nat) (l : list A) :
  repeat x n ++ x :: l = x :: repeat x n ++ l.
Proof. induction n as [| n IH]; simpl; [done | by rewrite IH]. Qed.



(** The cleanups of one session keep what belongs to another. *)
Lemma cleanups_keep_listener (sid : nat) (cs : list Cleanup) (l : Listener) :
  Forall (cleanupOf sid) cs -> l_session l <> sid -> forallb (keepsListener l) cs = true.
Proof.
  intros Hcs Hne. apply forallb_forall. intros c Hc.
  rewrite Forall_forall in Hcs. apply list_elem_of_In, Hcs in Hc.
  destruct c as [ty sid' idx | sub]; simpl in *; [| done]. subst sid'.
  destruct (Nat.eqb_spec (l_session l) sid); [done |].
  by rewrite andb_false_r.
Qed.

Lemma cleanups_keep_subscriber (sid : nat) (cs : list Cleanup) (sub : Subscriber) :
  Forall (cleanupOf sid) cs -> sub <> MutationHandler sid ->
  forallb (keepsSubscriber sub) cs = true.
Proof.
  intros Hcs Hne. apply forallb_forall. intros c Hc.
  rewrite Forall_forall in Hcs. apply list_elem_of_In, Hcs in Hc.
  destruct c as [ty sid' idx | sub']; simpl in *; [done |]. subst sub'.
  by rewrite bool_decide_eq_false_2.
Qed.

(** ** Entries read through a custom function *)

(** A manifest of custom reads without watch override gets no delegated
    listener, and every one of its selectors is watched for tree
    mutations. *)
Lemma customOnly_triggers (m : Manifest) (sid idx : nat) :
  customOnly m = true ->
  entryListeners sid idx m = []
  /\ watchedSelectors m = List.map (fun lc => selector lc.2) m.
Proof.
  revert idx. induction m as [| [label config] m IH]; intros idx H; simpl; [done |].
  simpl in H. apply andb_true_iff in H as [Hc Hm].
  destruct (IH (S idx) Hm) as [-> ->].
  unfold getWatchEvent.
  destruct (read config) as [[f | s] |]; try done.
  apply negb_true_iff in Hc. by rewrite Hc.
Qed.

Section Observation.

Variable matchesSel : Document -> NodeRef -> string -> bool.
Variable body : NodeRef.
Variable validSelector : string -> bool.
Variable rawThrows : nat -> nat -> list MutationRecord -> bool.

Local Abbreviation flush := (flush matchesSel).
Local Abbreviation runFrame := (runFrame matchesSel).
Local Abbreviation handleEvent := (handleEvent matchesSel validSelector).
Local Abbreviation dispatchEvent := (dispatchEvent matchesSel body validSelector).
Local Abbreviation scanSelectors := (scanSelectors matchesSel validSelector).
Local Abbreviation scanMutations := (scanMutations matchesSel validSelector).
Local Abbreviation mutationHandler := (mutationHandler matchesSel validSelector).
Local Abbreviation mutationHandlerThrows := (mutationHandlerThrows matchesSel validSelector).
Local Abbreviation invokeSubscriber := (invokeSubscriber matchesSel validSelector).
Local Abbreviation subscriberThrows := (subscriberThrows matchesSel validSelector rawThrows).
Local Abbreviation callSubscribers := (callSubscribers matchesSel validSelector rawThrows).
Local Abbreviation observerCallback := (observerCallback matchesSel validSelector rawThrows).
Local Abbreviation notify := (notify matchesSel validSelector rawThrows).
Local Abbreviation ensureObserver := (ensureObserver body).
Local Abbreviation observe := (observe body).
Local Abbreviation on := (on body).
Local Abbreviation step := (step matchesSel body validSelector rawThrows).
Local Abbreviation run := (run matchesSel body validSelector rawThrows).
Local Abbreviation reachable := (reachable matchesSel body validSelector rawThrows).

Lemma reachable_initial (d : Document) : reachable (initial d).
Proof. by exists d, []. Qed.

Lemma reachable_step (w : World) (a : Action) : reachable w -> reachable (step w a).
Proof.
  intros (d & acts & ->). exists d, (acts ++ [a]).
  unfold run. by rewrite fold_left_app.
Qed.

Lemma reachable_run (w : World) (acts : list Action) : reachable w -> reachable (run w acts).
Proof.
  revert w. induction acts as [| a acts IH]; intros w Hw; simpl; [done |].
  apply IH. by apply reachable_step.
Qed.

(** Induction over the worlds the module can be in. *)
Lemma reachable_invariant (P : World -> Prop) :
  (forall d, P (initial d)) ->
  (forall w a, reachable w -> P w -> P (step w a)) ->
  forall w, reachable w -> P w.
Proof.
  intros Hinit Hstep w (d & acts & ->).
  induction acts as [| a acts IH] using rev_ind; [apply Hinit |].
  unfold run. rewrite fold_left_app. simpl.
  apply Hstep; [by exists d, acts | apply IH].
Qed.

Lemma flush_view (sid : nat) (w : World) : moduleView (flush sid w) = moduleView w.
Proof.
  unfold flush. destruct (sessions w !! sid); [| done].
  by destruct (collect _ _ _).
Qed.

Lemma runFrame_view (w : World) : moduleView (runFrame w) = moduleView w.
Proof.
  unfold runFrame.
  apply (fold_left_preserves (fun x => moduleView x = moduleView w)); [done |].
  intros x f <-. apply flush_view.
Qed.

Lemma handleEvent_view (target : NodeRef) (w : World) (l : Listener) :
  moduleView (handleEvent target w l) = moduleView w
  /\ trace (handleEvent target w l) = trace w.
Proof.
  unfold handleEvent. destruct (_ && _); [| done]. apply scheduleCallback_view.
Qed.

Lemma dispatchEvent_view (ty : string) (target : NodeRef) (w : World) :
  moduleView (dispatchEvent ty target w) = moduleView w
  /\ trace (dispatchEvent ty target w) = trace w.
Proof.
  unfold dispatchEvent. destruct (bool_decide _); [| done].
  apply (fold_left_preserves (fun x => moduleView x = moduleView w /\ trace x = trace w));
    [done |].
  intros x l [<- <-]. apply handleEvent_view.
Qed.

Lemma mutationHandler_view (sid : nat) (batch : list MutationRecord) (w : World) :
  moduleView (mutationHandler sid batch w) = moduleView w
  /\ trace (mutationHandler sid batch w) = trace w.
Proof.
  unfold mutationHandler. destruct (sessions w !! sid); [| done].
  destruct (scanMutations _ _ _); try done. apply scheduleCallback_view.
Qed.

Lemma invokeSubscriber_view (batch : list MutationRecord) (w : World) (sub : Subscriber) :
  moduleView (invokeSubscriber batch w sub) = moduleView w
  /\ trace (invokeSubscriber batch w sub) = Notified sub batch :: trace w.
Proof.
  unfold invokeSubscriber. destruct sub as [sid | cb]; [| done].
  destruct (mutationHandler_view sid batch (logObs (Notified (MutationHandler sid) batch) w))
    as [-> ->].
  done.
Qed.

(** What every call of a subscriber preserves, the loop preserves,
    wherever it ends. *)
Lemma callSubscribers_preserves (P : World -> Prop) (batch : list MutationRecord)
    (subs : list Subscriber) (w : World) :
  P w ->
  (forall x sub, sub ∈ subs -> P x -> P (invokeSubscriber batch x sub)) ->
  P (callSubscribers batch subs w).
Proof.
  revert w. induction subs as [| sub subs IH]; intros w Hw Hf; simpl; [done |].
  assert (H1 : P (invokeSubscriber batch w sub)) by (apply Hf; [by left | done]).
  destruct (subscriberThrows batch w sub); [done |].
  apply IH; [done |]. intros x sub' Hin. apply Hf. by right.
Qed.

Lemma callbacks_view (batch : list MutationRecord) (subs : list Subscriber) (w : World) :
  moduleView (callSubscribers batch subs w) = moduleView w.
Proof.
  apply (callSubscribers_preserves (fun x => moduleView x = moduleView w)); [done |].
  intros x sub _ <-. apply invokeSubscriber_view.
Qed.

Lemma moduleView_fields (w' w : World) :
  moduleView w' = moduleView w ->
  doc w' = doc w /\ recordQueue w' = recordQueue w
  /\ sharedObserver w' = sharedObserver w /\ observersCreated w' = observersCreated w
  /\ observerCallbacks w' = observerCallbacks w /\ onCallbacks w' = onCallbacks w
  /\ bodyListeners w' = bodyListeners w.
Proof. unfold moduleView. by intros [= -> -> -> -> -> -> ->]. Qed.

(** What [cancel] does to each part of the world. *)
Lemma cancel_fields (sid : nat) (w : World) (s : Session) :
  sessions w !! sid = Some s ->
  let w' := cancel sid w in
  doc w' = doc w /\ recordQueue w' = recordQueue w
  /\ sharedObserver w' = sharedObserver w /\ observersCreated w' = observersCreated w
  /\ onCallbacks w' = onCallbacks w /\ frameId w' = frameId w /\ trace w' = trace w
  /\ observerCallbacks w'
     = List.filter (fun x => forallb (keepsSubscriber x) (s_cleanups s)) (observerCallbacks w)
  /\ bodyListeners w'
     = List.filter (fun l => forallb (keepsListener l) (s_cleanups s)) (bodyListeners w)
  /\ frameCallbacks w'
     = match s_pending s with
       | Some (S h) => List.filter (fun f => negb (Nat.eqb f.1 (S h))) (frameCallbacks w)
       | _ => frameCallbacks w
       end
  /\ sessions w'
     = match s_pending s with
       | Some (S h) => <[sid := setPending None s]> (sessions w)
       | _ => sessions w
       end.
Proof.
  intros Hs w'. subst w'. unfold cancel. rewrite Hs.
  match goal with |- context [fold_left runCleanup ?cs ?x] =>
    destruct (runCleanups_rest cs x) as (-> & -> & -> & -> & -> & -> & -> & -> & ->);
    rewrite (runCleanups_subscribers cs x), (runCleanups_listeners cs x)
  end.
  by destruct (s_pending s) as [[| h] |].
Qed.

Lemma setAdd_NoDup {A} `{EqDecision A} (x : A) (l : list A) :
  NoDup l -> NoDup (setAdd x l).
Proof.
  intros Hl. unfold setAdd. destruct (bool_decide (x ∈ l)) eqn:E; [done |].
  apply bool_decide_eq_false in E. apply NoDup_app. split; [done |].
  split; [| apply NoDup_singleton].
  intros y Hy Hy'. apply list_elem_of_singleton in Hy'. by subst.
Qed.

Lemma setDelete_NoDup {A} `{EqDecision A} (x : A) (l : list A) :
  NoDup l -> NoDup (setDelete x l).
Proof. intros Hl. apply NoDup_ListNoDup. apply List.NoDup_filter. by apply NoDup_ListNoDup. Qed.

Lemma filter_NoDup {A} (f : A -> bool) (l : list A) : NoDup l -> NoDup (List.filter f l).
Proof. intros Hl. apply NoDup_ListNoDup. apply List.NoDup_filter. by apply NoDup_ListNoDup. Qed.

(** With the options of [ensureObserver] the host queues exactly the
    records whose target is the body. *)
Lemma interested_body (mr : MutationRecord) :
  interested (mkRegistered body observerInit) mr = true <-> mr_target mr = body.
Proof.
  unfold interested. rewrite existsb_exists. split.
  - intros (node & _ & H). unfold interestedAt in H. simpl in H.
    apply andb_true_iff in H as [H1 H2]. apply bool_decide_eq_true in H1. subst node.
    destruct (mr_type mr); simpl in H2; rewrite orb_false_r, andb_true_r in H2;
      apply negb_true_iff, negb_false_iff, bool_decide_eq_true in H2; done.
  - intros E. exists (mr_target mr). split.
    + destruct (mr_target mr); simpl; by left.
    + unfold interestedAt. simpl. rewrite E.
      rewrite !bool_decide_eq_true_2 by done. by destruct (mr_type mr).
Qed.

Lemma flush_notifiesOnly (sid : nat) (w : World) :
  Forall (notifiesOnly body) (trace w) -> Forall (notifiesOnly body) (trace (flush sid w)).
Proof.
  intros H. unfold flush. destruct (sessions w !! sid); [| done].
  destruct (collect _ _ _); simpl; by constructor.
Qed.

Lemma ensureObserver_inv (w : World) :
  ObserverInv body w -> ObserverInv body (ensureObserver w).
Proof.
  intros (Hobs & Hnd & Hq & Ht). unfold ensureObserver.
  destruct Hobs as [(Hn & Hc & Hrq) | (Hsome & Hc)].
  - rewrite Hn. repeat split; try done. right. simpl. by rewrite Hc.
  - rewrite Hsome. repeat split; try done. by right.
Qed.

Lemma step_ObserverInv (w : World) (a : Action) :
  ObserverInv body w -> ObserverInv body (step w a).
Proof.
  intros Hinv. pose proof Hinv as (Hobs & Hnd & Hq & Ht).
  destruct a as [d recs | | ty target | | m | sid | cb | cb]; simpl.
  - unfold domChange. simpl.
    destruct Hobs as [(Hn & Hc & Hrq) | (Hsome & Hc)].
    + rewrite Hn. repeat split; try done. by left.
    + rewrite Hsome. repeat split; try done; simpl; [by right |].
      apply Forall_app. split; [done |].
      apply Forall_forall. intros mr Hmr. apply list_elem_of_In, filter_In in Hmr as [_ Hmr].
      by apply interested_body.
  - unfold notify. destruct (recordQueue w) as [| mr batch] eqn:Hrq; [done |].
    unfold observerCallback.
    set (w0 := withRecordQueue [] w).
    pose proof (callbacks_view (mr :: batch) (observerCallbacks w0) w0) as Hv.
    apply moduleView_fields in Hv as (_ & Hv2 & Hv3 & Hv4 & Hv5 & _).
    unfold ObserverInv. rewrite Hv2, Hv3, Hv4, Hv5. simpl.
    repeat split; try done.
    + destruct Hobs as [(Hn & Hc & Hrq') | (Hsome & Hc)]; [left | right]; done.
    + apply (callSubscribers_preserves (fun x => Forall (notifiesOnly body) (trace x)));
        [done |].
      intros x sub _ Hx. destruct (invokeSubscriber_view (mr :: batch) x sub) as [_ ->].
      by constructor.
  - destruct (dispatchEvent_view ty target w) as [Hv Htr].
    apply moduleView_fields in Hv as (_ & Hv2 & Hv3 & Hv4 & Hv5 & _).
    unfold ObserverInv. by rewrite Hv2, Hv3, Hv4, Hv5, Htr.
  - pose proof (runFrame_view w) as Hv.
    apply moduleView_fields in Hv as (_ & Hv2 & Hv3 & Hv4 & Hv5 & _).
    unfold ObserverInv. rewrite Hv2, Hv3, Hv4, Hv5. repeat split; try done.
    unfold runFrame.
    apply (fold_left_preserves (fun x => Forall (notifiesOnly body) (trace x))); [done |].
    intros x f Hx. by apply flush_notifiesOnly.
  - unfold observe.
    set (w1 := withBodyListeners _ w).
    assert (H1 : ObserverInv body w1) by done.
    apply ensureObserver_inv in H1 as (Hobs' & Hnd' & Hq' & Ht').
    repeat split; try done. simpl. by apply setAdd_NoDup.
  - destruct (sessions w !! sid) as [s |] eqn:Hs.
    2: { unfold cancel. by rewrite Hs. }
    destruct (cancel_fields sid w s Hs) as (_ & H2 & H3 & H4 & _ & _ & H7 & H8 & _).
    unfold ObserverInv. rewrite H2, H3, H4, H7, H8. repeat split; try done.
    by apply filter_NoDup.
  - unfold on.
    pose proof (ensureObserver_inv w Hinv) as (Hobs' & Hnd' & Hq' & Ht').
    repeat split; try done. simpl. by apply setAdd_NoDup.
  - unfold off. repeat split; try done. simpl. by apply setDelete_NoDup.
Qed.

Lemma reachable_ObserverInv (w : World) : reachable w -> ObserverInv body w.
Proof.
  apply reachable_invariant.
  - intros d. split; [by left |]. repeat split; constructor.
  - intros x a _. apply step_ObserverInv.
Qed.

Lemma callbacks_notified_other (batch : list MutationRecord) (sub : Subscriber)
    (subs : list Subscriber) (w : World) :
  sub ∉ subs ->
  notificationsOf sub (trace (callSubscribers batch subs w))
  = notificationsOf sub (trace w).
Proof.
  intros Hnot.
  apply (callSubscribers_preserves
           (fun x => notificationsOf sub (trace x) = notificationsOf sub (trace w))); [done |].
  intros x sub' Hin <-. destruct (invokeSubscriber_view batch x sub') as [_ ->]. simpl.
  rewrite bool_decide_eq_false_2; [done |]. by intros ->.
Qed.

(** Whether a subscriber throws depends on the document and on the
    manifests of the sessions, which the calls of the loop leave alone. *)
Lemma subscriberThrows_ext (batch : list MutationRecord) (x w : World) (sub : Subscriber) :
  doc x = doc w -> sessionStatic x = sessionStatic w ->
  notificationsOf sub (trace x) = notificationsOf sub (trace w) ->
  subscriberThrows batch x sub = subscriberThrows batch w sub.
Proof.
  intros Hd Hst Hn. destruct sub as [sid | cb]; [| by simpl; rewrite Hn].
  unfold subscriberThrows, mutationHandlerThrows.
  assert (H : sessionStatic x !! sid = sessionStatic w !! sid) by (by rewrite Hst).
  rewrite !sessionStatic_lookup in H. rewrite Hd.
  destruct (sessions x !! sid) as [sx |], (sessions w !! sid) as [sw |];
    simpl in H; try done.
  injection H as -> _. done.
Qed.

Lemma invokeSubscriber_static (batch : list MutationRecord) (w : World) (sub : Subscriber) :
  sessionStatic (invokeSubscriber batch w sub) = sessionStatic w.
Proof.
  unfold invokeSubscriber, mutationHandler.
  destruct sub as [sid | cb]; [| done]. simpl.
  destruct (sessions w !! sid); [| done].
  destruct (scanMutations _ _ _); try done.
  apply (scheduleCallback_static sid (logObs _ w)).
Qed.

Lemma invokeSubscriber_same (batch : list MutationRecord) (x w : World) (sub : Subscriber) :
  doc x = doc w /\ sessionStatic x = sessionStatic w ->
  doc (invokeSubscriber batch x sub) = doc w
  /\ sessionStatic (invokeSubscriber batch x sub) = sessionStatic w.
Proof.
  intros [Hd Hst]. rewrite invokeSubscriber_static.
  destruct (invokeSubscriber_view batch x sub) as [Hv _].
  by apply moduleView_fields in Hv as (-> & _).
Qed.

(** The subscribers the loop has not called yet have been called as often
    as before the loop. *)
Lemma invokeSubscriber_uncalled (batch : list MutationRecord) (x w : World)
    (y : Subscriber) (subs : list Subscriber) :
  y ∉ subs ->
  (forall z, z ∈ y :: subs -> notificationsOf z (trace x) = notificationsOf z (trace w)) ->
  forall z, z ∈ subs ->
    notificationsOf z (trace (invokeSubscriber batch x y)) = notificationsOf z (trace w).
Proof.
  intros Hfresh Hn z Hz. destruct (invokeSubscriber_view batch x y) as [_ ->]. simpl.
  rewrite bool_decide_eq_false_2 by (by intros ->). apply Hn. by right.
Qed.

(** One notification: a subscriber is called with the batch if the loop
    reaches it, and then once. *)
Lemma callbacks_notified (batch : list MutationRecord) (sub : Subscriber)
    (subs : list Subscriber) (w x : World) :
  NoDup subs -> doc x = doc w -> sessionStatic x = sessionStatic w ->
  (forall z, z ∈ subs -> notificationsOf z (trace x) = notificationsOf z (trace w)) ->
  notificationsOf sub (trace (callSubscribers batch subs x))
  = if reaches (subscriberThrows batch w) sub subs
    then batch :: notificationsOf sub (trace x)
    else notificationsOf sub (trace x).
Proof.
  revert x. induction subs as [| y subs IH]; intros x Hnd Hd Hst Hn; simpl; [done |].
  apply NoDup_cons in Hnd as [Hfresh Hnd].
  destruct (invokeSubscriber_view batch x y) as [_ Ht].
  destruct (invokeSubscriber_same batch x w y (conj Hd Hst)) as [Hd' Hst'].
  pose proof (invokeSubscriber_uncalled batch x w y subs Hfresh Hn) as Hn'.
  rewrite (subscriberThrows_ext batch x w y Hd Hst) by (apply Hn; by left).
  destruct (bool_decide_reflect (y = sub)) as [-> | Hne].
  - destruct (subscriberThrows batch w sub).
    + rewrite Ht. simpl. by rewrite bool_decide_eq_true_2.
    + rewrite (callbacks_notified_other _ _ _ _ Hfresh), Ht. simpl.
      by rewrite bool_decide_eq_true_2.
  - destruct (subscriberThrows batch w y); simpl.
    + rewrite Ht. simpl. by rewrite bool_decide_eq_false_2.
    + rewrite (IH _ Hnd Hd' Hst' Hn'), Ht. simpl. by rewrite bool_decide_eq_false_2.
Qed.

(** When no subscriber throws, the loop reaches every subscriber. *)
Lemma reaches_all (throws : Subscriber -> bool) (sub : Subscriber) (subs : list Subscriber) :
  sub ∈ subs -> (forall x, x ∈ subs -> throws x = false) -> reaches throws sub subs = true.
Proof.
  induction subs as [| y subs IH]; intros Hin Hno; simpl.
  - by apply elem_of_nil in Hin.
  - destruct (bool_decide_reflect (y = sub)) as [-> | Hne]; [done |].
    rewrite (Hno y) by (by left). simpl.
    apply elem_of_cons in Hin as [-> | Hin]; [done |].
    apply IH; [done |]. intros x Hx. apply Hno. by right.
Qed.

(** C6, as amended: however many sessions and raw subscribers were
    started, at most one MutationObserver has been created; once it exists
    [ensureObserver] changes nothing; and a notification calls a registered
    subscriber with the batch at most once: once when the loop over the
    subscribers reaches it, which it does when no subscriber before it
    throws, and not at all when one does. *)
Theorem single_shared_observer (w : World) :
  reachable w ->
  observersCreated w <= 1
  /\ (is_Some (sharedObserver w) -> ensureObserver w = w)
  /\ (forall sub, sub ∈ observerCallbacks w -> recordQueue w <> [] ->
        (notificationsOf sub (trace (step w Notify))
         = if reaches (subscriberThrows (recordQueue w) w) sub (observerCallbacks w)
           then recordQueue w :: notificationsOf sub (trace w)
           else notificationsOf sub (trace w))
        /\ ((forall x, x ∈ observerCallbacks w ->
               subscriberThrows (recordQueue w) w x = false) ->
            notificationsOf sub (trace (step w Notify))
            = recordQueue w :: notificationsOf sub (trace w))).
Proof.
  intros Hw. destruct (reachable_ObserverInv w Hw) as (Hobs & Hnd & _ & _).
  split; [| split].
  - destruct Hobs as [(_ & -> & _) | (_ & ->)]; lia.
  - intros [reg Hreg]. unfold ensureObserver. by rewrite Hreg.
  - intros sub Hsub Hq.
    assert (E : notificationsOf sub (trace (step w Notify))
                = if reaches (subscriberThrows (recordQueue w) w) sub (observerCallbacks w)
                  then recordQueue w :: notificationsOf sub (trace w)
                  else notificationsOf sub (trace w)).
    { simpl. unfold notify.
      destruct (recordQueue w) as [| mr batch] eqn:Hrq; [done |].
      unfold observerCallback.
      rewrite (callbacks_notified (mr :: batch) sub _ w (withRecordQueue [] w)); done. }
    split; [exact E |].
    intros Hno. rewrite E. by rewrite (reaches_all _ _ _ Hsub Hno).
Qed.

(** C9: the shared observer is registered on [document.body] with
    [subtree] off, so the host queues a record for it exactly when the
    record's target is the body itself; every batch a subscriber was ever
    called with holds such records only; and a change whose records all
    target other nodes delivers nothing and schedules nothing: the world
    differs by the new document alone. *)
Theorem observer_delivers_body_targets_only (w : World) :
  reachable w ->
  (forall reg, sharedObserver w = Some reg ->
     reg_node reg = body /\ subtree (reg_options reg) = false
     /\ forall mr, interested reg mr = true <-> mr_target mr = body)
  /\ (forall sub batch, Notified sub batch ∈ trace w ->
        forall mr, mr ∈ batch -> mr_target mr = body)
  /\ (forall d recs, (forall mr, mr ∈ recs -> mr_target mr <> body) ->
        step w (DomChange d recs) = withDoc d w).
Proof.
  intros Hw. destruct (reachable_ObserverInv w Hw) as (Hobs & _ & _ & Ht).
  split; [| split].
  - intros reg Hreg. destruct Hobs as [(Hn & _) | (Hsome & _)]; [congruence |].
    rewrite Hsome in Hreg. injection Hreg as <-. repeat split; try done;
      by apply interested_body.
  - intros sub batch Hin mr Hmr.
    rewrite Forall_forall in Ht. specialize (Ht _ Hin). simpl in Ht.
    rewrite Forall_forall in Ht. by apply Ht.
  - intros d recs Hrecs. simpl. unfold domChange. simpl.
    destruct Hobs as [(Hn & _) | (Hsome & _)]; [by rewrite Hn | rewrite Hsome].
    assert (E : List.filter (interested (mkRegistered body observerInit)) recs = []).
    { induction recs as [| mr recs IH]; simpl; [done |].
      destruct (interested _ mr) eqn:Hi.
      - apply interested_body in Hi. exfalso. apply (Hrecs mr); [by left | done].
      - apply IH. intros mr' Hmr'. apply Hrecs. by right. }
    rewrite E, app_nil_r. by apply World_eq.
Qed.

(** ** The mutation handler *)







(** ** Frames *)

Lemma flush_fields (sid : nat) (w : World) (s : Session) :
  sessions w !! sid = Some s ->
  sessions (flush sid w) = <[sid := setPending None s]> (sessions w)
  /\ frameCallbacks (flush sid w) = frameCallbacks w
  /\ frameId (flush sid w) = frameId w
  /\ doc (flush sid w) = doc w.
Proof.
  intros Hs. unfold flush. rewrite Hs. by destruct (collect _ _ _).
Qed.

Lemma flush_absent (sid : nat) (w : World) : sessions w !! sid = None -> flush sid w = w.
Proof. intros Hs. unfold flush. by rewrite Hs. Qed.

Lemma flush_static (sid : nat) (w : World) : sessionStatic (flush sid w) = sessionStatic w.
Proof.
  destruct (sessions w !! sid) as [s |] eqn:Hs.
  - destruct (flush_fields sid w s Hs) as (E & _). by eapply sessionStatic_setPending.
  - by rewrite flush_absent.
Qed.

(** While the host works through the callbacks of a frame, nothing is
    queued, and a session with a [pending] still has its callback ahead. *)
Lemma frame_fold_pending (todo : list (nat * nat)) (w : World) :
  frameCallbacks w = [] ->
  (forall sid s, sessions w !! sid = Some s ->
     s_pending s = None \/ exists h, (h, sid) ∈ todo) ->
  let w' := fold_left (fun x f => flush f.2 x) todo w in
  frameCallbacks w' = []
  /\ frameId w' = frameId w
  /\ forall sid s, sessions w' !! sid = Some s -> s_pending s = None.
Proof.
  revert w. induction todo as [| f todo IH]; intros w Hfc Hp; simpl.
  - repeat split; try done. intros sid s Hs. destruct (Hp sid s Hs) as [? | [h Hh]]; [done |].
    by apply elem_of_nil in Hh.
  - destruct (sessions w !! f.2) as [s0 |] eqn:Hs0.
    + destruct (flush_fields f.2 w s0 Hs0) as (Es & Ef & Ei & _).
      destruct (IH (flush f.2 w)) as (H1 & H2 & H3).
      * by rewrite Ef.
      * intros sid s Hs. rewrite Es in Hs.
        destruct (decide (sid = f.2)) as [-> | Hne].
        -- rewrite list_lookup_insert_eq in Hs by (by eapply lookup_lt_Some).
           injection Hs as <-. by left.
        -- rewrite list_lookup_insert_ne in Hs by done.
           destruct (Hp sid s Hs) as [? | [h Hh]]; [by left | right].
           exists h. apply elem_of_cons in Hh as [E | Hh]; [by subst f | done].
      * repeat split; try done. by rewrite H2.
    + rewrite flush_absent by done. apply IH; [done |].
      intros sid s Hs. destruct (Hp sid s Hs) as [? | [h Hh]]; [by left | right].
      exists h. apply elem_of_cons in Hh as [E | Hh]; [| done].
      subst f. simpl in Hs0. congruence.
Qed.

Lemma runFrame_pending (w : World) :
  FrameInv w ->
  frameCallbacks (runFrame w) = []
  /\ frameId (runFrame w) = frameId w
  /\ forall sid s, sessions (runFrame w) !! sid = Some s -> s_pending s = None.
Proof.
  intros (F1 & _ & _). unfold runFrame.
  apply (frame_fold_pending (frameCallbacks w) (withFrames [] (frameId w) w)); [done |].
  simpl. intros sid s Hs. destruct (F1 sid s Hs) as [_ Hent].
  destruct (s_pending s) as [h |]; [right | by left].
  exists h. assert (H : (h, sid) ∈ entriesOf sid (frameCallbacks w)) by (rewrite Hent; by left).
  by apply entriesOf_elem in H as [H _].
Qed.

Lemma runFrame_FrameInv (w : World) : FrameInv w -> FrameInv (runFrame w).
Proof.
  intros Hinv. destruct (runFrame_pending w Hinv) as (Hfc & _ & Hp).
  split; [| split]; rewrite ?Hfc.
  - intros sid s Hs. by rewrite (Hp sid s Hs).
  - intros f Hf. by apply elem_of_nil in Hf.
  - intros h a b Ha. by apply elem_of_nil in Ha.
Qed.

Lemma runFrame_static (w : World) : sessionStatic (runFrame w) = sessionStatic w.
Proof.
  unfold runFrame.
  apply (fold_left_preserves (fun x => sessionStatic x = sessionStatic w)); [done |].
  intros x f <-. apply flush_static.
Qed.

(** ** The invariant of the scheduler holds in every reachable world *)

Lemma FrameInv_ext (w w' : World) :
  sessions w' = sessions w -> frameCallbacks w' = frameCallbacks w ->
  frameId w' = frameId w -> FrameInv w -> FrameInv w'.
Proof. unfold FrameInv. by intros -> -> ->. Qed.

Lemma entriesOf_filter (sid : nat) (p : nat * nat -> bool) (fs : list (nat * nat)) :
  entriesOf sid (List.filter p fs) = List.filter p (entriesOf sid fs).
Proof.
  unfold entriesOf. induction fs as [| f fs IH]; simpl; [done |].
  destruct (p f) eqn:Ep; destruct (Nat.eqb f.2 sid) eqn:Es; simpl;
    rewrite ?Ep, ?Es, IH; done.
Qed.

Lemma observe_fields (m : Manifest) (w : World) :
  let sid := List.length (sessions w) in
  let listeners := entryListeners sid 0 m in
  let w' := observe m w in
  doc w' = doc w /\ recordQueue w' = recordQueue w /\ trace w' = trace w
  /\ onCallbacks w' = onCallbacks w
  /\ frameCallbacks w' = frameCallbacks w /\ frameId w' = frameId w
  /\ bodyListeners w' = bodyListeners w ++ listeners
  /\ observerCallbacks w' = setAdd (MutationHandler sid) (observerCallbacks w)
  /\ sessions w'
     = sessions w
       ++ [mkSession m None
             (List.map (fun l => RemoveListener (l_type l) sid (l_entry l)) listeners
              ++ [DeleteSubscriber (MutationHandler sid)])].
Proof.
  simpl. unfold observe, ensureObserver. simpl.
  by destruct (sharedObserver w).
Qed.

Lemma observe_FrameInv (m : Manifest) (w : World) : FrameInv w -> FrameInv (observe m w).
Proof.
  intros (F1 & F3 & F4).
  destruct (observe_fields m w) as (_ & _ & _ & _ & Hfc & Hid & _ & _ & Hs).
  split; [| split]; rewrite ?Hfc, ?Hid, ?Hs.
  - intros sid s H. destruct (decide (sid < List.length (sessions w))) as [Hlt | Hge].
    + rewrite lookup_app_l in H by done. by apply F1.
    + rewrite lookup_app_r in H by lia.
      destruct (sid - List.length (sessions w)) as [| k] eqn:Ek; [| done].
      injection H as <-. simpl. split; [done |].
      apply entriesOf_none. intros f Hf. apply F3 in Hf. lia.
  - intros f Hf. apply F3 in Hf. rewrite length_app. simpl. lia.
  - done.
Qed.

Lemma cancel_FrameInv (sid : nat) (w : World) : FrameInv w -> FrameInv (cancel sid w).
Proof.
  intros Hinv. pose proof Hinv as (F1 & F3 & F4).
  destruct (sessions w !! sid) as [s |] eqn:Hs.
  2: { unfold cancel. by rewrite Hs. }
  destruct (cancel_fields sid w s Hs) as (_ & _ & _ & _ & _ & Hid & _ & _ & _ & Hfc & Hss).
  destruct (F1 sid s Hs) as [Hnz Hent].
  destruct (s_pending s) as [[| h] |] eqn:Hp; [done | | by eapply FrameInv_ext].
  split; [| split]; rewrite ?Hfc, ?Hid, ?Hss.
  - intros sid' s' H. rewrite entriesOf_filter.
    destruct (decide (sid' = sid)) as [-> | Hne].
    + rewrite list_lookup_insert_eq in H by (by eapply lookup_lt_Some).
      injection H as <-. simpl. split; [done |].
      rewrite Hent. simpl. by rewrite Nat.eqb_refl.
    + rewrite list_lookup_insert_ne in H by done.
      destruct (F1 sid' s' H) as [Hnz' Hent']. split; [done |].
      rewrite Hent'. destruct (s_pending s') as [h' |]; simpl; [| done].
      destruct (Nat.eqb_spec h' (S h)) as [-> | _]; simpl; [| done].
      exfalso. apply Hne. apply (F4 (S h)).
      * assert (H1 : (S h, sid') ∈ entriesOf sid' (frameCallbacks w))
          by (rewrite Hent'; by left).
        by apply entriesOf_elem in H1 as [H1 _].
      * assert (H1 : (S h, sid) ∈ entriesOf sid (frameCallbacks w))
          by (rewrite Hent; by left).
        by apply entriesOf_elem in H1 as [H1 _].
  - intros f Hf. apply list_elem_of_In, filter_In in Hf as [Hf _].
    apply list_elem_of_In, F3 in Hf. by rewrite length_insert.
  - intros h' a b Ha Hb.
    apply list_elem_of_In, filter_In in Ha as [Ha _].
    apply list_elem_of_In, filter_In in Hb as [Hb _].
    apply list_elem_of_In in Ha, Hb. by eapply F4.
Qed.

Lemma handleEvent_FrameInv (target : NodeRef) (w : World) (l : Listener) :
  FrameInv w -> FrameInv (handleEvent target w l).
Proof.
  intros H. unfold handleEvent. destruct (_ && _); [| done].
  by apply scheduleCallback_FrameInv.
Qed.

Lemma invokeSubscriber_FrameInv (batch : list MutationRecord) (w : World) (sub : Subscriber) :
  FrameInv w -> FrameInv (invokeSubscriber batch w sub).
Proof.
  intros H. unfold invokeSubscriber, mutationHandler.
  destruct sub as [sid | cb]; [| done]. simpl.
  destruct (sessions w !! sid); [| done].
  destruct (scanMutations _ _ _); try done.
  by apply scheduleCallback_FrameInv.
Qed.

Lemma step_FrameInv (w : World) (a : Action) : FrameInv w -> FrameInv (step w a).
Proof.
  intros Hinv. destruct a as [d recs | | ty target | | m | sid | cb | cb]; simpl.
  - unfold domChange. simpl. by destruct (sharedObserver w).
  - unfold notify. destruct (recordQueue w); [done |].
    unfold observerCallback.
    apply (callSubscribers_preserves FrameInv); [done |].
    intros x sub _. apply invokeSubscriber_FrameInv.
  - unfold dispatchEvent. destruct (bool_decide _); [| done].
    apply (fold_left_preserves FrameInv); [done |].
    intros x l. apply handleEvent_FrameInv.
  - by apply runFrame_FrameInv.
  - by apply observe_FrameInv.
  - by apply cancel_FrameInv.
  - unfold on, ensureObserver. by destruct (sharedObserver w).
  - done.
Qed.

Lemma reachable_FrameInv (w : World) : reachable w -> FrameInv w.
Proof.
  apply reachable_invariant.
  - intros d. split; [| split]; simpl.
    + intros sid s H. by rewrite lookup_nil in H.
    + intros f Hf. by apply elem_of_nil in Hf.
    + intros h a b Ha. by apply elem_of_nil in Ha.
  - intros x a _. apply step_FrameInv.
Qed.

(** ** The invariant of the registrations holds in every reachable world *)

Lemma RegInv_ext (w w' : World) :
  (forall l, l ∈ bodyListeners w' -> l ∈ bodyListeners w) ->
  sessionStatic w' = sessionStatic w -> RegInv w -> RegInv w'.
Proof.
  intros Hsub E (R1 & R3). unfold RegInv. rewrite E. split; [| done].
  intros l Hl. by apply R1, Hsub.
Qed.

Lemma handleEvent_static (target : NodeRef) (w : World) (l : Listener) :
  sessionStatic (handleEvent target w l) = sessionStatic w.
Proof.
  unfold handleEvent. destruct (_ && _); [| done]. apply scheduleCallback_static.
Qed.

Lemma dispatchEvent_static (ty : string) (target : NodeRef) (w : World) :
  sessionStatic (dispatchEvent ty target w) = sessionStatic w.
Proof.
  unfold dispatchEvent. destruct (bool_decide _); [| done].
  apply (fold_left_preserves (fun x => sessionStatic x = sessionStatic w)); [done |].
  intros x l <-. apply handleEvent_static.
Qed.

Lemma notify_static (w : World) : sessionStatic (notify w) = sessionStatic w.
Proof.
  unfold notify. destruct (recordQueue w) as [| mr batch]; [done |].
  unfold observerCallback.
  apply (callSubscribers_preserves (fun x => sessionStatic x = sessionStatic w)); [done |].
  intros x l _ <-. apply invokeSubscriber_static.
Qed.

Lemma notify_view (w : World) :
  bodyListeners (notify w) = bodyListeners w
  /\ observerCallbacks (notify w) = observerCallbacks w
  /\ doc (notify w) = doc w.
Proof.
  unfold notify. destruct (recordQueue w) as [| mr batch]; [done |].
  unfold observerCallback.
  pose proof (callbacks_view (mr :: batch) (observerCallbacks (withRecordQueue [] w))
                (withRecordQueue [] w)) as Hv.
  by apply moduleView_fields in Hv as (-> & _ & _ & _ & -> & _ & ->).
Qed.

Lemma cancel_static (sid : nat) (w : World) : sessionStatic (cancel sid w) = sessionStatic w.
Proof.
  destruct (sessions w !! sid) as [s |] eqn:Hs.
  2: { unfold cancel. by rewrite Hs. }
  destruct (cancel_fields sid w s Hs) as (_ & _ & _ & _ & _ & _ & _ & _ & _ & _ & Hss).
  destruct (s_pending s) as [[| h] |].
  - unfold sessionStatic. by rewrite Hss.
  - by eapply sessionStatic_setPending.
  - unfold sessionStatic. by rewrite Hss.
Qed.

Lemma entryListeners_session (sid idx : nat) (m : Manifest) (l : Listener) :
  l ∈ entryListeners sid idx m -> l_session l = sid.
Proof.
  revert idx. induction m as [| [label config] m IH]; intros idx; simpl.
  - intros H. by apply elem_of_nil in H.
  - intros H. apply elem_of_app in H as [H | H]; [| by eapply IH].
    destruct (truthyStr _); [| by apply elem_of_nil in H].
    apply list_elem_of_singleton in H. by subst.
Qed.

Lemma observe_RegInv (m : Manifest) (w : World) : RegInv w -> RegInv (observe m w).
Proof.
  intros (R1 & R3).
  destruct (observe_fields m w) as (_ & _ & _ & _ & _ & _ & Hl & _ & Hs).
  set (sid := List.length (sessions w)) in *.
  set (cleanups := List.map _ _ ++ _) in Hs.
  assert (E : sessionStatic (observe m w) = sessionStatic w ++ [(m, cleanups)]).
  { unfold sessionStatic. rewrite Hs. by rewrite List.map_app. }
  assert (Hlen : List.length (sessionStatic w) = sid).
  { unfold sessionStatic. by rewrite List.length_map. }
  unfold RegInv. rewrite E, Hl. split.
  - intros l H. apply elem_of_app in H as [H | H].
    + destruct (R1 l H) as (mc & Hmc & Hin). exists mc. split; [| done].
      rewrite lookup_app_l; [done | by eapply lookup_lt_Some].
    + pose proof (entryListeners_session _ _ _ _ H) as Hsid.
      exists (m, cleanups). split.
      * rewrite lookup_app_r by lia. by rewrite Hsid, Hlen, Nat.sub_diag.
      * simpl. subst cleanups. apply elem_of_app. left.
        apply list_elem_of_In, in_map_iff. exists l. rewrite Hsid.
        split; [done | by apply list_elem_of_In].
  - intros sid' mc H. destruct (decide (sid' < sid)) as [Hlt | Hge].
    + rewrite lookup_app_l in H by lia. by apply R3.
    + rewrite lookup_app_r in H by lia. rewrite Hlen in H.
      destruct (sid' - sid) as [| k] eqn:Ek; [| done].
      assert (sid' = sid) as -> by (apply lookup_lt_Some in H; lia || lia).
      injection H as <-. simpl. subst cleanups. split.
      * apply elem_of_app. right. by left.
      * apply Forall_app. split; [| by repeat constructor].
        apply Forall_forall. intros c Hc.
        apply list_elem_of_In, in_map_iff in Hc as (l & <- & _). done.
Qed.

Lemma step_RegInv (w : World) (a : Action) : RegInv w -> RegInv (step w a).
Proof.
  intros Hinv. destruct a as [d recs | | ty target | | m | sid | cb | cb]; simpl.
  - unfold domChange. simpl. by destruct (sharedObserver w).
  - destruct (notify_view w) as (Hl & _). eapply RegInv_ext; [| apply notify_static | done].
    by rewrite Hl.
  - destruct (dispatchEvent_view ty target w) as [Hv _].
    apply moduleView_fields in Hv as (_ & _ & _ & _ & _ & _ & Hl).
    eapply RegInv_ext; [| apply dispatchEvent_static | done]. by rewrite Hl.
  - pose proof (runFrame_view w) as Hv.
    apply moduleView_fields in Hv as (_ & _ & _ & _ & _ & _ & Hl).
    eapply RegInv_ext; [| apply runFrame_static | done]. by rewrite Hl.
  - by apply observe_RegInv.
  - eapply RegInv_ext; [| apply cancel_static | done].
    destruct (sessions w !! sid) as [s |] eqn:Hs.
    2: { unfold cancel. by rewrite Hs. }
    destruct (cancel_fields sid w s Hs) as (_ & _ & _ & _ & _ & _ & _ & _ & -> & _).
    intros l Hl. by apply list_elem_of_In, filter_In in Hl as [Hl%list_elem_of_In _].
  - unfold on, ensureObserver. by destruct (sharedObserver w).
  - done.
Qed.

Lemma reachable_RegInv (w : World) : reachable w -> RegInv w.
Proof.
  apply reachable_invariant.
  - intros d. split; simpl.
    + intros l Hl. by apply elem_of_nil in Hl.
    + intros sid mc H. unfold sessionStatic in H. simpl in H. by rewrite lookup_nil in H.
  - intros x a _. apply step_RegInv.
Qed.

(** ** A cancelled session stays silent *)

Lemma scheduleCallback_silent (sid sid' : nat) (w0 w : World) :
  sid' <> sid -> silent sid w0 w -> silent sid w0 (scheduleCallback sid' w).
Proof.
  intros Hne (Hlt & Hfc & Hc).
  destruct (scheduleCallback_frames sid' w) as [Hlen Hf].
  destruct (scheduleCallback_view sid' w) as [_ Ht].
  split; [| split]; rewrite ?Hlen, ?Ht; try done.
  intros f H. apply Hf in H as [H | H]; [by apply Hfc | congruence].
Qed.

Lemma flush_silent (sid sid' : nat) (w0 w : World) :
  sid' <> sid -> silent sid w0 w -> silent sid w0 (flush sid' w).
Proof.
  intros Hne (Hlt & Hfc & Hc).
  destruct (sessions w !! sid') as [s |] eqn:Hs; [| by rewrite flush_absent].
  destruct (flush_fields sid' w s Hs) as (Es & Ef & _).
  split; [| split]; rewrite ?Es, ?Ef, ?length_insert; try done.
  unfold flush. rewrite Hs.
  destruct (collect _ _ _); simpl; [done |].
  destruct (Nat.eqb_spec sid' sid); done.
Qed.

Lemma invokeSubscriber_silent (sid : nat) (batch : list MutationRecord)
    (w0 w : World) (sub : Subscriber) :
  sub <> MutationHandler sid -> silent sid w0 w -> silent sid w0 (invokeSubscriber batch w sub).
Proof.
  intros Hne Hs. unfold invokeSubscriber, mutationHandler.
  assert (Hs' : silent sid w0 (logObs (Notified sub batch) w)) by done.
  destruct sub as [sid' | cb]; [| done]. simpl.
  destruct (sessions w !! sid'); [| done].
  destruct (scanMutations _ _ _); try done.
  apply scheduleCallback_silent; [congruence | done].
Qed.

Lemma handleEvent_silent (sid : nat) (target : NodeRef) (w0 w : World) (l : Listener) :
  l_session l <> sid -> silent sid w0 w -> silent sid w0 (handleEvent target w l).
Proof.
  intros Hne Hs. unfold handleEvent. destruct (_ && _); [| done].
  by apply scheduleCallback_silent.
Qed.

Lemma Dead_step (sid : nat) (w : World) (a : Action) :
  Dead sid w ->
  Dead sid (step w a) /\ callsOf sid (trace (step w a)) = callsOf sid (trace w).
Proof.
  intros (Hlt & Hl & Hsub & Hfc).
  assert (Hsil : silent sid w w) by done.
  destruct a as [d recs | | ty target | | m | sid' | cb | cb]; unfold step.
  - unfold domChange. simpl. by destruct (sharedObserver w).
  - destruct (notify_view w) as (El & Ec & _).
    assert (H : silent sid w (notify w)).
    { unfold notify. destruct (recordQueue w) as [| mr batch]; [done |].
      unfold observerCallback.
      apply (callSubscribers_preserves (silent sid w)); [done |].
      intros x sub Hin. apply invokeSubscriber_silent. by intros ->. }
    destruct H as (H1 & H2 & H3). unfold Dead. by rewrite El, Ec.
  - destruct (dispatchEvent_view ty target w) as [Hv _].
    apply moduleView_fields in Hv as (_ & _ & _ & _ & Ec & _ & El).
    assert (H : silent sid w (dispatchEvent ty target w)).
    { unfold dispatchEvent. destruct (bool_decide _); [| done].
      apply (fold_left_preserves_elem (silent sid w)); [done |].
      intros x l Hin. apply handleEvent_silent.
      apply filter_elem in Hin as [Hin _]. by apply Hl. }
    destruct H as (H1 & H2 & H3). unfold Dead. by rewrite El, Ec.
  - pose proof (runFrame_view w) as Hv.
    apply moduleView_fields in Hv as (_ & _ & _ & _ & Ec & _ & El).
    assert (H : silent sid w (runFrame w)).
    { unfold runFrame.
      apply (fold_left_preserves_elem (silent sid w)).
      - split; [done |]. split; [| done]. intros f Hf. by apply elem_of_nil in Hf.
      - intros x f Hin. apply flush_silent. by apply Hfc. }
    destruct H as (H1 & H2 & H3). unfold Dead. by rewrite El, Ec.
  - destruct (observe_fields m w) as (_ & _ & Ht & _ & Ef & _ & El & Ec & Es).
    unfold Dead. rewrite Ht, Ef, El, Ec, Es. repeat split; try done.
    + rewrite length_app. simpl. lia.
    + intros l H. apply elem_of_app in H as [H | H]; [by apply Hl |].
      apply entryListeners_session in H. lia.
    + intros H. apply setAdd_elem in H as [H | H]; [done |].
      injection H as H. lia.
  - destruct (sessions w !! sid') as [s |] eqn:Hs.
    2: { unfold cancel. by rewrite Hs. }
    destruct (cancel_fields sid' w s Hs) as (_ & _ & _ & _ & _ & _ & Ht & Ec & El & Ef & Es).
    unfold Dead. rewrite Ht, Ec, El, Ef, Es. repeat split; try done.
    + destruct (s_pending s) as [[| h] |]; rewrite ?length_insert; done.
    + intros l H. apply filter_elem in H as [H _]. by apply Hl.
    + intros H. by apply filter_elem in H as [H _].
    + intros f H. apply Hfc.
      destruct (s_pending s) as [[| h] |]; try done. by apply filter_elem in H as [H _].
  - unfold on, ensureObserver.
    destruct (sharedObserver w); (repeat split; try done; simpl;
      intros H; by apply setAdd_elem in H as [H | H]).
  - unfold off. repeat split; try done. simpl.
    intros H. by apply filter_elem in H as [H _].
Qed.

Lemma Dead_run (sid : nat) (acts : list Action) (w : World) :
  Dead sid w ->
  Dead sid (run w acts) /\ callsOf sid (trace (run w acts)) = callsOf sid (trace w).
Proof.
  revert w. induction acts as [| a acts IH]; intros w Hd; simpl; [done |].
  destruct (Dead_step sid w a Hd) as [Hd' Hc]. destruct (IH _ Hd') as [Hd'' Hc'].
  split; [done | congruence].
Qed.

Lemma forallb_false_elem {A} (f : A -> bool) (l : list A) (x : A) :
  x ∈ l -> f x = false -> forallb f l = false.
Proof.
  intros Hin Hf. apply not_true_iff_false. intros H.
  rewrite forallb_forall in H. apply list_elem_of_In in Hin. apply H in Hin. congruence.
Qed.

Lemma cancel_Dead (sid : nat) (w : World) (s : Session) :
  FrameInv w -> RegInv w -> sessions w !! sid = Some s -> Dead sid (cancel sid w).
Proof.
  intros HF (R1 & R3) Hs.
  assert (Hst : sessionStatic w !! sid = Some (s_manifest s, s_cleanups s)).
  { by rewrite sessionStatic_lookup, Hs. }
  pose proof (cancel_FrameInv sid w HF) as (F1' & _ & _).
  destruct HF as (F1 & _ & _). destruct (F1 sid s Hs) as [Hnz _].
  destruct (cancel_fields sid w s Hs) as (_ & _ & _ & _ & _ & _ & _ & Ec & El & Ef & Es).
  assert (Hnew : exists s', sessions (cancel sid w) !! sid = Some s' /\ s_pending s' = None).
  { rewrite Es. destruct (s_pending s) as [[| h] |] eqn:Hp; [done | | by exists s].
    exists (setPending None s). split; [| done].
    apply list_lookup_insert_eq. by eapply lookup_lt_Some. }
  destruct Hnew as (s' & Hs' & Hp').
  split; [| split; [| split]].
  - by eapply lookup_lt_Some.
  - rewrite El. intros l H Hsid. apply filter_elem in H as [H Hkeep].
    destruct (R1 l H) as (mc & Hmc & Hin). rewrite Hsid, Hst in Hmc. injection Hmc as <-.
    simpl in Hin. rewrite (forallb_false_elem _ _ _ Hin) in Hkeep; [done |].
    simpl. by rewrite String.eqb_refl, !Nat.eqb_refl.
  - rewrite Ec. intros H. apply filter_elem in H as [H Hkeep].
    destruct (R3 sid _ Hst) as [Hin _]. simpl in Hin.
    rewrite (forallb_false_elem _ _ _ Hin) in Hkeep; [done |].
    simpl. by rewrite bool_decide_eq_true_2.
  - intros f Hf Hsid. destruct (F1' sid s' Hs') as [_ Hent]. rewrite Hp' in Hent.
    assert (H : f ∈ entriesOf sid (frameCallbacks (cancel sid w))) by (by apply entriesOf_elem).
    rewrite Hent in H. by apply elem_of_nil in H.
Qed.

(** C4: once the cancel function of a session has returned, the session
    has no delegated listener, no subscription to the shared observer and no
    queued frame callback, and whatever happens afterwards its callback is
    not called again, also when the flush was already scheduled or a
    mutation record was already queued before the cancellation. *)
Theorem cancel_stops_callbacks (w : World) (sid : nat) (acts : list Action) :
  reachable w -> is_Some (sessions w !! sid) ->
  let w' := step w (Cancel sid) in
  (forall l, l ∈ bodyListeners w' -> l_session l <> sid)
  /\ (MutationHandler sid ∉ observerCallbacks w')
  /\ (forall f, f ∈ frameCallbacks w' -> f.2 <> sid)
  /\ callsOf sid (trace (run w' acts)) = callsOf sid (trace w).
Proof.
  intros Hw [s Hs] w'. subst w'. simpl.
  pose proof (cancel_Dead sid w s (reachable_FrameInv w Hw) (reachable_RegInv w Hw) Hs) as Hd.
  destruct (Dead_run sid acts _ Hd) as [_ Hc].
  pose proof Hd as (_ & H1 & H2 & H3). repeat split; try done.
  rewrite Hc.
  by destruct (cancel_fields sid w s Hs) as (_ & _ & _ & _ & _ & _ & -> & _).
Qed.

(** ** Trigger firings *)

Local Abbreviation firesTrigger := (firesTrigger matchesSel body validSelector rawThrows).
Local Abbreviation firingsIn := (firingsIn matchesSel body validSelector rawThrows).

Lemma sessionStatic_inv (w : World) (sid : nat) (m : Manifest) (cs : list Cleanup) :
  sessionStatic w !! sid = Some (m, cs) ->
  exists s, sessions w !! sid = Some s /\ s_manifest s = m /\ s_cleanups s = cs.
Proof.
  rewrite sessionStatic_lookup. destruct (sessions w !! sid) as [s |]; [| done].
  simpl. intros [= <- <-]. by exists s.
Qed.

Lemma handleEvent_keeps_pending (sid : nat) (target : NodeRef) (w : World) (l : Listener) :
  pendingOf sid w = true -> pendingOf sid (handleEvent target w l) = true.
Proof.
  intros H. unfold handleEvent. destruct (_ && _); [| done].
  by apply scheduleCallback_keeps_pending.
Qed.

Lemma invokeSubscriber_keeps_pending (sid : nat) (batch : list MutationRecord)
    (w : World) (sub : Subscriber) :
  pendingOf sid w = true -> pendingOf sid (invokeSubscriber batch w sub) = true.
Proof.
  intros H. unfold invokeSubscriber, mutationHandler.
  destruct sub as [sid' | cb]; [| done]. simpl.
  destruct (sessions w !! sid'); [| done].
  destruct (scanMutations _ _ _); try done.
  by apply (scheduleCallback_keeps_pending sid sid' (logObs _ w)).
Qed.

Lemma callSubscribers_keeps_pending (sid : nat) (batch : list MutationRecord)
    (subs : list Subscriber) (w : World) :
  pendingOf sid w = true -> pendingOf sid (callSubscribers batch subs w) = true.
Proof.
  intros H. apply (callSubscribers_preserves (fun x => pendingOf sid x = true)); [done |].
  intros x sub _. apply invokeSubscriber_keeps_pending.
Qed.

(** When the loop reaches the handler of a session and the handler finds
    the batch relevant, the session has a flush pending afterwards. *)
Lemma callSubscribers_sets_pending (sid : nat) (batch : list MutationRecord)
    (subs : list Subscriber) (w x : World) (s : Session) :
  sessions w !! sid = Some s ->
  scanMutations (doc w) (watchedSelectors (s_manifest s)) batch = Relevant ->
  NoDup subs -> doc x = doc w -> sessionStatic x = sessionStatic w ->
  (forall z, z ∈ subs -> notificationsOf z (trace x) = notificationsOf z (trace w)) ->
  reaches (subscriberThrows batch w) (MutationHandler sid) subs = true ->
  pendingOf sid (callSubscribers batch subs x) = true.
Proof.
  intros Hs Hrel. revert x.
  induction subs as [| y subs IH]; intros x Hnd Hd Hst Hn Hreach; simpl in *; [done |].
  apply NoDup_cons in Hnd as [Hfresh Hnd].
  destruct (invokeSubscriber_same batch x w y (conj Hd Hst)) as [Hd' Hst'].
  pose proof (invokeSubscriber_uncalled batch x w y subs Hfresh Hn) as Hn'.
  rewrite (subscriberThrows_ext batch x w y Hd Hst) by (apply Hn; by left).
  destruct (bool_decide_reflect (y = MutationHandler sid)) as [-> | Hne].
  - assert (Hp : pendingOf sid (invokeSubscriber batch x (MutationHandler sid)) = true).
    { assert (Hst0 : sessionStatic x !! sid = Some (s_manifest s, s_cleanups s))
        by (by rewrite Hst, sessionStatic_lookup, Hs).
      apply sessionStatic_inv in Hst0 as (s' & Hs' & Hm & _).
      unfold invokeSubscriber, mutationHandler.
      cbn [sessions doc logObs]. rewrite Hs', Hm, Hd, Hrel.
      apply (scheduleCallback_sets_pending sid (logObs _ x)).
      cbn [sessions logObs]. by rewrite Hs'. }
    destruct (subscriberThrows batch w (MutationHandler sid)); [done |].
    by apply callSubscribers_keeps_pending.
  - apply andb_true_iff in Hreach as [Hno Hreach]. apply negb_true_iff in Hno.
    rewrite Hno. by apply IH.
Qed.

(** A firing leaves the session with a flush pending. *)
Lemma fires_sets_pending (sid : nat) (w : World) (a : Action) :
  NoDup (observerCallbacks w) -> is_Some (sessions w !! sid) ->
  firesTrigger sid w a = true -> pendingOf sid (step w a) = true.
Proof.
  intros Hnd [s Hs].
  assert (Hst0 : sessionStatic w !! sid = Some (s_manifest s, s_cleanups s)).
  { by rewrite sessionStatic_lookup, Hs. }
  destruct a as [d recs | | ty target | | m | sid' | cb | cb]; try done.
  - unfold firesTrigger, step, notify. rewrite Hs.
    destruct (recordQueue w) as [| mr batch] eqn:Hq; [done |].
    remember (mr :: batch) as q eqn:Eq. clear Eq.
    intros H. apply andb_true_iff in H as [Hreach Hrel].
    unfold observerCallback.
    apply (callSubscribers_sets_pending sid q _ w _ s); try done.
    by destruct (scanMutations (doc w) (watchedSelectors (s_manifest s)) q).
  - simpl. intros H. apply andb_true_iff in H as [Hin Hex].
    apply existsb_exists in Hex as (l0 & Hl0 & Hfire).
    unfold listenerFires in Hfire.
    apply andb_true_iff in Hfire as [Hfire Hmatch].
    apply andb_true_iff in Hfire as [Hfire Hvalid].
    apply andb_true_iff in Hfire as [Hfire Hel].
    apply andb_true_iff in Hfire as [Hsid Hty]. apply Nat.eqb_eq in Hsid.
    unfold dispatchEvent. rewrite Hin.
    apply (fold_sets_pending
             (fun x => doc x = doc w /\ sessionStatic x = sessionStatic w)
             _ sid _ l0); try done.
    + intros x l [Hd Hst]. rewrite handleEvent_static.
      destruct (handleEvent_view target x l) as [Hv _].
      by apply moduleView_fields in Hv as (-> & _).
    + intros x l. apply handleEvent_keeps_pending.
    + intros x [Hd Hst]. unfold handleEvent. rewrite Hd, Hel, Hvalid, Hmatch. simpl.
      rewrite Hsid. apply scheduleCallback_sets_pending.
      rewrite <- Hst in Hst0. apply sessionStatic_inv in Hst0 as (s' & Hs' & _). by exists s'.
    + apply filter_elem. split; [by apply list_elem_of_In | done].
Qed.

(** Every action keeps the sessions there are, with their manifests. *)
Lemma step_static (w : World) (a : Action) :
  exists ext, sessionStatic (step w a) = sessionStatic w ++ ext.
Proof.
  destruct a as [d recs | | ty target | | m | sid' | cb | cb]; unfold step.
  - exists []. rewrite app_nil_r. unfold domChange. simpl. by destruct (sharedObserver w).
  - exists []. by rewrite app_nil_r, notify_static.
  - exists []. by rewrite app_nil_r, dispatchEvent_static.
  - exists []. by rewrite app_nil_r, runFrame_static.
  - destruct (observe_fields m w) as (_ & _ & _ & _ & _ & _ & _ & _ & Hs).
    eexists. unfold sessionStatic. rewrite Hs, List.map_app. done.
  - exists []. by rewrite app_nil_r, cancel_static.
  - exists []. rewrite app_nil_r. unfold on, ensureObserver.
    by destruct (sharedObserver w).
  - exists []. by rewrite app_nil_r.
Qed.

Lemma step_keeps_session (w : World) (a : Action) (sid : nat) (s : Session) :
  sessions w !! sid = Some s ->
  exists s', sessions (step w a) !! sid = Some s' /\ s_manifest s' = s_manifest s.
Proof.
  intros Hs. destruct (step_static w a) as [ext E].
  assert (H : sessionStatic (step w a) !! sid = Some (s_manifest s, s_cleanups s)).
  { rewrite E. rewrite lookup_app_l.
    - by rewrite sessionStatic_lookup, Hs.
    - unfold sessionStatic. rewrite List.length_map. by eapply lookup_lt_Some. }
  apply sessionStatic_inv in H as (s' & Hs' & Hm & _). by exists s'.
Qed.

(** Inside a window a pending flush stays pending. *)
Lemma quiet_keeps_pending (sid : nat) (w : World) (a : Action) :
  quietFor sid a -> pendingOf sid w = true -> pendingOf sid (step w a) = true.
Proof.
  intros Hq Hp.
  destruct a as [d recs | | ty target | | m | sid' | cb | cb]; unfold step.
  - unfold domChange. simpl. by destruct (sharedObserver w).
  - unfold notify. destruct (recordQueue w) as [| mr batch]; [done |].
    unfold observerCallback.
    apply (callSubscribers_preserves (fun x => pendingOf sid x = true)); [done |].
    intros x sub _. apply invokeSubscriber_keeps_pending.
  - unfold dispatchEvent. destruct (bool_decide _); [| done].
    apply (fold_left_preserves (fun x => pendingOf sid x = true)); [done |].
    intros x l. apply handleEvent_keeps_pending.
  - done.
  - destruct (observe_fields m w) as (_ & _ & _ & _ & _ & _ & _ & _ & Hs).
    unfold pendingOf in *. rewrite Hs.
    destruct (sessions w !! sid) as [s |] eqn:E; [| done].
    rewrite lookup_app_l; [by rewrite E | by eapply lookup_lt_Some].
  - simpl in Hq. destruct (sessions w !! sid') as [s |] eqn:Hs.
    2: { unfold cancel. by rewrite Hs. }
    destruct (cancel_fields sid' w s Hs) as (_ & _ & _ & _ & _ & _ & _ & _ & _ & _ & Es).
    unfold pendingOf in *. rewrite Es.
    destruct (s_pending s) as [[| h] |]; try done. by rewrite list_lookup_insert_ne.
  - unfold on, ensureObserver. by destruct (sharedObserver w).
  - done.
Qed.

(** Only a frame calls a session's callback. *)
Lemma quiet_calls (sid : nat) (w : World) (a : Action) :
  a <> Frame -> callsOf sid (trace (step w a)) = callsOf sid (trace w).
Proof.
  intros Hq.
  destruct a as [d recs | | ty target | | m | sid' | cb | cb]; unfold step.
  - unfold domChange. simpl. by destruct (sharedObserver w).
  - unfold notify. destruct (recordQueue w) as [| mr batch]; [done |].
    unfold observerCallback.
    apply (callSubscribers_preserves
             (fun x => callsOf sid (trace x) = callsOf sid (trace w))); [done |].
    intros x sub _ <-. by destruct (invokeSubscriber_view (mr :: batch) x sub) as [_ ->].
  - by destruct (dispatchEvent_view ty target w) as [_ ->].
  - done.
  - by destruct (observe_fields m w) as (_ & _ & -> & _).
  - destruct (sessions w !! sid') as [s |] eqn:Hs.
    2: { unfold cancel. by rewrite Hs. }
    by destruct (cancel_fields sid' w s Hs) as (_ & _ & _ & _ & _ & _ & -> & _).
  - unfold on, ensureObserver. by destruct (sharedObserver w).
  - done.
Qed.

(** A frame calls the callback of a session once for each callback the
    session has queued, with the snapshot of the document. *)
Lemma frame_fold_calls (sid : nat) (m : Manifest) (snap : gmap string Value)
    (todo : list (nat * nat)) (w : World) :
  (exists s, sessions w !! sid = Some s /\ s_manifest s = m) ->
  collect matchesSel m (doc w) = inr snap ->
  callsOf sid (trace (fold_left (fun x f => flush f.2 x) todo w))
  = repeat snap (List.length (entriesOf sid todo)) ++ callsOf sid (trace w).
Proof.
  revert w. induction todo as [| f todo IH]; intros w (s & Hs & Hm) Hc; simpl; [done |].
  change (entriesOf sid (f :: todo))
    with (if Nat.eqb f.2 sid then f :: entriesOf sid todo else entriesOf sid todo).
  destruct (Nat.eqb_spec f.2 sid) as [E | Hne].
  - rewrite E. destruct (flush_fields sid w s Hs) as (Es & _ & _ & Ed).
    rewrite IH.
    + simpl. rewrite <- repeat_app_cons. f_equal.
      unfold flush. rewrite Hs, Hm. simpl. rewrite Hc. simpl.
      by rewrite Nat.eqb_refl.
    + exists (setPending None s). split; [| done]. rewrite Es.
      apply list_lookup_insert_eq. by eapply lookup_lt_Some.
    + by rewrite Ed.
  - destruct (sessions w !! f.2) as [s0 |] eqn:Hs0.
    + destruct (flush_fields f.2 w s0 Hs0) as (Es & _ & _ & Ed).
      rewrite IH.
      * f_equal. unfold flush. rewrite Hs0.
        destruct (collect matchesSel (s_manifest s0) (doc _)); simpl; [done |].
        by destruct (Nat.eqb_spec f.2 sid).
      * exists s. split; [| done]. rewrite Es. by rewrite list_lookup_insert_ne.
      * by rewrite Ed.
    + rewrite flush_absent by done. apply IH; [by exists s | done].
Qed.

Lemma frame_calls (sid : nat) (w : World) (s : Session) (snap : gmap string Value) :
  FrameInv w -> sessions w !! sid = Some s -> truthyHandle (s_pending s) = true ->
  collect matchesSel (s_manifest s) (doc w) = inr snap ->
  callsOf sid (trace (runFrame w)) = snap :: callsOf sid (trace w).
Proof.
  intros (F1 & _ & _) Hs Hp Hc. unfold runFrame.
  rewrite (frame_fold_calls sid (s_manifest s) snap); [| by exists s | done].
  destruct (F1 sid s Hs) as [_ ->]. by destruct (s_pending s).
Qed.

(** A window: pending or not at its start, a session that fired inside it
    has a flush pending at its end, and its callback was not called. *)
Lemma window_pending (sid : nat) (window : list Action) (w : World) (s : Session) :
  reachable w -> sessions w !! sid = Some s ->
  Forall (quietFor sid) window ->
  pendingOf sid w = true \/ 1 <= firingsIn sid w window ->
  exists s', sessions (run w window) !! sid = Some s'
             /\ s_manifest s' = s_manifest s
             /\ truthyHandle (s_pending s') = true.
Proof.
  revert w s. induction window as [| a window IH]; intros w s Hw Hs Hq Hfire; simpl.
  - destruct Hfire as [Hp | Hf]; [| simpl in Hf; lia].
    exists s. unfold pendingOf in Hp. by rewrite Hs in Hp.
  - apply Forall_cons in Hq as [Hqa Hq].
    destruct (reachable_ObserverInv w Hw) as (_ & Hnd & _).
    destruct (step_keeps_session w a sid s Hs) as (s1 & Hs1 & Hm1).
    destruct (IH (step w a) s1 (reachable_step w a Hw) Hs1 Hq) as (s' & Hs' & Hm' & Hp').
    + destruct Hfire as [Hp | Hf]; [left; by apply quiet_keeps_pending |].
      simpl in Hf. destruct (firesTrigger sid w a) eqn:Ef.
      * left. by apply fires_sets_pending.
      * right. simpl in Hf. lia.
    + exists s'. repeat split; [done | congruence | done].
Qed.

Lemma window_calls (sid : nat) (window : list Action) (w : World) :
  Forall (quietFor sid) window ->
  callsOf sid (trace (run w window)) = callsOf sid (trace w).
Proof.
  revert w. induction window as [| a window IH]; intros w Hq; simpl; [done |].
  apply Forall_cons in Hq as [Hqa Hq]. rewrite (IH _ Hq).
  apply quiet_calls. by intros ->.
Qed.

Lemma flush_trace_grows (sid : nat) (w : World) (o : Obs) :
  o ∈ trace w -> o ∈ trace (flush sid w).
Proof.
  intros H. unfold flush. destruct (sessions w !! sid); [| done].
  destruct (collect _ _ _); simpl; by right.
Qed.

(** A frame whose snapshot read throws calls nothing for the session, and
    lets the error through. *)
Lemma frame_fold_faults (sid : nat) (m : Manifest) (err : Error)
    (todo : list (nat * nat)) (w : World) :
  (exists s, sessions w !! sid = Some s /\ s_manifest s = m) ->
  collect matchesSel m (doc w) = inl err ->
  let w' := fold_left (fun x f => flush f.2 x) todo w in
  callsOf sid (trace w') = callsOf sid (trace w)
  /\ ((exists f, f ∈ todo /\ f.2 = sid) \/ Faulted sid err ∈ trace w ->
      Faulted sid err ∈ trace w').
Proof.
  revert w. induction todo as [| f todo IH]; intros w (s & Hs & Hm) Hc; simpl.
  - split; [done |]. intros [(f & Hf & _) | H]; [by apply elem_of_nil in Hf | done].
  - destruct (Nat.eqb_spec f.2 sid) as [E | Hne].
    + rewrite E. destruct (flush_fields sid w s Hs) as (Es & _ & _ & Ed).
      assert (Hfl : trace (flush sid w) = Faulted sid err :: trace w).
      { unfold flush. rewrite Hs, Hm. simpl. by rewrite Hc. }
      destruct (IH (flush sid w)) as [H1 H2].
      * exists (setPending None s). split; [| done]. rewrite Es.
        apply list_lookup_insert_eq. by eapply lookup_lt_Some.
      * by rewrite Ed.
      * split; [by rewrite H1, Hfl |]. intros _. apply H2. right. rewrite Hfl. by left.
    + assert (Hkeep : (exists s', sessions (flush f.2 w) !! sid = Some s' /\ s_manifest s' = m)
                      /\ doc (flush f.2 w) = doc w
                      /\ callsOf sid (trace (flush f.2 w)) = callsOf sid (trace w)).
      { destruct (sessions w !! f.2) as [s0 |] eqn:Hs0.
        - destruct (flush_fields f.2 w s0 Hs0) as (Es & _ & _ & Ed).
          split; [| split; [done |]].
          + exists s. split; [| done]. rewrite Es. by rewrite list_lookup_insert_ne.
          + unfold flush. rewrite Hs0.
            destruct (collect matchesSel (s_manifest s0) (doc _)); simpl; [done |].
            by destruct (Nat.eqb_spec f.2 sid).
        - rewrite flush_absent by done. split; [by exists s | done]. }
      destruct Hkeep as (Hex & Ed & Hcalls).
      destruct (IH (flush f.2 w) Hex) as [H1 H2]; [by rewrite Ed |].
      split; [by rewrite H1 |].
      intros [(f' & Hf' & Hsid) | H]; apply H2.
      * left. exists f'. split; [| done].
        apply elem_of_cons in Hf' as [-> | Hf']; [done | done].
      * right. by apply flush_trace_grows.
Qed.

Lemma frame_faults (sid : nat) (w : World) (s : Session) (err : Error) :
  FrameInv w -> sessions w !! sid = Some s -> truthyHandle (s_pending s) = true ->
  collect matchesSel (s_manifest s) (doc w) = inl err ->
  callsOf sid (trace (runFrame w)) = callsOf sid (trace w)
  /\ Faulted sid err ∈ trace (runFrame w).
Proof.
  intros (F1 & _ & _) Hs Hp Hc. unfold runFrame.
  destruct (frame_fold_faults sid (s_manifest s) err (frameCallbacks w)
              (withFrames [] (frameId w) w)) as [H1 H2]; [by exists s | done |].
  split; [done |]. apply H2. left.
  destruct (F1 sid s Hs) as [_ Hent].
  destruct (s_pending s) as [h |]; [| done]. exists (h, sid). split; [| done].
  assert (H : (h, sid) ∈ entriesOf sid (frameCallbacks w)) by (rewrite Hent; by left).
  by apply entriesOf_elem in H as [H _].
Qed.

(** A window with a firing, and the frame that ends it. *)
Lemma window_flush (sid : nat) (window : list Action) (w : World) (s : Session) :
  reachable w -> sessions w !! sid = Some s ->
  Forall (quietFor sid) window -> 1 <= firingsIn sid w window ->
  callsOf sid (trace (run w window)) = callsOf sid (trace w)
  /\ (forall snap,
        collect matchesSel (s_manifest s) (doc (run w window)) = inr snap ->
        callsOf sid (trace (step (run w window) Frame)) = snap :: callsOf sid (trace w))
  /\ (forall err,
        collect matchesSel (s_manifest s) (doc (run w window)) = inl err ->
        callsOf sid (trace (step (run w window) Frame)) = callsOf sid (trace w)
        /\ Faulted sid err ∈ trace (step (run w window) Frame)).
Proof.
  intros Hw Hs Hq Hf.
  pose proof (window_calls sid window w Hq) as Hcalls. split; [done |].
  destruct (window_pending sid window w s Hw Hs Hq (or_intror Hf)) as (s' & Hs' & Hm' & Hp').
  assert (HF : FrameInv (run w window)) by (by apply reachable_FrameInv, reachable_run).
  split.
  - intros snap Hc. simpl. rewrite <- Hcalls.
    apply (frame_calls sid _ s'); try done. by rewrite Hm'.
  - intros err Hc. simpl. rewrite <- Hcalls.
    apply (frame_faults sid _ s'); try done. by rewrite Hm'.
Qed.

(** C3, as amended: in a session that is not cancelled meanwhile, one or
    more trigger firings before the next frame boundary lead to exactly one
    call of the callback, made by that frame with one full snapshot read at
    flush time, provided reading the snapshot succeeds: the selectors
    [collect] queries are valid and its read directives resolve.  Nothing is
    delivered before the frame.  When [collect] throws at flush time, the
    frame calls nothing for the session and the error reaches the host. *)
Theorem flush_once_per_window (sid : nat) (window : list Action) (w : World) (s : Session) :
  reachable w -> sessions w !! sid = Some s ->
  Forall (quietFor sid) window -> 1 <= firingsIn sid w window ->
  callsOf sid (trace (run w window)) = callsOf sid (trace w)
  /\ (forall snap,
        queriesValid validSelector (s_manifest s) = true ->
        collect matchesSel (s_manifest s) (doc (run w window)) = inr snap ->
        callsOf sid (trace (step (run w window) Frame)) = snap :: callsOf sid (trace w))
  /\ (forall err,
        collect matchesSel (s_manifest s) (doc (run w window)) = inl err ->
        callsOf sid (trace (step (run w window) Frame)) = callsOf sid (trace w)
        /\ Faulted sid err ∈ trace (step (run w window) Frame)).
Proof.
  intros Hw Hs Hq Hf.
  destruct (window_flush sid window w s Hw Hs Hq Hf) as (H1 & H2 & H3).
  split; [done |]. split; [| done]. intros snap _. apply H2.
Qed.

(** ** Cancelling one session leaves the others as they are *)





End Observation.

Lemma busyWorld_reachable : reachable simpleMatches bodyRef simpleValid quietCallbacks busyWorld.
Proof. by eexists page, _. Qed.

(** C6 at a world with two sessions and a raw subscriber, none of which
    throws: the raw subscriber is called once with the queued batch. *)
Lemma single_shared_observer_witness :
  reachable simpleMatches bodyRef simpleValid quietCallbacks busyWorld
  /\ observersCreated busyWorld <= 1
  /\ observerCallbacks busyWorld = [MutationHandler 0; MutationHandler 1; RawCallback 7]
  /\ recordQueue busyWorld = [mkRecord Attributes bodyRef]
  /\ notificationsOf (RawCallback 7)
       (trace (step simpleMatches bodyRef simpleValid quietCallbacks busyWorld Notify))
     = [[mkRecord Attributes bodyRef]].
Proof.
  pose proof (single_shared_observer simpleMatches bodyRef simpleValid quietCallbacks
                busyWorld busyWorld_reachable) as (H1 & _ & H3).
  assert (E : observerCallbacks busyWorld
              = [MutationHandler 0; MutationHandler 1; RawCallback 7]) by reflexivity.
  assert (Hin : RawCallback 7 ∈ observerCallbacks busyWorld).
  { rewrite E. right. right. left. }
  assert (Hq : recordQueue busyWorld <> []) by discriminate.
  split; [exact busyWorld_reachable |]. split; [exact H1 |]. split; [exact E |].
  split; [reflexivity |].
  refine (proj2 (H3 (RawCallback 7) Hin Hq) _).
  intros x Hx. rewrite E in Hx.
  repeat (apply elem_of_cons in Hx as [-> | Hx]; [vm_compute; reflexivity |]).
  by apply elem_of_nil in Hx.
Defined.

(** C6 as stated fails: the raw callback 7 is registered and a batch is
    queued, but the mutation handler subscribed before it tests the empty
    selector of its manifest and throws, which ends the loop over the
    subscribers: the raw callback is not called for this batch.  Likewise a
    raw callback that throws keeps the batch from the raw callback
    subscribed after it. *)
Lemma single_shared_observer_counterexample :
  observerCallbacks
    (step simpleMatches bodyRef simpleValid quietCallbacks emptySelectorWorld
       (DomChange page [mkRecord Attributes bodyRef]))
  = [MutationHandler 0; RawCallback 7]
  /\ recordQueue
       (step simpleMatches bodyRef simpleValid quietCallbacks emptySelectorWorld
          (DomChange page [mkRecord Attributes bodyRef]))
     = [mkRecord Attributes bodyRef]
  /\ simpleValid "" = false
  /\ mutationHandlerThrows simpleMatches simpleValid 0 [mkRecord Attributes bodyRef]
       emptySelectorWorld = true
  /\ notificationsOf (RawCallback 7)
       (trace (run simpleMatches bodyRef simpleValid quietCallbacks emptySelectorWorld
                 [DomChange page [mkRecord Attributes bodyRef]; Notify]))
     = []
  /\ notificationsOf (MutationHandler 0)
       (trace (run simpleMatches bodyRef simpleValid quietCallbacks emptySelectorWorld
                 [DomChange page [mkRecord Attributes bodyRef]; Notify]))
     = [[mkRecord Attributes bodyRef]]
  /\ observerCallbacks
       (run simpleMatches bodyRef simpleValid sevenThrows (initial page)
          [On 7; On 8; DomChange page [mkRecord Attributes bodyRef]])
     = [RawCallback 7; RawCallback 8]
  /\ notificationsOf (RawCallback 7)
       (trace (run simpleMatches bodyRef simpleValid sevenThrows (initial page)
                 [On 7; On 8; DomChange page [mkRecord Attributes bodyRef]; Notify]))
     = [[mkRecord Attributes bodyRef]]
  /\ notificationsOf (RawCallback 8)
       (trace (run simpleMatches bodyRef simpleValid sevenThrows (initial page)
                 [On 7; On 8; DomChange page [mkRecord Attributes bodyRef]; Notify]))
     = [].
Proof. repeat split; vm_compute; reflexivity. Qed.

Lemma observer_delivers_body_targets_only_witness :
  reachable simpleMatches bodyRef simpleValid quietCallbacks busyWorld
  /\ recordQueue busyWorld = [mkRecord Attributes bodyRef]
  /\ step simpleMatches bodyRef simpleValid quietCallbacks busyWorld
       (DomChange pageTyped [mkRecord Attributes [1; 1]])
     = withDoc pageTyped busyWorld.
Proof.
  split; [exact busyWorld_reachable |]. split; [reflexivity |].
  apply (observer_delivers_body_targets_only simpleMatches bodyRef simpleValid quietCallbacks
           busyWorld busyWorld_reachable).
  intros mr Hmr. apply list_elem_of_singleton in Hmr. by subst.
Defined.




(** C1 fails on the code: the manifest reads through a custom function
    only and has no watch override, no listener is registered for it, and
    still an attribute change on the matched element reaches the callback,
    because [mutationHandler] watches every selector for which
    [getWatchEvent] returns null. *)
Theorem custom_read_mutation_reaches_callback :
  customOnly customManifest = true
  /\ entryListeners 0 0 customManifest = []
  /\ watchedSelectors customManifest = [Some "body"]
  /\ callsOf 0
       (trace (run simpleMatches bodyRef simpleValid quietCallbacks (initial page)
                 [Observe customManifest; DomChange page [mkRecord Attributes bodyRef];
                  Notify; Frame]))
     = [customSnapshot].
Proof. repeat split; vm_compute; reflexivity. Qed.

Lemma valueWorld_reachable :
  reachable simpleMatches bodyRef simpleValid quietCallbacks valueWorld.
Proof. by eexists page, _. Qed.

Lemma bogusWorld_reachable :
  reachable simpleMatches bodyRef simpleValid quietCallbacks bogusWorld.
Proof. by eexists page, _. Qed.

(** C3 at the page: both inputs are typed into within one frame and the
    frame calls the callback once, with both new values; on the manifest
    with the unsupported directive the frame calls nothing. *)
Lemma flush_once_per_window_witness :
  reachable simpleMatches bodyRef simpleValid quietCallbacks valueWorld
  /\ sessions valueWorld !! 0 = Some valueSession
  /\ firingsIn simpleMatches bodyRef simpleValid quietCallbacks 0 valueWorld typingWindow = 2
  /\ callsOf 0 (trace (run simpleMatches bodyRef simpleValid quietCallbacks
                         valueWorld typingWindow)) = []
  /\ callsOf 0
       (trace (step simpleMatches bodyRef simpleValid quietCallbacks
                 (run simpleMatches bodyRef simpleValid quietCallbacks valueWorld typingWindow)
                 Frame))
     = [typedSnapshot]
  /\ callsOf 0
       (trace (step simpleMatches bodyRef simpleValid quietCallbacks
                 (run simpleMatches bodyRef simpleValid quietCallbacks bogusWorld typingWindow)
                 Frame))
     = []
  /\ Faulted 0 (UnknownReadShortcut "bogus")
     ∈ trace (step simpleMatches bodyRef simpleValid quietCallbacks
                (run simpleMatches bodyRef simpleValid quietCallbacks bogusWorld typingWindow)
                Frame).
Proof.
  assert (Hq : Forall (quietFor 0) typingWindow) by (repeat constructor).
  assert (Hf : 1 <= firingsIn simpleMatches bodyRef simpleValid quietCallbacks 0
                      valueWorld typingWindow) by (vm_compute; lia).
  assert (Hf' : 1 <= firingsIn simpleMatches bodyRef simpleValid quietCallbacks 0
                       bogusWorld typingWindow) by (vm_compute; lia).
  destruct (flush_once_per_window simpleMatches bodyRef simpleValid quietCallbacks 0
              typingWindow valueWorld valueSession valueWorld_reachable eq_refl Hq Hf)
    as (H1 & H2 & _).
  destruct (flush_once_per_window simpleMatches bodyRef simpleValid quietCallbacks 0
              typingWindow bogusWorld bogusSession bogusWorld_reachable eq_refl Hq Hf')
    as (_ & _ & H3).
  split; [exact valueWorld_reachable |]. split; [reflexivity |].
  split; [vm_compute; reflexivity |]. split; [exact H1 |].
  split; [| apply (H3 (UnknownReadShortcut "bogus")); vm_compute; reflexivity].
  apply (H2 typedSnapshot); vm_compute; reflexivity.
Defined.

(** C3 as stated fails: one trigger of the session fires inside the
    window, and the frame does not call the callback, because reading the
    snapshot throws on the unsupported directive of entry [b]. *)
Lemma flush_once_per_window_counterexample :
  is_Some (sessions bogusWorld !! 0)
  /\ firingsIn simpleMatches bodyRef simpleValid quietCallbacks 0 bogusWorld typingWindow = 1
  /\ trace (step simpleMatches bodyRef simpleValid quietCallbacks
              (run simpleMatches bodyRef simpleValid quietCallbacks bogusWorld typingWindow)
              Frame)
     = [Faulted 0 (UnknownReadShortcut "bogus")]
  /\ callsOf 0
       (trace (step simpleMatches bodyRef simpleValid quietCallbacks
                 (run simpleMatches bodyRef simpleValid quietCallbacks bogusWorld typingWindow)
                 Frame))
     = [].
Proof. repeat split; try (vm_compute; reflexivity). by eexists. Qed.

Lemma inFlightWorld_reachable :
  reachable simpleMatches bodyRef simpleValid quietCallbacks inFlightWorld.
Proof. by eexists page, _. Qed.

Lemma cancel_stops_callbacks_witness :
  reachable simpleMatches bodyRef simpleValid quietCallbacks inFlightWorld
  /\ is_Some (sessions inFlightWorld !! 0)
  /\ pendingOf 0 inFlightWorld = true
  /\ recordQueue inFlightWorld = [mkRecord Attributes bodyRef]
  /\ callsOf 0
       (trace (run simpleMatches bodyRef simpleValid quietCallbacks
                 (step simpleMatches bodyRef simpleValid quietCallbacks inFlightWorld (Cancel 0))
                 [Notify; Dispatch "input" [2; 1]; Frame]))
     = [].
Proof.
  assert (Hs : is_Some (sessions inFlightWorld !! 0)) by (by eexists).
  split; [exact inFlightWorld_reachable |]. split; [exact Hs |].
  split; [reflexivity |]. split; [reflexivity |].
  exact (proj2 (proj2 (proj2
           (cancel_stops_callbacks simpleMatches bodyRef simpleValid quietCallbacks
              inFlightWorld 0
              [Notify; Dispatch "input" [2; 1]; Frame] inFlightWorld_reachable Hs)))).
Defined.

Lemma twoSessions_reachable :
  reachable simpleMatches bodyRef simpleValid quietCallbacks twoSessions.
Proof. by eexists page, _. Qed.




(** * More of the module *)

(** ** collect: one match, and the labels of a snapshot *)

Section SnapshotLabels.

Variable matchesSel : Document -> NodeRef -> string -> bool.

Local Abbreviation querySelectorAll := (querySelectorAll matchesSel).
Local Abbreviation collectInto := (collectInto matchesSel).
Local Abbreviation collect := (collect matchesSel).

(** A selector matching exactly one element yields that element's value
    itself, not an array of one value. *)
Theorem collect_single_match (m : Manifest) (d : Document) (st : gmap string Value)
    (label : string) (config : Entry) (rd : ReadSpec) (el : NodeRef * Node) :
  NoDup m.*1 ->
  (label, config) ∈ m -> label <> "__proto__" ->
  truthyStr (selector config) = true ->
  read config = Some rd -> truthyRead (Some rd) = true ->
  collect m d = inr st ->
  querySelectorAll d (selArg (selector config)) = [el] ->
  exists extractor, parseRead rd = inr extractor /\ st !! label = Some (extractor el.2).
Proof.
  intros Hnd Hin Hproto Hsel Hrd Htr Hc Hel.
  destruct (collectInto_entry matchesSel m d ∅ st label config rd
              Hnd Hin Hproto Hsel Hrd Htr Hc) as (ex & Hp & Hl).
  exists ex. split; [done |]. by rewrite Hl, Hel.
Qed.

Lemma setProperty_is_Some (l label : string) (v : Value) (st : gmap string Value) :
  is_Some (setProperty l v st !! label)
  <-> is_Some (st !! label) \/ (l = label /\ label <> "__proto__").
Proof.
  unfold setProperty. destruct (String.eqb_spec l "__proto__") as [-> | Hne].
  - split; [by left |]. intros [? | [<- ?]]; done.
  - destruct (decide (l = label)) as [-> | Hne'].
    + rewrite lookup_insert_eq. split; [by right | by eauto].
    + rewrite lookup_insert_ne by done. split; [by left |]. intros [? | [? ?]]; done.
Qed.

Lemma collectInto_labels (m : Manifest) (d : Document) (st0 st : gmap string Value)
    (label : string) :
  collectInto st0 m d = inr st ->
  is_Some (st !! label)
  <-> is_Some (st0 !! label)
      \/ (label <> "__proto__"
          /\ exists config, (label, config) ∈ m
                            /\ truthyStr (selector config) = true
                            /\ truthyRead (read config) = true).
Proof.
  revert st0. induction m as [| [l c] m IH]; intros st0; simpl.
  - intros [= <-]. split; [by left |]. intros [H | (_ & c & Hc & _)]; [done |].
    by apply elem_of_nil in Hc.
  - assert (Hskip : truthyStr (selector c) && truthyRead (read c) = false ->
              forall st1, collectInto st1 m d = inr st ->
              is_Some (st !! label)
              <-> is_Some (st1 !! label)
                  \/ (label <> "__proto__"
                      /\ exists config, (label, config) ∈ (l, c) :: m
                                        /\ truthyStr (selector config) = true
                                        /\ truthyRead (read config) = true)).
    { intros Hoff st1 H. rewrite (IH _ H). split.
      - intros [? | (Hp & c' & Hc' & H')]; [by left | right].
        split; [done |]. exists c'. split; [by right | done].
      - intros [? | (Hp & c' & Hc' & Hs' & Hr')]; [by left | right].
        apply elem_of_cons in Hc' as [[= -> ->] | Hc'].
        + rewrite Hs', Hr' in Hoff. done.
        + split; [done |]. by exists c'. }
    destruct (truthyStr (selector c)) eqn:Hsel; simpl; [| by apply Hskip].
    destruct (truthyRead (read c)) eqn:Htr; simpl; [| by apply Hskip].
    destruct (read c) as [rd |] eqn:Hrd; [| done].
    destruct (parseRead rd) as [err | ex]; [done |].
    intros H. rewrite (IH _ H), setProperty_is_Some. split.
    + intros [[Hl | [-> Hp]] | (Hp & c' & Hc' & H')].
      * by left.
      * right. split; [done |]. exists c. split; [by left |]. by rewrite Hsel, Hrd.
      * right. split; [done |]. exists c'. split; [by right | done].
    + intros [Hl | (Hp & c' & Hc' & Hs' & Hr')].
      * left. by left.
      * apply elem_of_cons in Hc' as [[= -> ->] | Hc'].
        -- left. right. done.
        -- right. split; [done |]. by exists c'.
Qed.

Lemma collectInto_labels_empty (m : Manifest) (d : Document) (st : gmap string Value)
    (label : string) :
  collectInto ∅ m d = inr st ->
  is_Some (st !! label)
  <-> label <> "__proto__"
      /\ exists config, (label, config) ∈ m
                        /\ truthyStr (selector config) = true
                        /\ truthyRead (read config) = true.
Proof.
  intros H. rewrite (collectInto_labels m d ∅ st label H).
  split; [| by right]. intros [[v Hv] | ?]; [| done]. by rewrite lookup_empty in Hv.
Qed.

(** The keys of a snapshot are the labels, other than "__proto__", of the
    entries that have both a selector and a read directive; a write-only
    entry, or one without selector, contributes no key. *)
Theorem collect_labels (m : Manifest) (d : Document) (st : gmap string Value)
    (label : string) :
  collect m d = inr st ->
  is_Some (st !! label)
  <-> label <> "__proto__"
      /\ exists config, (label, config) ∈ m
                        /\ truthyStr (selector config) = true
                        /\ truthyRead (read config) = true.
Proof. apply collectInto_labels_empty. Qed.

End SnapshotLabels.

(** ** parseWrite and apply *)

Section ApplyProperties.

Variable matchesSel : Document -> NodeRef -> string -> bool.
Variable host : Setters.
Variable inherited : string -> option Value.

Local Abbreviation parseWrite := (parseWrite host).
Local Abbreviation getProperty := (getProperty inherited).
Local Abbreviation apply := (apply matchesSel host inherited).
Local Abbreviation activeWrite := (activeWrite inherited).

Lemma parseWrite_error_iff (s : string) :
  parseWrite (WStr s) = inl (UnknownWriteShortcut s) <-> supportedRead s = false.
Proof.
  unfold parseWrite, supportedRead.
  destruct (String.eqb s "value"); [done |].
  destruct (String.eqb s "checked"); [done |].
  destruct (String.eqb s "text"); [done |].
  destruct (String.prefix "attr:" s); [done |].
  by destruct (String.prefix "data:" s).
Qed.

Lemma parseWrite_error (wr : WriteSpec) (err : WriteError) :
  parseWrite wr = inl err ->
  exists s, wr = WStr s /\ err = UnknownWriteShortcut s /\ supportedRead s = false.
Proof.
  destruct wr as [f | s]; [done |]. intros H.
  destruct (supportedRead s) eqn:Hs.
  - exfalso. revert H Hs. unfold parseWrite, supportedRead.
    destruct (String.eqb s "value"); [done |].
    destruct (String.eqb s "checked"); [done |].
    destruct (String.eqb s "text"); [done |].
    destruct (String.prefix "attr:" s); [done |].
    by destruct (String.prefix "data:" s).
  - pose proof (proj2 (parseWrite_error_iff s) Hs) as Hp. rewrite Hp in H.
    injection H as <-. by exists s.
Qed.

(** [parseRead] and [parseWrite] know the same shortcuts: a string either
    resolves as both a read and a write directive, or is rejected by both. *)
Theorem read_write_shortcuts_agree (s : string) :
  (exists err, parseRead (RStr s) = inl err) <-> (exists err, parseWrite (WStr s) = inl err).
Proof.
  split.
  - intros [err H]. apply parseRead_error in H as (s' & [= <-] & _ & Hs).
    exists (UnknownWriteShortcut s). by apply parseWrite_error_iff.
  - intros [err H]. apply parseWrite_error in H as (s' & [= <-] & _ & Hs).
    exists (UnknownReadShortcut s). by apply parseRead_unsupported.
Qed.

(** [apply] acts only on entries whose label is [in] the state, as an own
    key or as a name the state inherits, and whose write directive is
    truthy: when there is none, whatever the other entries hold, the
    document is left as it is and nothing is thrown. *)
Theorem apply_skips_inactive (m : WriteManifest) (state : gmap string Value) (d : Document) :
  (forall lc, lc ∈ m -> activeWrite state lc = false) ->
  apply m state d = (d, None).
Proof.
  induction m as [| [label config] m IH]; intros H; simpl; [done |].
  assert (Hrest : apply m state d = (d, None)).
  { apply IH. intros lc Hlc. apply H. by right. }
  assert (Hin : (label, config) ∈ (label, config) :: m) by (by left).
  apply H in Hin. clear H. rename Hin into H. unfold activeWrite in H. simpl in H.
  destruct (getProperty state label) as [v |]; [| done].
  destruct (w_write config) as [wr |]; [| done].
  rewrite bool_decide_eq_true_2 in H by done. simpl in H. by rewrite H.
Qed.

(** Keys of the state that label no entry are ignored. *)
Theorem apply_ignores_other_keys (m : WriteManifest) (state state' : gmap string Value)
    (d : Document) :
  (forall label, label ∈ m.*1 -> state !! label = state' !! label) ->
  apply m state d = apply m state' d.
Proof.
  revert d. induction m as [| [label config] m IH]; intros d H; simpl; [done |].
  assert (Hrest : forall label', label' ∈ m.*1 -> state !! label' = state' !! label').
  { intros label' Hl. apply H. rewrite fmap_cons. by right. }
  assert (E : getProperty state' label = getProperty state label).
  { unfold getProperty. by rewrite (H label) by (rewrite fmap_cons; by left). }
  rewrite E.
  destruct (getProperty state label) as [v |]; [| by apply IH].
  destruct (w_write config) as [wr |]; [| by apply IH].
  destruct (negb (truthyWrite (Some wr))); [by apply IH |].
  destruct (parseWrite wr) as [err | writer]; [done | by apply IH].
Qed.

(** Applying a manifest is applying its entries in order: a second part is
    applied to the document the first part left, unless the first part
    threw. *)
Lemma apply_app (m1 m2 : WriteManifest) (state : gmap string Value) (d : Document) :
  apply (m1 ++ m2) state d
  = match apply m1 state d with
    | (d1, None) => apply m2 state d1
    | (d1, Some err) => (d1, Some err)
    end.
Proof.
  revert d. induction m1 as [| [label config] m1 IH]; intros d; simpl; [done |].
  destruct (getProperty state label) as [v |]; [| by apply IH].
  destruct (w_write config) as [wr |]; [| by apply IH].
  destruct (negb (truthyWrite (Some wr))); [by apply IH |].
  destruct (parseWrite wr) as [err | writer]; [done | by apply IH].
Qed.

(** [apply] is not atomic: when it throws on an entry, the entries before
    it have been written and the entries after it have not. *)
Theorem apply_throws_midway (m1 m2 : WriteManifest) (label : string) (config : WriteEntry)
    (s : string) (state : gmap string Value) (d d1 : Document) :
  apply m1 state d = (d1, None) ->
  activeWrite state (label, config) = true ->
  w_write config = Some (WStr s) -> supportedRead s = false ->
  apply (m1 ++ (label, config) :: m2) state d = (d1, Some (UnknownWriteShortcut s)).
Proof.
  intros H1 Hact Hw Hs. rewrite apply_app, H1. simpl.
  unfold activeWrite in Hact. simpl in Hact. apply andb_true_iff in Hact as [Hk Htr].
  apply bool_decide_eq_true in Hk as [v Hv]. rewrite Hv, Hw. rewrite Hw in Htr.
  rewrite Htr. cbn [negb]. apply parseWrite_error_iff in Hs. by rewrite Hs.
Qed.

End ApplyProperties.

(** With an empty state no entry of [brokenWriteManifest] is acted on, not
    even the one with the unknown shortcut; the entry labelled "toString" is
    acted on, since every object literal inherits that name. *)
Lemma apply_skips_inactive_witness :
  (forall lc, lc ∈ brokenWriteManifest -> activeWrite objectPrototype ∅ lc = false)
  /\ apply simpleMatches simpleSetters objectPrototype brokenWriteManifest ∅ page
     = (page, None)
  /\ activeWrite objectPrototype ∅
       ("toString", mkWriteEntry (Some "#a") (Some (WStr "value"))) = true
  /\ apply simpleMatches simpleSetters objectPrototype inheritedWriteManifest ∅ page
     <> (page, None).
Proof.
  assert (H : forall lc, lc ∈ brokenWriteManifest -> activeWrite objectPrototype ∅ lc = false).
  { intros lc Hlc. unfold brokenWriteManifest in Hlc.
    repeat (apply elem_of_cons in Hlc as [-> | Hlc]; [reflexivity |]).
    by apply elem_of_nil in Hlc. }
  split; [exact H |]. split; [| split; [reflexivity | by vm_compute]].
  exact (apply_skips_inactive simpleMatches simpleSetters objectPrototype
           brokenWriteManifest ∅ page H).
Defined.

Lemma apply_ignores_other_keys_witness :
  apply simpleMatches simpleSetters objectPrototype writeManifest typedState page
  = apply simpleMatches simpleSetters objectPrototype writeManifest
      (<["b" := VStr "20"]> (<["a" := VStr "10"]> ∅)) page.
Proof.
  apply (apply_ignores_other_keys simpleMatches simpleSetters objectPrototype writeManifest).
  intros label Hl. unfold writeManifest in Hl. rewrite !fmap_cons in Hl. simpl in Hl.
  repeat (apply elem_of_cons in Hl as [-> | Hl]; [reflexivity |]).
  by apply elem_of_nil in Hl.
Defined.

Lemma apply_throws_midway_witness :
  apply simpleMatches simpleSetters objectPrototype
    [("a", mkWriteEntry (Some "#a") (Some (WStr "value")))] typedState page
  = (pageFirstTyped, None)
  /\ apply simpleMatches simpleSetters objectPrototype brokenWriteManifest typedState page
     = (pageFirstTyped, Some (UnknownWriteShortcut "html")).
Proof.
  assert (H1 : apply simpleMatches simpleSetters objectPrototype
                 [("a", mkWriteEntry (Some "#a") (Some (WStr "value")))] typedState page
               = (pageFirstTyped, None)) by (vm_compute; reflexivity).
  split; [exact H1 |].
  exact (apply_throws_midway simpleMatches simpleSetters objectPrototype
           [("a", mkWriteEntry (Some "#a") (Some (WStr "value")))]
           [("b", mkWriteEntry (Some "#b") (Some (WStr "value")))]
           "x" (mkWriteEntry (Some "#label") (Some (WStr "html"))) "html"
           typedState page pageFirstTyped H1 eq_refl eq_refl eq_refl).
Defined.

(** ** on and its unsubscribe function *)

Lemma setAdd_idem {A} `{EqDecision A} (x : A) (l : list A) :
  setAdd x (setAdd x l) = setAdd x l.
Proof.
  unfold setAdd. destruct (bool_decide (x ∈ l)) eqn:E.
  - by rewrite E.
  - rewrite bool_decide_eq_true_2; [done |].
    apply elem_of_app. right. by left.
Qed.

Lemma setDelete_not_elem {A} `{EqDecision A} (x : A) (l : list A) : x ∉ setDelete x l.
Proof.
  unfold setDelete. intros H. apply filter_elem in H as [_ H].
  by rewrite bool_decide_eq_true_2 in H.
Qed.

Section Subscriptions.

Variable matchesSel : Document -> NodeRef -> string -> bool.
Variable body : NodeRef.
Variable validSelector : string -> bool.
Variable rawThrows : nat -> nat -> list MutationRecord -> bool.

Local Abbreviation flush := (flush matchesSel).
Local Abbreviation runFrame := (runFrame matchesSel).
Local Abbreviation invokeSubscriber := (invokeSubscriber matchesSel validSelector).
Local Abbreviation observerCallback := (observerCallback matchesSel validSelector rawThrows).
Local Abbreviation notify := (notify matchesSel validSelector rawThrows).
Local Abbreviation ensureObserver := (ensureObserver body).
Local Abbreviation observe := (observe body).
Local Abbreviation on := (on body).
Local Abbreviation step := (step matchesSel body validSelector rawThrows).
Local Abbreviation run := (run matchesSel body validSelector rawThrows).
Local Abbreviation reachable := (reachable matchesSel body validSelector rawThrows).

(** Subscribing a callback that is subscribed already changes nothing: the
    callback is held once. *)
Theorem on_idempotent (cb : nat) (w : World) : on cb (on cb w) = on cb w.
Proof.
  unfold on, ensureObserver.
  destruct (sharedObserver w) as [reg |] eqn:Hreg; simpl; rewrite ?Hreg; simpl;
    apply World_eq; simpl; try done; apply setAdd_idem.
Qed.

Lemma flush_notifications (sub : Subscriber) (sid : nat) (w : World) :
  notificationsOf sub (trace (flush sid w)) = notificationsOf sub (trace w).
Proof.
  unfold flush. destruct (sessions w !! sid); [| done].
  by destruct (collect _ _ _).
Qed.

Lemma runFrame_notifications (sub : Subscriber) (w : World) :
  notificationsOf sub (trace (runFrame w)) = notificationsOf sub (trace w).
Proof.
  unfold runFrame.
  apply (fold_left_preserves
           (fun x => notificationsOf sub (trace x) = notificationsOf sub (trace w)));
    [done |].
  intros x f <-. apply flush_notifications.
Qed.

(** A callback that is not subscribed is not called, and stays
    unsubscribed until [on] is called with it. *)
Lemma unsubscribed_step (cb : nat) (w : World) (a : Action) :
  a <> On cb -> RawCallback cb ∉ observerCallbacks w ->
  (RawCallback cb ∉ observerCallbacks (step w a))
  /\ notificationsOf (RawCallback cb) (trace (step w a))
     = notificationsOf (RawCallback cb) (trace w).
Proof.
  intros Ha Hcb.
  destruct a as [d recs | | ty target | | m | sid | cb' | cb']; unfold step.
  - unfold domChange. simpl. by destruct (sharedObserver w).
  - destruct (notify_view matchesSel validSelector rawThrows w) as (_ & -> & _). split; [done |].
    unfold notify. destruct (recordQueue w) as [| mr batch]; [done |].
    unfold observerCallback.
    by rewrite (callbacks_notified_other matchesSel validSelector rawThrows (mr :: batch) _ _ _ Hcb).
  - destruct (dispatchEvent_view matchesSel body validSelector ty target w) as [Hv ->].
    by apply moduleView_fields in Hv as (_ & _ & _ & _ & -> & _).
  - pose proof (runFrame_view matchesSel w) as Hv.
    apply moduleView_fields in Hv as (_ & _ & _ & _ & -> & _).
    split; [done | apply runFrame_notifications].
  - destruct (observe_fields body m w) as (_ & _ & -> & _ & _ & _ & _ & -> & _).
    split; [| done]. intros H. by apply setAdd_elem in H as [H | H].
  - destruct (sessions w !! sid) as [s |] eqn:Hs.
    2: { unfold cancel. by rewrite Hs. }
    destruct (cancel_fields sid w s Hs) as (_ & _ & _ & _ & _ & _ & -> & -> & _).
    split; [| done]. intros H. by apply filter_elem in H as [H _].
  - unfold on, ensureObserver.
    assert (Hne : cb' <> cb) by congruence.
    destruct (sharedObserver w); (split; [| done]); simpl;
      intros H; apply setAdd_elem in H as [H | H]; congruence.
  - unfold off. split; [| done]. simpl. intros H. by apply filter_elem in H as [H _].
Qed.

(** After the function returned by [on] has run, the callback is not called
    again, whatever happens, unless [on] is called with it anew; however
    often it had been subscribed before, one call unsubscribes it. *)
Theorem off_stops_notifications (cb : nat) (w : World) (acts : list Action) :
  Forall (fun a => a <> On cb) acts ->
  notificationsOf (RawCallback cb) (trace (run (step w (Off cb)) acts))
  = notificationsOf (RawCallback cb) (trace w).
Proof.
  intros Hacts.
  assert (H0 : RawCallback cb ∉ observerCallbacks (step w (Off cb))).
  { simpl. apply setDelete_not_elem. }
  change (trace w) with (trace (step w (Off cb))).
  generalize dependent (step w (Off cb)). clear w.
  induction acts as [| a acts IH]; intros w Hw; simpl; [done |].
  apply Forall_cons in Hacts as [Ha Hacts].
  destruct (unsubscribed_step cb w a Ha Hw) as [Hw' <-]. by apply IH.
Qed.

(** Whoever is subscribed, the shared observer exists. *)
Lemma subscribers_have_observer (w : World) :
  reachable w -> forall sub, sub ∈ observerCallbacks w -> is_Some (sharedObserver w).
Proof.
  apply (reachable_invariant matchesSel body validSelector rawThrows
           (fun x => forall sub, sub ∈ observerCallbacks x -> is_Some (sharedObserver x))).
  - intros d sub H. by apply elem_of_nil in H.
  - intros x a _ IH sub.
    destruct a as [d recs | | ty target | | m | sid | cb | cb]; unfold step.
    + unfold domChange. simpl. destruct (sharedObserver x) eqn:E; simpl; rewrite ?E; eauto.
    + pose proof (callbacks_view matchesSel validSelector rawThrows) as Hcv.
      unfold notify. destruct (recordQueue x) as [| mr batch]; [by apply IH |].
      unfold observerCallback.
      specialize (Hcv (mr :: batch) (observerCallbacks (withRecordQueue [] x))
                    (withRecordQueue [] x)).
      apply moduleView_fields in Hcv as (_ & _ & -> & _ & -> & _). by apply IH.
    + destruct (dispatchEvent_view matchesSel body validSelector ty target x) as [Hv _].
      apply moduleView_fields in Hv as (_ & _ & -> & _ & -> & _). by apply IH.
    + pose proof (runFrame_view matchesSel x) as Hv.
      apply moduleView_fields in Hv as (_ & _ & -> & _ & -> & _). by apply IH.
    + intros _. unfold observe, ensureObserver. simpl.
      destruct (sharedObserver x) eqn:E; simpl; rewrite ?E; eauto.
    + destruct (sessions x !! sid) as [s |] eqn:Hs.
      2: { unfold cancel. rewrite Hs. by apply IH. }
      destruct (cancel_fields sid x s Hs) as (_ & _ & -> & _ & _ & _ & _ & -> & _).
      intros H. apply filter_elem in H as [H _]. by eapply IH.
    + intros _. unfold on, ensureObserver. simpl.
      destruct (sharedObserver x) eqn:E; simpl; rewrite ?E; eauto.
    + unfold off. simpl. intros H. apply filter_elem in H as [H _]. by eapply IH.
Qed.

(** A subscriber of [on] gets the records of a change as one batch, in
    order, after those that were still queued: the records whose target is
    [document.body], the others never.  It is called with the batch once
    when the loop over the subscribers reaches it, that is, when no
    subscriber before it throws; it is not called when the batch is empty
    or a subscriber before it throws. *)
Theorem raw_subscriber_receives_body_records (w : World) (cb : nat) (d : Document)
    (recs : list MutationRecord) :
  reachable w -> RawCallback cb ∈ observerCallbacks w ->
  let w1 := step w (DomChange d recs) in
  let batch :=
    recordQueue w ++ List.filter (fun mr => bool_decide (mr_target mr = body)) recs in
  recordQueue w1 = batch
  /\ notificationsOf (RawCallback cb) (trace (step w1 Notify))
     = match batch with
       | [] => notificationsOf (RawCallback cb) (trace w)
       | _ :: _ =>
           if reaches (subscriberThrows matchesSel validSelector rawThrows batch w1)
                (RawCallback cb) (observerCallbacks w)
           then batch :: notificationsOf (RawCallback cb) (trace w)
           else notificationsOf (RawCallback cb) (trace w)
       end.
Proof.
  intros Hw Hcb w1 batch.
  destruct (reachable_ObserverInv matchesSel body validSelector rawThrows w Hw)
    as (Hobs & Hnd & _ & _).
  destruct (subscribers_have_observer w Hw _ Hcb) as [reg Hreg].
  destruct Hobs as [(Hn & _) | (Hsome & _)]; [congruence |].
  assert (E : List.filter (interested (mkRegistered body observerInit)) recs
              = List.filter (fun mr => bool_decide (mr_target mr = body)) recs).
  { apply List.filter_ext. intros mr.
    pose proof (interested_body body mr) as Hi.
    destruct (interested _ mr); destruct (bool_decide_reflect (mr_target mr = body));
      try done.
    - exfalso. by apply n, Hi.
    - by apply Hi in e. }
  assert (Hq : recordQueue w1 = batch).
  { subst w1 batch. simpl. unfold domChange. simpl. by rewrite Hsome, E. }
  assert (Hc : observerCallbacks w1 = observerCallbacks w /\ trace w1 = trace w).
  { subst w1. simpl. unfold domChange. simpl. by rewrite Hsome. }
  destruct Hc as [Hc Ht].
  split; [exact Hq |].
  simpl. unfold notify. rewrite Hq.
  destruct batch as [| mr rest]; [by rewrite Ht |].
  unfold observerCallback. cbn [observerCallbacks withRecordQueue]. rewrite Hc.
  rewrite (callbacks_notified matchesSel validSelector rawThrows (mr :: rest)
             (RawCallback cb) (observerCallbacks w) w1 (withRecordQueue [] w1)); try done.
  cbn [trace withRecordQueue]. by rewrite Ht.
Qed.

End Subscriptions.

(** ** More on sessions: silence without a firing, one flush per window *)

Lemma scheduleCallback_pending_ne (sid sid' : nat) (w : World) :
  sid' <> sid -> pendingOf sid (scheduleCallback sid' w) = pendingOf sid w.
Proof. intros Hne. unfold pendingOf. by rewrite scheduleCallback_lookup_ne. Qed.

Section Windows.

Variable matchesSel : Document -> NodeRef -> string -> bool.
Variable body : NodeRef.
Variable validSelector : string -> bool.
Variable rawThrows : nat -> nat -> list MutationRecord -> bool.

Local Abbreviation flush := (flush matchesSel).
Local Abbreviation runFrame := (runFrame matchesSel).
Local Abbreviation handleEvent := (handleEvent matchesSel validSelector).
Local Abbreviation dispatchEvent := (dispatchEvent matchesSel body validSelector).
Local Abbreviation mutationHandler := (mutationHandler matchesSel validSelector).
Local Abbreviation invokeSubscriber := (invokeSubscriber matchesSel validSelector).
Local Abbreviation observerCallback := (observerCallback matchesSel validSelector rawThrows).
Local Abbreviation notify := (notify matchesSel validSelector rawThrows).
Local Abbreviation observe := (observe body).
Local Abbreviation on := (on body).
Local Abbreviation step := (step matchesSel body validSelector rawThrows).
Local Abbreviation run := (run matchesSel body validSelector rawThrows).
Local Abbreviation reachable := (reachable matchesSel body validSelector rawThrows).
Local Abbreviation firesTrigger := (firesTrigger matchesSel body validSelector rawThrows).
Local Abbreviation firingsIn := (firingsIn matchesSel body validSelector rawThrows).

(** A call of a subscriber that is not the relevant handler of a session
    leaves the session without pending flush. *)
Lemma invokeSubscriber_unpending (sid : nat) (batch : list MutationRecord)
    (w x : World) (s : Session) (sub : Subscriber) :
  sessions w !! sid = Some s ->
  doc x = doc w -> sessionStatic x = sessionStatic w -> pendingOf sid x = false ->
  (sub = MutationHandler sid ->
   isRelevant (scanMutations matchesSel validSelector (doc w)
                 (watchedSelectors (s_manifest s)) batch) = false) ->
  pendingOf sid (invokeSubscriber batch x sub) = false.
Proof.
  intros Hs Hd Hst Hp Hsub. unfold invokeSubscriber.
  destruct sub as [sid' | cb]; [| done].
  unfold mutationHandler. cbn [sessions doc logObs].
  destruct (sessions x !! sid') as [s' |] eqn:Hs'; [| done].
  destruct (scanMutations matchesSel validSelector (doc x) (watchedSelectors (s_manifest s'))
              batch) eqn:Hrel; try done.
  destruct (decide (sid' = sid)) as [-> | Hne].
  - exfalso.
    assert (Hst0 : sessionStatic x !! sid = Some (s_manifest s, s_cleanups s))
      by (by rewrite Hst, sessionStatic_lookup, Hs).
    apply sessionStatic_inv in Hst0 as (s1 & Hs1 & Hm & _).
    rewrite Hs' in Hs1. injection Hs1 as <-. rewrite Hm, Hd in Hrel.
    specialize (Hsub eq_refl). by rewrite Hrel in Hsub.
  - by rewrite (scheduleCallback_pending_ne sid sid' (logObs _ x)).
Qed.

Lemma callSubscribers_unpending (sid : nat) (batch : list MutationRecord)
    (subs : list Subscriber) (w x : World) (s : Session) :
  sessions w !! sid = Some s ->
  NoDup subs ->
  doc x = doc w -> sessionStatic x = sessionStatic w -> pendingOf sid x = false ->
  (forall z, z ∈ subs -> notificationsOf z (trace x) = notificationsOf z (trace w)) ->
  reaches (subscriberThrows matchesSel validSelector rawThrows batch w)
    (MutationHandler sid) subs
  && isRelevant (scanMutations matchesSel validSelector (doc w)
                   (watchedSelectors (s_manifest s)) batch) = false ->
  pendingOf sid (callSubscribers matchesSel validSelector rawThrows batch subs x) = false.
Proof.
  intros Hs. revert x.
  induction subs as [| y subs IH]; intros x Hnd Hd Hst Hp Hn Hfire; simpl in *; [done |].
  apply NoDup_cons in Hnd as [Hfresh Hnd].
  destruct (invokeSubscriber_same matchesSel validSelector batch x w y (conj Hd Hst))
    as [Hd' Hst'].
  pose proof (invokeSubscriber_uncalled matchesSel validSelector batch x w y subs Hfresh Hn)
    as Hn'.
  rewrite (subscriberThrows_ext matchesSel validSelector rawThrows batch x w y Hd Hst)
    by (apply Hn; by left).
  destruct (bool_decide_reflect (y = MutationHandler sid)) as [-> | Hne].
  - simpl in Hfire.
    assert (Hp' : pendingOf sid (invokeSubscriber batch x (MutationHandler sid)) = false)
      by (by apply (invokeSubscriber_unpending sid batch w x s)).
    destruct (subscriberThrows _ _ _ _ _ _); [done |].
    apply IH; try done. by rewrite Hfire, andb_false_r.
  - assert (Hp' : pendingOf sid (invokeSubscriber batch x y) = false)
      by (by apply (invokeSubscriber_unpending sid batch w x s)).
    destruct (subscriberThrows _ _ _ _ _ y); [done |].
    by apply IH.
Qed.

(** An action of a window that fires no trigger of a session leaves the
    session without pending flush. *)
Lemma nonfiring_keeps_unpending (sid : nat) (w : World) (s : Session) (a : Action) :
  NoDup (observerCallbacks w) ->
  sessions w !! sid = Some s -> quietFor sid a ->
  firesTrigger sid w a = false -> pendingOf sid w = false ->
  pendingOf sid (step w a) = false.
Proof.
  intros Hnd Hs Hq Hfire Hp.
  assert (Hst0 : sessionStatic w !! sid = Some (s_manifest s, s_cleanups s)).
  { by rewrite sessionStatic_lookup, Hs. }
  destruct a as [d recs | | ty target | | m | sid' | cb | cb]; unfold step.
  - unfold domChange. simpl. by destruct (sharedObserver w).
  - unfold firesTrigger in Hfire. rewrite Hs in Hfire.
    unfold notify. destruct (recordQueue w) as [| mr batch] eqn:Hrq; [done |].
    remember (mr :: batch) as q eqn:Eq. clear Eq.
    unfold observerCallback.
    by apply (callSubscribers_unpending sid q _ w _ s).
  - simpl in Hfire. unfold dispatchEvent.
    destruct (bool_decide (body ∈ inclusiveAncestors target)); [| done].
    simpl in Hfire.
    apply (fold_left_preserves_elem
             (fun x => doc x = doc w /\ pendingOf sid x = false)); [done |].
    intros x l Hl (Hd & Hpx).
    destruct (handleEvent_view matchesSel validSelector target x l) as [Hv _].
    apply moduleView_fields in Hv as (Hd' & _). rewrite Hd'. split; [done |].
    unfold handleEvent.
    destruct (isElement (doc x) target && validSelector (selArg (l_selector l))
              && matchesSel (doc x) target (selArg (l_selector l)))
      eqn:Hcond; [| done].
    apply filter_elem in Hl as [Hl Hty].
    assert (Hnf : listenerFires matchesSel validSelector sid (doc w) ty target l = false).
    { apply not_true_iff_false. intros Hf. apply not_true_iff_false in Hfire. apply Hfire.
      apply existsb_exists. exists l. split; [by apply list_elem_of_In | done]. }
    unfold listenerFires in Hnf. rewrite Hty, <- Hd in Hnf.
    repeat rewrite <- andb_assoc in Hnf. repeat rewrite <- andb_assoc in Hcond.
    rewrite Hcond in Hnf. simpl in Hnf.
    rewrite andb_true_r in Hnf. apply Nat.eqb_neq in Hnf.
    by rewrite scheduleCallback_pending_ne.
  - done.
  - destruct (observe_fields body m w) as (_ & _ & _ & _ & _ & _ & _ & _ & Es).
    unfold pendingOf in *. rewrite Es.
    rewrite lookup_app_l by (by eapply lookup_lt_Some). done.
  - simpl in Hq. destruct (sessions w !! sid') as [s' |] eqn:Hs'.
    2: { unfold cancel. by rewrite Hs'. }
    destruct (cancel_fields sid' w s' Hs') as (_ & _ & _ & _ & _ & _ & _ & _ & _ & _ & Es).
    unfold pendingOf in *. rewrite Es.
    destruct (s_pending s') as [[| h] |]; try done. by rewrite list_lookup_insert_ne.
  - unfold on, ensureObserver. by destruct (sharedObserver w).
  - done.
Qed.

Lemma run_keeps_session (w : World) (acts : list Action) (sid : nat) (s : Session) :
  sessions w !! sid = Some s ->
  exists s', sessions (run w acts) !! sid = Some s' /\ s_manifest s' = s_manifest s.
Proof.
  revert w s. induction acts as [| a acts IH]; intros w s Hs; simpl; [by exists s |].
  destruct (step_keeps_session matchesSel body validSelector rawThrows w a sid s Hs) as (s1 & Hs1 & Hm1).
  destruct (IH _ _ Hs1) as (s' & Hs' & Hm'). exists s'. split; [done | congruence].
Qed.

Lemma window_unpending (sid : nat) (window : list Action) (w : World) (s : Session) :
  reachable w -> sessions w !! sid = Some s -> pendingOf sid w = false ->
  Forall (quietFor sid) window -> firingsIn sid w window = 0 ->
  pendingOf sid (run w window) = false.
Proof.
  revert w s. induction window as [| a window IH]; intros w s Hw Hs Hp Hq Hf; simpl; [done |].
  apply Forall_cons in Hq as [Hqa Hq]. simpl in Hf.
  destruct (firesTrigger sid w a) eqn:Hfire; [lia |]. simpl in Hf.
  destruct (reachable_ObserverInv matchesSel body validSelector rawThrows w Hw)
    as (_ & Hnd & _).
  destruct (step_keeps_session matchesSel body validSelector rawThrows w a sid s Hs)
    as (s1 & Hs1 & _).
  apply (IH _ s1); try done.
  - by apply (reachable_step matchesSel body validSelector rawThrows).
  - by eapply nonfiring_keeps_unpending.
Qed.

Lemma frame_without_pending (sid : nat) (w : World) (s : Session) :
  FrameInv w -> sessions w !! sid = Some s -> pendingOf sid w = false ->
  callsOf sid (trace (runFrame w)) = callsOf sid (trace w).
Proof.
  intros (F1 & _ & _) Hs Hp. unfold pendingOf in Hp. rewrite Hs in Hp.
  destruct (F1 sid s Hs) as [Hnz Hent].
  assert (Hnone : forall f, f ∈ frameCallbacks w -> f.2 <> sid).
  { intros f Hf Hsid.
    assert (H : f ∈ entriesOf sid (frameCallbacks w)) by (by apply entriesOf_elem).
    rewrite Hent in H. destruct (s_pending s) as [[| h] |]; try done.
    by apply elem_of_nil in H. }
  assert (H : silent sid w (runFrame w)).
  { unfold runFrame. apply (fold_left_preserves_elem (silent sid w)).
    - split; [by eapply lookup_lt_Some |]. split; [| done].
      intros f Hf. by apply elem_of_nil in Hf.
    - intros x f Hin. apply (flush_silent matchesSel). by apply Hnone. }
  by destruct H as (_ & _ & H).
Qed.

(** The callback of a session is called only after one of its triggers
    fired: a window in which none fires, started without pending flush, ends
    in a frame that does not call it. *)
Theorem no_firing_no_call (sid : nat) (window : list Action) (w : World) (s : Session) :
  reachable w -> sessions w !! sid = Some s -> pendingOf sid w = false ->
  Forall (quietFor sid) window -> firingsIn sid w window = 0 ->
  callsOf sid (trace (step (run w window) Frame)) = callsOf sid (trace w).
Proof.
  intros Hw Hs Hp Hq Hf.
  destruct (run_keeps_session w window sid s Hs) as (s' & Hs' & _).
  simpl. rewrite (frame_without_pending sid _ s'); try done.
  - by apply (window_calls matchesSel body validSelector rawThrows).
  - by apply (reachable_FrameInv matchesSel body validSelector rawThrows), (reachable_run matchesSel body validSelector rawThrows).
  - by eapply window_unpending.
Qed.

(** After a flush the scheduler is armed again: firings in two consecutive
    windows lead to two calls, one per frame, each with the snapshot read by
    its frame, provided the selectors [collect] queries are valid and both
    reads succeed. *)
Theorem two_windows_two_calls (sid : nat) (window1 window2 : list Action) (w : World)
    (s : Session) (snap1 snap2 : gmap string Value) :
  reachable w -> sessions w !! sid = Some s ->
  queriesValid validSelector (s_manifest s) = true ->
  let w1 := step (run w window1) Frame in
  let w2 := step (run w1 window2) Frame in
  Forall (quietFor sid) window1 -> 1 <= firingsIn sid w window1 ->
  collect matchesSel (s_manifest s) (doc (run w window1)) = inr snap1 ->
  Forall (quietFor sid) window2 -> 1 <= firingsIn sid w1 window2 ->
  collect matchesSel (s_manifest s) (doc (run w1 window2)) = inr snap2 ->
  callsOf sid (trace w2) = snap2 :: snap1 :: callsOf sid (trace w).
Proof.
  intros Hw Hs _ w1 w2 Hq1 Hf1 Hc1 Hq2 Hf2 Hc2.
  destruct (window_flush matchesSel body validSelector rawThrows sid window1 w s
              Hw Hs Hq1 Hf1) as (_ & H1 & _).
  specialize (H1 snap1 Hc1). fold w1 in H1.
  assert (Hw1 : reachable w1)
    by (by apply (reachable_step matchesSel body validSelector rawThrows),
                 (reachable_run matchesSel body validSelector rawThrows)).
  destruct (run_keeps_session w (window1 ++ [Frame]) sid s Hs) as (s1 & Hs1 & Hm1).
  assert (E : run w (window1 ++ [Frame]) = w1).
  { unfold run. by rewrite fold_left_app. }
  rewrite E in Hs1. rewrite <- Hm1 in Hc2.
  destruct (window_flush matchesSel body validSelector rawThrows sid window2 w1 s1
              Hw1 Hs1 Hq2 Hf2) as (_ & H2 & _).
  specialize (H2 snap2 Hc2). fold w2 in H2. by rewrite H2, H1.
Qed.

(** However many triggers fire, a session never has more than one frame
    callback queued. *)
Theorem one_frame_callback_per_session (w : World) (sid : nat) :
  reachable w -> List.length (entriesOf sid (frameCallbacks w)) <= 1.
Proof.
  intros Hw. destruct (reachable_FrameInv matchesSel body validSelector rawThrows w Hw) as (F1 & F3 & _).
  destruct (sessions w !! sid) as [s |] eqn:Hs.
  - destruct (F1 sid s Hs) as [_ ->]. destruct (s_pending s); simpl; lia.
  - rewrite entriesOf_none; [simpl; lia |].
    intros f Hf. apply F3 in Hf. apply lookup_ge_None in Hs. lia.
Qed.

(** The listeners [observe] creates: one for every entry that has an event
    type, of that type and with the entry's selector. *)
Lemma entryListeners_types (sid idx : nat) (m : Manifest) (ty : string)
    (sel : option string) :
  (exists l, l ∈ entryListeners sid idx m /\ l_session l = sid /\ l_type l = ty
             /\ l_selector l = sel)
  <-> exists label config,
        (label, config) ∈ m /\ getWatchEvent (read config) (watch config) = Some ty
        /\ ty <> "" /\ selector config = sel.
Proof.
  revert idx. induction m as [| [label config] m IH]; intros idx; simpl.
  - split.
    + intros (l & H & _). by apply elem_of_nil in H.
    + intros (label & config & H & _). by apply elem_of_nil in H.
  - split.
    + intros (l & Hl & Hsid & Hty & Hsel). apply elem_of_app in Hl as [Hl | Hl].
      * destruct (getWatchEvent (read config) (watch config)) as [ty' |] eqn:Hev;
          [| by apply elem_of_nil in Hl].
        simpl in Hl. destruct (String.eqb_spec ty' ""); simpl in Hl;
          [by apply elem_of_nil in Hl |].
        apply list_elem_of_singleton in Hl. subst l. simpl in *. subst.
        exists label, config. repeat split; try done. by left.
      * destruct (proj1 (IH (S idx))) as (label' & config' & Hin & H);
          [by exists l |].
        exists label', config'. split; [by right | done].
    + intros (label' & config' & Hin & Hev & Hne & Hsel).
      apply elem_of_cons in Hin as [[= -> ->] | Hin].
      * rewrite Hev. simpl. apply String.eqb_neq in Hne. rewrite Hne. simpl.
        eexists. split; [by left | done].
      * destruct (proj2 (IH (S idx))) as (l & Hl & H); [by exists label', config' |].
        exists l. split; [| done]. apply elem_of_app. by right.
Qed.

(** The events that fire a trigger of a session just started. *)
Lemma observe_fires_iff (w : World) (m : Manifest) (ty : string) (target : NodeRef) :
  reachable w ->
  firesTrigger (List.length (sessions w)) (observe m w) (Dispatch ty target) = true
  <-> body ∈ inclusiveAncestors target
      /\ isElement (doc w) target = true
      /\ exists label config,
           (label, config) ∈ m
           /\ getWatchEvent (read config) (watch config) = Some ty /\ ty <> ""
           /\ validSelector (selArg (selector config)) = true
           /\ matchesSel (doc w) target (selArg (selector config)) = true.
Proof.
  intros Hw.
  destruct (reachable_RegInv matchesSel body validSelector rawThrows w Hw) as (R1 & _).
  destruct (observe_fields body m w) as (Ed & _ & _ & _ & _ & _ & El & _).
  set (sid := List.length (sessions w)) in *.
  change (firesTrigger sid (observe m w) (Dispatch ty target))
    with (bool_decide (body ∈ inclusiveAncestors target)
          && existsb (listenerFires matchesSel validSelector sid (doc (observe m w)) ty target)
               (bodyListeners (observe m w))).
  rewrite Ed, El, andb_true_iff, bool_decide_eq_true, existsb_exists.
  split.
  - intros (Hb & l & Hl & Hfire). unfold listenerFires in Hfire.
    apply andb_true_iff in Hfire as [Hfire Hmatch].
    apply andb_true_iff in Hfire as [Hfire Hvalid].
    apply andb_true_iff in Hfire as [Hfire Hel].
    apply andb_true_iff in Hfire as [Hsid Hty].
    apply Nat.eqb_eq in Hsid. apply String.eqb_eq in Hty.
    split; [done |]. split; [done |].
    apply list_elem_of_In, elem_of_app in Hl as [Hl | Hl].
    + exfalso. destruct (R1 l Hl) as (mc & Hmc & _). apply lookup_lt_Some in Hmc.
      unfold sessionStatic in Hmc. rewrite List.length_map in Hmc. lia.
    + destruct (proj1 (entryListeners_types sid 0 m ty (l_selector l)))
        as (label & config & Hin & Hev & Hne & Hsel); [by exists l |].
      exists label, config. by rewrite Hsel.
  - intros (Hb & Hel & label & config & Hin & Hev & Hne & Hvalid & Hmatch).
    split; [done |].
    destruct (proj2 (entryListeners_types sid 0 m ty (selector config)))
      as (l & Hl & Hsid & Hty & Hsel); [by exists label, config |].
    exists l. split; [apply list_elem_of_In, elem_of_app; by right |].
    unfold listenerFires. rewrite Hsid, Hty, Hsel, Hel, Hvalid, Hmatch.
    by rewrite Nat.eqb_refl, String.eqb_refl.
Qed.

(** What a new session reacts to: an event of type [ty] dispatched right
    after [observe] leaves the session with a flush scheduled exactly when
    the event passes the body, its target is an element, and some entry has
    event type [ty] (the watch override if there is one, else "input" for a
    "value" read and "change" for a "checked" read) and a valid selector the
    target matches. *)
Theorem observe_reacts_iff (w : World) (m : Manifest) (ty : string) (target : NodeRef) :
  reachable w ->
  let sid := List.length (sessions w) in
  pendingOf sid (observe m w) = false
  /\ (pendingOf sid (step (observe m w) (Dispatch ty target)) = true
      <-> body ∈ inclusiveAncestors target
          /\ isElement (doc w) target = true
          /\ exists label config,
               (label, config) ∈ m
               /\ getWatchEvent (read config) (watch config) = Some ty /\ ty <> ""
               /\ validSelector (selArg (selector config)) = true
               /\ matchesSel (doc w) target (selArg (selector config)) = true).
Proof.
  intros Hw sid.
  destruct (observe_fields body m w) as (_ & _ & _ & _ & _ & _ & _ & _ & Es).
  fold sid in Es.
  set (snew := mkSession m None _) in Es.
  assert (Hs : sessions (observe m w) !! sid = Some snew).
  { rewrite Es. rewrite lookup_app_r by (subst sid; lia).
    by replace (sid - List.length (sessions w)) with 0 by (subst sid; lia). }
  assert (Hp : pendingOf sid (observe m w) = false).
  { unfold pendingOf. by rewrite Hs. }
  split; [exact Hp |].
  assert (Hnd : NoDup (observerCallbacks (observe m w))).
  { assert (Hw' : reachable (step w (Observe m)))
      by (by apply (reachable_step matchesSel body validSelector rawThrows)).
    by destruct (reachable_ObserverInv matchesSel body validSelector rawThrows _ Hw')
      as (_ & Hnd & _). }
  rewrite <- (observe_fires_iff w m ty target Hw). fold sid.
  destruct (firesTrigger sid (observe m w) (Dispatch ty target)) eqn:Hfire.
  - split; [done |]. intros _.
    apply (fires_sets_pending matchesSel body validSelector rawThrows);
      [done | by eexists | done].
  - split; [| done]. intros H.
    rewrite (nonfiring_keeps_unpending sid (observe m w) snew (Dispatch ty target)) in H;
      done.
Qed.

(** Cancelling a session removes its own registrations and nothing else:
    what is left of the body's listeners, of the observer's subscribers and
    of the queued frame callbacks is what belonged to the other sessions. *)
Theorem cancel_removes_exactly_own (w : World) (sid : nat) :
  reachable w -> is_Some (sessions w !! sid) ->
  let w' := step w (Cancel sid) in
  bodyListeners w'
  = List.filter (fun l => negb (Nat.eqb (l_session l) sid)) (bodyListeners w)
  /\ observerCallbacks w'
     = List.filter (fun x => negb (bool_decide (x = MutationHandler sid)))
         (observerCallbacks w)
  /\ frameCallbacks w'
     = List.filter (fun f => negb (Nat.eqb f.2 sid)) (frameCallbacks w).
Proof.
  intros Hw [s Hs]. simpl.
  destruct (reachable_RegInv matchesSel body validSelector rawThrows w Hw) as (R1 & R3).
  destruct (reachable_FrameInv matchesSel body validSelector rawThrows w Hw) as (F1 & _ & F4).
  assert (Hst : sessionStatic w !! sid = Some (s_manifest s, s_cleanups s)).
  { by rewrite sessionStatic_lookup, Hs. }
  destruct (R3 sid _ Hst) as [Hdel Hcs]. simpl in Hdel, Hcs.
  destruct (cancel_fields sid w s Hs) as (_ & _ & _ & _ & _ & _ & _ & -> & -> & -> & _).
  split; [| split].
  - apply List.filter_ext_in. intros l Hl. apply list_elem_of_In in Hl.
    destruct (Nat.eqb_spec (l_session l) sid) as [E | Hne]; simpl.
    + destruct (R1 l Hl) as (mc & Hmc & Hin). rewrite E, Hst in Hmc. injection Hmc as <-.
      apply (forallb_false_elem _ _ _ Hin). simpl.
      by rewrite String.eqb_refl, !Nat.eqb_refl.
    + by apply (cleanups_keep_listener sid).
  - apply List.filter_ext. intros x.
    destruct (bool_decide_reflect (x = MutationHandler sid)) as [-> | Hne]; simpl.
    + apply (forallb_false_elem _ _ _ Hdel). simpl. by rewrite bool_decide_eq_true_2.
    + by apply (cleanups_keep_subscriber sid).
  - destruct (F1 sid s Hs) as [Hnz Hent].
    destruct (s_pending s) as [[| h] |]; [done | |].
    + apply List.filter_ext_in. intros f Hf. apply list_elem_of_In in Hf. f_equal.
      assert (Hown : (S h, sid) ∈ frameCallbacks w).
      { assert (H : (S h, sid) ∈ entriesOf sid (frameCallbacks w)) by (rewrite Hent; by left).
        by apply entriesOf_elem in H as [H _]. }
      destruct (Nat.eqb_spec f.1 (S h)) as [E1 | N1];
        destruct (Nat.eqb_spec f.2 sid) as [E2 | N2]; try done.
      * exfalso. apply N2. apply (F4 (S h)); [| done]. by destruct f; simpl in *; subst.
      * exfalso. apply N1.
        assert (H : f ∈ entriesOf sid (frameCallbacks w)) by (by apply entriesOf_elem).
        rewrite Hent in H. apply list_elem_of_singleton in H. by subst f.
    + symmetry. apply forallb_filter_id. apply forallb_forall. intros f Hf.
      apply list_elem_of_In in Hf.
      destruct (Nat.eqb_spec f.2 sid) as [E2 | N2]; [| done].
      assert (H : f ∈ entriesOf sid (frameCallbacks w)) by (by apply entriesOf_elem).
      rewrite Hent in H. by apply elem_of_nil in H.
Qed.

End Windows.

(** ** The htmx extension *)

(** Caching is decided by the nearest inclusive ancestor whose [dx-cache]
    attribute is "true" or "false"; other values are passed over, and
    without such an ancestor caching is off. *)
Theorem isCacheEnabled_nearest (d : Document) (el : NodeRef) :
  isCacheEnabled d el
  = match List.find (cacheSetting d) (inclusiveAncestors el) with
    | Some a => isStr (attributeOf d a "dx-cache") "true"
    | None => false
    end.
Proof.
  induction el as [| i p IH]; simpl; unfold cacheSetting.
  - destruct (isStr (attributeOf d [] "dx-cache") "true") eqn:Et; simpl; [by rewrite Et |].
    by destruct (isStr (attributeOf d [] "dx-cache") "false") eqn:Ef; simpl; rewrite ?Et.
  - destruct (isStr (attributeOf d (i :: p) "dx-cache") "true") eqn:Et; simpl;
      [by rewrite Et |].
    destruct (isStr (attributeOf d (i :: p) "dx-cache") "false") eqn:Ef; simpl;
      [by rewrite Et |].
    exact IH.
Qed.

Section HtmxProperties.

Variable matchesSel : Document -> NodeRef -> string -> bool.
Variable body : NodeRef.
Variable validSelector : string -> bool.
Variable rawThrows : nat -> nat -> list MutationRecord -> bool.
Variable jsonParse : string -> option (option Manifest).
Variable windowGet : string -> option Manifest.

Local Abbreviation parseManifest := (parseManifest jsonParse windowGet).
Local Abbreviation findManifest := (findManifest jsonParse windowGet).
Local Abbreviation beforeProcessNode := (beforeProcessNode body jsonParse windowGet).
Local Abbreviation extStep := (extStep matchesSel body validSelector rawThrows jsonParse windowGet).
Local Abbreviation extRun := (extRun matchesSel body validSelector rawThrows jsonParse windowGet).
Local Abbreviation extReachable := (extReachable matchesSel body validSelector rawThrows jsonParse windowGet).
Local Abbreviation step := (step matchesSel body validSelector rawThrows).
Local Abbreviation run := (run matchesSel body validSelector rawThrows).
Local Abbreviation reachable := (reachable matchesSel body validSelector rawThrows).

(** The manifest of an element is read off the nearest inclusive ancestor
    with a non-empty [dx-manifest] attribute, and off that one only: when
    its text resolves to nothing, ancestors farther up are not asked. *)
Theorem findManifest_nearest (d : Document) (el : NodeRef) :
  findManifest d el
  = match head (omap (manifestAttr d) (inclusiveAncestors el)) with
    | Some attr => parseManifest attr
    | None => None
    end.
Proof.
  induction el as [| i p IH]; simpl; unfold manifestAttr.
  - destruct (attributeOf d [] "dx-manifest") as [| | attr | | |]; simpl; try done.
    by destruct (negb (String.eqb attr "")).
  - destruct (attributeOf d (i :: p) "dx-manifest") as [| | attr | | |]; simpl; try exact IH.
    destruct (negb (String.eqb attr "")); [done | exact IH].
Qed.

(** Processing an element again does nothing: htmx may announce a node as
    often as it likes, one session is observed for it. *)
Theorem beforeProcessNode_idempotent (el : NodeRef) (x : Extension) :
  beforeProcessNode el (beforeProcessNode el x) = beforeProcessNode el x.
Proof.
  unfold beforeProcessNode at 2.
  destruct (findManifest (doc (ext_world x)) el) as [m |] eqn:Hm.
  2: { unfold beforeProcessNode. by rewrite Hm. }
  destruct (bool_decide (is_Some (activeObservers x !! el))) eqn:Hhas.
  - unfold beforeProcessNode. by rewrite Hm, Hhas.
  - unfold beforeProcessNode. cbn [ext_world activeObservers].
    destruct (observe_fields body m (ext_world x)) as (-> & _).
    rewrite Hm, lookup_insert_eq, Hhas. rewrite bool_decide_eq_true_2; [done | by eexists].
Qed.

Lemma extStep_world (x : Extension) (e : ExtEvent) :
  exists acts, ext_world (extStep x e) = run (ext_world x) acts.
Proof.
  destruct e as [el | el | a]; simpl.
  - unfold beforeProcessNode.
    destruct (findManifest _ el) as [m |]; [| by exists []].
    destruct (bool_decide _); [by exists [] | by exists [Observe m]].
  - unfold beforeCleanupElement.
    destruct (activeObservers x !! el) as [sid |]; [by exists [Cancel sid] | by exists []].
  - by exists [a].
Qed.

Lemma extReachable_world (x : Extension) : extReachable x -> reachable (ext_world x).
Proof.
  intros (d & evs & ->). induction evs as [| e evs IH] using rev_ind.
  - apply reachable_initial.
  - unfold extRun. rewrite fold_left_app. simpl.
    destruct (extStep_world (fold_left extStep evs (mkExtension (initial d) ∅)) e)
      as [acts ->].
    by apply reachable_run.
Qed.

Lemma run_sessions_grow (w : World) (acts : list Action) :
  List.length (sessions w) <= List.length (sessions (run w acts)).
Proof.
  revert w. induction acts as [| a acts IH]; intros w; simpl; [done |].
  etrans; [| apply IH].
  destruct (step_static matchesSel body validSelector rawThrows w a) as [ext E].
  assert (H : List.length (sessionStatic (step w a))
              = List.length (sessionStatic w) + List.length ext)
    by (by rewrite E, length_app).
  unfold sessionStatic in H. rewrite !List.length_map in H. lia.
Qed.

Lemma tracked_step (x : Extension) (e : ExtEvent) :
  (forall el sid, activeObservers x !! el = Some sid ->
                  sid < List.length (sessions (ext_world x))) ->
  forall el sid, activeObservers (extStep x e) !! el = Some sid ->
                 sid < List.length (sessions (ext_world (extStep x e))).
Proof.
  intros IH el sid.
  destruct (extStep_world x e) as [acts Hacts].
  pose proof (run_sessions_grow (ext_world x) acts) as Hgrow. rewrite <- Hacts in Hgrow.
  clear Hacts. revert Hgrow.
  destruct e as [el' | el' | a]; unfold extStep.
  - unfold beforeProcessNode.
    destruct (findManifest _ el') as [m |]; [| intros _; by apply IH].
    destruct (bool_decide _); [intros _; by apply IH |].
    cbn [ext_world activeObservers]. intros _.
    destruct (observe_fields body m (ext_world x)) as (_ & _ & _ & _ & _ & _ & _ & _ & ->).
    rewrite length_app. cbn [List.length].
    destruct (decide (el' = el)) as [-> | Hne].
    + rewrite lookup_insert_eq. intros [= <-]. lia.
    + rewrite lookup_insert_ne by done. intros H. apply IH in H. lia.
  - unfold beforeCleanupElement.
    destruct (activeObservers x !! el') as [sid' |] eqn:E; [| intros _; by apply IH].
    cbn [ext_world activeObservers]. intros Hgrow.
    destruct (decide (el' = el)) as [-> | Hne].
    + by rewrite lookup_delete_eq.
    + rewrite lookup_delete_ne by done. intros H. apply IH in H. lia.
  - cbn [ext_world activeObservers]. intros Hgrow H. apply IH in H. lia.
Qed.

(** The sessions [activeObservers] names exist. *)
Lemma tracked_sessions_exist (x : Extension) (el : NodeRef) (sid : nat) :
  extReachable x -> activeObservers x !! el = Some sid ->
  sid < List.length (sessions (ext_world x)).
Proof.
  intros (d & evs & ->). revert el sid.
  induction evs as [| e evs IH] using rev_ind; intros el sid.
  - simpl. by rewrite lookup_empty.
  - unfold extRun. rewrite fold_left_app. cbn [fold_left]. by apply tracked_step.
Qed.

Lemma ext_Dead_run (sid : nat) (evs : list ExtEvent) (x : Extension) :
  Dead sid (ext_world x) ->
  callsOf sid (trace (ext_world (extRun x evs))) = callsOf sid (trace (ext_world x)).
Proof.
  revert x. induction evs as [| e evs IH]; intros x Hd; simpl; [done |].
  destruct (extStep_world x e) as [acts Hacts].
  destruct (Dead_run matchesSel body validSelector rawThrows sid acts _ Hd) as [Hd' Hc].
  rewrite <- Hacts in Hd', Hc. rewrite IH by done. done.
Qed.

(** After htmx cleaned an element up, the entry of the element is gone and
    the session that was observed for it never calls its callback again,
    whatever htmx and the page do next. *)
Theorem cleanup_silences_element (x : Extension) (el : NodeRef) (sid : nat)
    (evs : list ExtEvent) :
  extReachable x -> activeObservers x !! el = Some sid ->
  let x' := extStep x (BeforeCleanupElement el) in
  activeObservers x' !! el = None
  /\ callsOf sid (trace (ext_world (extRun x' evs))) = callsOf sid (trace (ext_world x)).
Proof.
  intros Hx Hel. simpl. unfold beforeCleanupElement. rewrite Hel. simpl.
  split; [apply lookup_delete_eq |].
  pose proof (extReachable_world x Hx) as Hw.
  pose proof (tracked_sessions_exist x el sid Hx Hel) as Hlt.
  apply lookup_lt_is_Some in Hlt as [s Hs].
  rewrite ext_Dead_run.
  - simpl. by destruct (cancel_fields sid _ s Hs) as (_ & _ & _ & _ & _ & _ & -> & _).
  - simpl. apply (cancel_Dead sid _ s); [| | done].
    + by apply (reachable_FrameInv matchesSel body validSelector rawThrows).
    + by apply (reachable_RegInv matchesSel body validSelector rawThrows).
Qed.

End HtmxProperties.

(** ** collect: the order of the entries *)

Section SnapshotOrder.

Variable matchesSel : Document -> NodeRef -> string -> bool.

Local Abbreviation collectInto := (collectInto matchesSel).
Local Abbreviation collect := (collect matchesSel).

Lemma collectInto_error (m : Manifest) (d : Document) (st : gmap string Value) (err : Error) :
  collectInto st m d = inl err ->
  exists label config s,
    (label, config) ∈ m /\ truthyStr (selector config) = true
    /\ read config = Some (RStr s) /\ s <> "" /\ supportedRead s = false.
Proof.
  revert st. induction m as [| [l c] m IH]; intros st; simpl; [done |].
  assert (Hrest : forall st', collectInto st' m d = inl err ->
            exists label config s,
              (label, config) ∈ (l, c) :: m /\ truthyStr (selector config) = true
              /\ read config = Some (RStr s) /\ s <> "" /\ supportedRead s = false).
  { intros st' H. destruct (IH _ H) as (label & config & s & Hin & H').
    exists label, config, s. split; [by right | done]. }
  destruct (truthyStr (selector c)) eqn:Hsel; simpl; [| by apply Hrest].
  destruct (truthyRead (read c)) eqn:Htr; simpl; [| by apply Hrest].
  destruct (read c) as [rd |] eqn:Hrd; [| by apply Hrest].
  destruct (parseRead rd) as [err' | ex] eqn:Hp; [| by apply Hrest].
  intros _. apply parseRead_error in Hp as (s & -> & _ & Hs).
  exists l, c, s. repeat split; try done; [by left |].
  simpl in Htr. apply negb_true_iff in Htr. by apply String.eqb_neq.
Qed.

(** The snapshot does not depend on the order in which the manifest lists
    its entries. *)
Theorem collect_order_irrelevant (m m' : Manifest) (d : Document) (st : gmap string Value) :
  m ≡ₚ m' -> NoDup m.*1 -> collect m d = inr st -> collect m' d = inr st.
Proof.
  intros Hperm Hnd Hc.
  assert (Hnd' : NoDup m'.*1) by (by rewrite <- Hperm).
  destruct (collect m' d) as [err | st'] eqn:Hc'.
  - exfalso. apply collectInto_error in Hc' as (label & config & s & Hin & H).
    rewrite <- Hperm in Hin.
    destruct H as (Hsel & Hrd & Hne & Hs).
    destruct (collectInto_throws matchesSel m d ∅ label config s Hin Hsel Hrd Hne Hs)
      as (s' & He & _).
    unfold collect in Hc. congruence.
  - f_equal. apply map_eq. intros label.
    pose proof (collectInto_labels_empty matchesSel m d st label Hc) as Hl.
    pose proof (collectInto_labels_empty matchesSel m' d st' label Hc') as Hl'.
    destruct (st !! label) as [v |] eqn:Hv.
    + destruct (proj1 Hl) as (Hproto & config & Hin & Hsel & Htr); [by eexists |].
      destruct (read config) as [rd |] eqn:Hrd; [| done].
      destruct (collectInto_entry matchesSel m d ∅ st label config rd
                  Hnd Hin Hproto Hsel Hrd Htr Hc) as (ex & Hp & Hst).
      rewrite <- Hperm in Hnd'. rewrite Hperm in Hin. rewrite Hperm in Hnd'.
      destruct (collectInto_entry matchesSel m' d ∅ st' label config rd
                  Hnd' Hin Hproto Hsel Hrd Htr Hc') as (ex' & Hp' & Hst').
      rewrite Hp in Hp'. injection Hp' as <-. congruence.
    + destruct (st' !! label) as [v' |] eqn:Hv'; [| done].
      exfalso. destruct (proj1 Hl') as (Hproto & config & Hin & H); [by eexists |].
      rewrite <- Hperm in Hin.
      destruct (proj2 Hl) as [v Hv'']; [split; [done |]; by exists config |]. congruence.
Qed.

End SnapshotOrder.

(** ** Sessions without tree-mutation entries *)

Lemma watchedSelectors_nil (m : Manifest) :
  (forall label config, (label, config) ∈ m ->
     truthyStr (getWatchEvent (read config) (watch config)) = true) ->
  watchedSelectors m = [].
Proof.
  induction m as [| [l c] m IH]; intros H; simpl; [done |].
  rewrite (H l c) by (by left). simpl. apply IH.
  intros label config Hin. apply (H label config). by right.
Qed.

(** A session all of whose entries are watched through events ("value" and
    "checked" reads, watch overrides) takes no notice of mutations: its
    mutation handler leaves the world as it is, whatever the batch. *)
Theorem event_session_ignores_mutations (matchesSel : Document -> NodeRef -> string -> bool)
    (validSelector : string -> bool)
    (w : World) (sid : nat) (s : Session) (batch : list MutationRecord) :
  sessions w !! sid = Some s ->
  (forall label config, (label, config) ∈ s_manifest s ->
     truthyStr (getWatchEvent (read config) (watch config)) = true) ->
  mutationHandler matchesSel validSelector sid batch w = w.
Proof.
  intros Hs Hall. unfold mutationHandler. rewrite Hs, (watchedSelectors_nil _ Hall).
  assert (E : scanMutations matchesSel validSelector (doc w) [] batch = Irrelevant).
  { induction batch as [| mr batch IH]; simpl; [done |].
    by destruct (negb (isElement (doc w) (mr_target mr))). }
  by rewrite E.
Qed.

(** ** The properties at the small host *)

Lemma collect_single_match_witness :
  collect simpleMatches valueManifest page = inr pageSnapshot
  /\ exists extractor,
       parseRead (RStr "value") = inr extractor
       /\ pageSnapshot !! "a" = Some (extractor (input [("id", "a")] "1")).
Proof.
  assert (Hc : collect simpleMatches valueManifest page = inr pageSnapshot)
    by (vm_compute; reflexivity).
  assert (Hnd : NoDup valueManifest.*1) by compute_done.
  assert (Hp : "a" <> "__proto__") by discriminate.
  split; [exact Hc |].
  refine (collect_single_match simpleMatches valueManifest page pageSnapshot "a"
            (mkEntry (Some "#a") (Some (RStr "value")) None) (RStr "value")
            ([1; 1], input [("id", "a")] "1")
            Hnd _ Hp eq_refl eq_refl eq_refl Hc eq_refl).
  by left.
Defined.

(** The labels of [protoManifest]: "inputs" is a key of the snapshot,
    "__proto__" is not. *)
Lemma collect_labels_witness :
  collect simpleMatches protoManifest page
  = inr (<["inputs" := VArr [VStr "1"; VStr "2"]]> ∅)
  /\ (is_Some ((<["inputs" := VArr [VStr "1"; VStr "2"]]> (∅ : gmap string Value))
               !! "inputs")
      <-> "inputs" <> "__proto__"
          /\ exists config, ("inputs", config) ∈ protoManifest
                            /\ truthyStr (selector config) = true
                            /\ truthyRead (read config) = true)
  /\ (is_Some ((<["inputs" := VArr [VStr "1"; VStr "2"]]> (∅ : gmap string Value))
               !! "__proto__")
      <-> "__proto__" <> "__proto__"
          /\ exists config, ("__proto__", config) ∈ protoManifest
                            /\ truthyStr (selector config) = true
                            /\ truthyRead (read config) = true).
Proof.
  assert (Hc : collect simpleMatches protoManifest page
               = inr (<["inputs" := VArr [VStr "1"; VStr "2"]]> ∅))
    by (vm_compute; reflexivity).
  split; [exact Hc |]. split.
  - exact (collect_labels simpleMatches protoManifest page _ "inputs" Hc).
  - exact (collect_labels simpleMatches protoManifest page _ "__proto__" Hc).
Defined.

Lemma off_stops_notifications_witness :
  Forall (fun a => a <> On 7)
    [DomChange page [mkRecord Attributes bodyRef]; Notify; On 8; Frame]
  /\ notificationsOf (RawCallback 7)
       (trace (run simpleMatches bodyRef simpleValid quietCallbacks
                 (step simpleMatches bodyRef simpleValid quietCallbacks subscribedWorld (Off 7))
                 [DomChange page [mkRecord Attributes bodyRef]; Notify; On 8; Frame]))
     = [].
Proof.
  assert (H : Forall (fun a => a <> On 7)
                [DomChange page [mkRecord Attributes bodyRef]; Notify; On 8; Frame])
    by (repeat constructor; discriminate).
  split; [exact H |].
  exact (off_stops_notifications simpleMatches bodyRef simpleValid quietCallbacks
           7 subscribedWorld _ H).
Defined.

Lemma subscribedWorld_reachable :
  reachable simpleMatches bodyRef simpleValid quietCallbacks subscribedWorld.
Proof. by eexists page, _. Qed.

Lemma emptySelectorWorld_reachable :
  reachable simpleMatches bodyRef simpleValid quietCallbacks emptySelectorWorld.
Proof. by eexists page, _. Qed.

(** A raw subscriber alone gets the two body records as one batch; behind a
    mutation handler that throws it gets nothing. *)
Lemma raw_subscriber_receives_body_records_witness :
  reachable simpleMatches bodyRef simpleValid quietCallbacks subscribedWorld
  /\ RawCallback 7 ∈ observerCallbacks subscribedWorld
  /\ notificationsOf (RawCallback 7)
       (trace (step simpleMatches bodyRef simpleValid quietCallbacks
                 (step simpleMatches bodyRef simpleValid quietCallbacks subscribedWorld
                    (DomChange pageTyped
                       [mkRecord Attributes [1; 1]; mkRecord ChildList bodyRef;
                        mkRecord Attributes bodyRef]))
                 Notify))
     = [[mkRecord ChildList bodyRef; mkRecord Attributes bodyRef]]
  /\ RawCallback 7 ∈ observerCallbacks emptySelectorWorld
  /\ notificationsOf (RawCallback 7)
       (trace (step simpleMatches bodyRef simpleValid quietCallbacks
                 (step simpleMatches bodyRef simpleValid quietCallbacks emptySelectorWorld
                    (DomChange page [mkRecord Attributes bodyRef]))
                 Notify))
     = [].
Proof.
  assert (Hin : RawCallback 7 ∈ observerCallbacks subscribedWorld) by (by left).
  assert (Hin' : RawCallback 7 ∈ observerCallbacks emptySelectorWorld) by (right; by left).
  split; [exact subscribedWorld_reachable |]. split; [exact Hin |].
  split; [| split; [exact Hin' |]].
  - exact (proj2 (raw_subscriber_receives_body_records simpleMatches bodyRef simpleValid
                    quietCallbacks subscribedWorld 7 pageTyped
                    [mkRecord Attributes [1; 1]; mkRecord ChildList bodyRef;
                     mkRecord Attributes bodyRef]
                    subscribedWorld_reachable Hin)).
  - exact (proj2 (raw_subscriber_receives_body_records simpleMatches bodyRef simpleValid
                    quietCallbacks emptySelectorWorld 7 page
                    [mkRecord Attributes bodyRef]
                    emptySelectorWorld_reachable Hin')).
Defined.

Lemma no_firing_no_call_witness :
  reachable simpleMatches bodyRef simpleValid quietCallbacks valueWorld
  /\ sessions valueWorld !! 0 = Some valueSession
  /\ Forall (quietFor 0) idleWindow
  /\ firingsIn simpleMatches bodyRef simpleValid quietCallbacks 0 valueWorld idleWindow = 0
  /\ callsOf 0
       (trace (step simpleMatches bodyRef simpleValid quietCallbacks
                 (run simpleMatches bodyRef simpleValid quietCallbacks valueWorld idleWindow)
                 Frame))
     = [].
Proof.
  assert (Hq : Forall (quietFor 0) idleWindow) by (repeat constructor).
  assert (Hf : firingsIn simpleMatches bodyRef simpleValid quietCallbacks 0
                 valueWorld idleWindow = 0)
    by (vm_compute; reflexivity).
  split; [exact valueWorld_reachable |]. split; [reflexivity |].
  split; [exact Hq |]. split; [exact Hf |].
  exact (no_firing_no_call simpleMatches bodyRef simpleValid quietCallbacks
           0 idleWindow valueWorld valueSession
           valueWorld_reachable eq_refl eq_refl Hq Hf).
Defined.

Lemma two_windows_two_calls_witness :
  reachable simpleMatches bodyRef simpleValid quietCallbacks valueWorld
  /\ queriesValid simpleValid valueManifest = true
  /\ callsOf 0
       (trace (step simpleMatches bodyRef simpleValid quietCallbacks
                 (run simpleMatches bodyRef simpleValid quietCallbacks
                    (step simpleMatches bodyRef simpleValid quietCallbacks
                       (run simpleMatches bodyRef simpleValid quietCallbacks
                          valueWorld typingWindow) Frame)
                    resetWindow)
                 Frame))
     = [pageSnapshot; typedSnapshot].
Proof.
  split; [exact valueWorld_reachable |]. split; [reflexivity |].
  assert (Hv : queriesValid simpleValid (s_manifest valueSession) = true) by reflexivity.
  assert (Hq1 : Forall (quietFor 0) typingWindow) by (repeat constructor).
  assert (Hq2 : Forall (quietFor 0) resetWindow) by (repeat constructor).
  assert (Hf1 : 1 <= firingsIn simpleMatches bodyRef simpleValid quietCallbacks 0
                       valueWorld typingWindow)
    by (vm_compute; lia).
  assert (Hf2 : 1 <= firingsIn simpleMatches bodyRef simpleValid quietCallbacks 0
                       (step simpleMatches bodyRef simpleValid quietCallbacks
                          (run simpleMatches bodyRef simpleValid quietCallbacks
                             valueWorld typingWindow) Frame)
                       resetWindow)
    by (vm_compute; lia).
  assert (Hc1 : collect simpleMatches (s_manifest valueSession)
                  (doc (run simpleMatches bodyRef simpleValid quietCallbacks
                          valueWorld typingWindow))
                = inr typedSnapshot) by (vm_compute; reflexivity).
  assert (Hc2 : collect simpleMatches (s_manifest valueSession)
                  (doc (run simpleMatches bodyRef simpleValid quietCallbacks
                          (step simpleMatches bodyRef simpleValid quietCallbacks
                             (run simpleMatches bodyRef simpleValid quietCallbacks
                                valueWorld typingWindow) Frame)
                          resetWindow))
                = inr pageSnapshot) by (vm_compute; reflexivity).
  exact (two_windows_two_calls simpleMatches bodyRef simpleValid quietCallbacks
           0 typingWindow resetWindow
           valueWorld valueSession typedSnapshot pageSnapshot
           valueWorld_reachable eq_refl Hv Hq1 Hf1 Hc1 Hq2 Hf2 Hc2).
Defined.

Lemma one_frame_callback_per_session_witness :
  reachable simpleMatches bodyRef simpleValid quietCallbacks inFlightWorld
  /\ List.length (entriesOf 0 (frameCallbacks inFlightWorld)) <= 1.
Proof.
  split; [exact inFlightWorld_reachable |].
  exact (one_frame_callback_per_session simpleMatches bodyRef simpleValid quietCallbacks
           inFlightWorld 0 inFlightWorld_reachable).
Defined.

(** A session that reads "value" but watches "change": a change event on
    the input schedules a flush, an input event does not. *)
Lemma observe_reacts_iff_witness :
  reachable simpleMatches bodyRef simpleValid quietCallbacks valueWorld
  /\ pendingOf 1 (observe bodyRef watchManifest valueWorld) = false
  /\ pendingOf 1
       (step simpleMatches bodyRef simpleValid quietCallbacks
          (observe bodyRef watchManifest valueWorld) (Dispatch "change" [1; 1])) = true
  /\ pendingOf 1
       (step simpleMatches bodyRef simpleValid quietCallbacks
          (observe bodyRef watchManifest valueWorld) (Dispatch "input" [1; 1])) = false.
Proof.
  destruct (observe_reacts_iff simpleMatches bodyRef simpleValid quietCallbacks
              valueWorld watchManifest "change" [1; 1] valueWorld_reachable) as [H0 H1].
  split; [exact valueWorld_reachable |]. split; [exact H0 |]. split.
  - apply H1.
    split; [by right; left |]. split; [reflexivity |].
    exists "a", (mkEntry (Some "#a") (Some (RStr "value")) (Some "change")).
    repeat split; [by left | discriminate].
  - vm_compute. reflexivity.
Defined.

Lemma cancel_removes_exactly_own_witness :
  reachable simpleMatches bodyRef simpleValid quietCallbacks twoSessions
  /\ is_Some (sessions twoSessions !! 0)
  /\ bodyListeners (step simpleMatches bodyRef simpleValid quietCallbacks twoSessions (Cancel 0))
     = []
  /\ observerCallbacks
       (step simpleMatches bodyRef simpleValid quietCallbacks twoSessions (Cancel 0))
     = [MutationHandler 1].
Proof.
  assert (Hs : is_Some (sessions twoSessions !! 0)) by (by eexists).
  pose proof (cancel_removes_exactly_own simpleMatches bodyRef simpleValid quietCallbacks
                twoSessions 0 twoSessions_reachable Hs) as (H1 & H2 & _).
  split; [exact twoSessions_reachable |]. split; [exact Hs |].
  split; [exact H1 | exact H2].
Defined.

Lemma extProcessed_reachable :
  extReachable simpleMatches bodyRef simpleValid quietCallbacks noJson windowVars extProcessed.
Proof. by eexists extPage, _. Qed.

Lemma cleanup_silences_element_witness :
  extReachable simpleMatches bodyRef simpleValid quietCallbacks noJson windowVars extProcessed
  /\ activeObservers extProcessed !! [0; 0; 1] = Some 0
  /\ callsOf 0
       (trace (ext_world
                 (extRun simpleMatches bodyRef simpleValid quietCallbacks noJson windowVars
                    (extStep simpleMatches bodyRef simpleValid quietCallbacks noJson windowVars
                       extProcessed (BeforeCleanupElement [0; 0; 1]))
                    [HostAction (Dispatch "input" [0; 0; 1]); HostAction Frame;
                     BeforeProcessNode [0; 0; 1]])))
     = [].
Proof.
  assert (Hel : activeObservers extProcessed !! [0; 0; 1] = Some 0)
    by (vm_compute; reflexivity).
  split; [exact extProcessed_reachable |]. split; [exact Hel |].
  exact (proj2 (cleanup_silences_element simpleMatches bodyRef simpleValid quietCallbacks
                  noJson windowVars
                  extProcessed [0; 0; 1] 0
                  [HostAction (Dispatch "input" [0; 0; 1]); HostAction Frame;
                   BeforeProcessNode [0; 0; 1]]
                  extProcessed_reachable Hel)).
Defined.

Lemma collect_order_irrelevant_witness :
  collect simpleMatches valueManifest page = inr pageSnapshot
  /\ collect simpleMatches (List.rev valueManifest) page = inr pageSnapshot.
Proof.
  assert (Hc : collect simpleMatches valueManifest page = inr pageSnapshot)
    by (vm_compute; reflexivity).
  assert (Hnd : NoDup valueManifest.*1) by compute_done.
  split; [exact Hc |].
  refine (collect_order_irrelevant simpleMatches valueManifest (List.rev valueManifest)
            page pageSnapshot _ Hnd Hc).
  apply Permutation_rev.
Defined.

Lemma event_session_ignores_mutations_witness :
  sessions valueWorld !! 0 = Some valueSession
  /\ mutationHandler simpleMatches simpleValid 0 [mkRecord Attributes [1; 1]] valueWorld
     = valueWorld.
Proof.
  split; [reflexivity |].
  apply (event_session_ignores_mutations simpleMatches simpleValid valueWorld 0 valueSession
           [mkRecord Attributes [1; 1]] eq_refl).
  intros label config Hin. simpl in Hin. unfold valueManifest in Hin.
  repeat (apply elem_of_cons in Hin as [[= -> ->] | Hin]; [reflexivity |]).
  by apply elem_of_nil in Hin.
Defined.
